(** * great_ape_safe: a model of [GreatApeSafe] and its balance snapshot

    Shallow embedding of [great_ape_safe/great_ape_safe.py]: the balance
    snapshot ([take_snapshot], [print_snapshot]), the legacy gas estimate
    ([_set_safe_tx_gas]), the assembly and posting of the multisig
    transaction ([post_safe_tx]) and the hardware-wallet flows; further
    down, the helpers nested in these methods, the signatures pasted in
    [post_safe_tx_manually], and [init_all].

    Python values are modelled as follows: [int] is [Z]; [str] is [string],
    read as a sequence of code points below 256; [bytes] is [list byte];
    [float] is an IEEE 754 binary64 value ([spec_float] at precision 53);
    [decimal.Decimal] is a coefficient and an exponent under the default
    context. Exceptions are values of [exn]; methods of the safe run in a
    state-and-exception monad over [World]. *)

From Stdlib Require Import ZArith List String Ascii Bool Lia QArith Qpower.
From Stdlib Require Import Floats.SpecFloat.
From Stdlib Require Import Strings.Byte.
Import ListNotations.

Local Open Scope Z_scope.

(** ** Python strings: [str.split] and [int(str)] *)

Module PyStr.

Local Open Scope char_scope.

(** [s.split(sep)] for a one-character separator: every occurrence
    splits, empty fields are kept, the result is never empty. *)
Fixpoint split (sep : ascii) (s : string) : list string :=
  match s with
  | EmptyString => [EmptyString]
  | String c rest =>
      if Ascii.eqb c sep then EmptyString :: split sep rest
      else match split sep rest with
           | hd :: tl => String c hd :: tl
           | [] => [String c EmptyString]
           end
  end.

(** White space as [int] strips it: the code points below 256 for which
    [str.isspace] holds. *)
Definition isspace (c : ascii) : bool :=
  let n := N_of_ascii c in
  (((9 <=? n) && (n <=? 13)) || ((28 <=? n) && (n <=? 32))
   || (n =? 133) || (n =? 160))%N.

Definition isdigit (c : ascii) : bool :=
  let n := N_of_ascii c in ((48 <=? n) && (n <=? 57))%N.

Definition digit_value (c : ascii) : Z := Z.of_N (N_of_ascii c) - 48.

Fixpoint lstrip (s : string) : string :=
  match s with
  | String c rest => if isspace c then lstrip rest else s
  | EmptyString => EmptyString
  end.

Fixpoint rstrip (s : string) : string :=
  match s with
  | EmptyString => EmptyString
  | String c rest =>
      match rstrip rest with
      | EmptyString => if isspace c then EmptyString else String c EmptyString
      | r => String c r
      end
  end.

Definition strip (s : string) : string := rstrip (lstrip s).

(** Decimal digits with single underscores between them; [prev] tells
    whether the previous character was a digit. *)
Fixpoint digits (acc : Z) (prev : bool) (s : string) : option Z :=
  match s with
  | EmptyString => if prev then Some acc else None
  | String c rest =>
      if isdigit c then digits (10 * acc + digit_value c) true rest
      else if Ascii.eqb c "_" then
             if prev then digits acc false rest else None
      else None
  end.

(** [int(s)] in base ten; [None] is [ValueError]. *)
Definition to_int (s : string) : option Z :=
  match strip s with
  | String "-" rest => option_map Z.opp (digits 0 false rest)
  | String "+" rest => digits 0 false rest
  | body => digits 0 false body
  end.

End PyStr.

(** ** Exceptions *)

Inductive exn : Type :=
| ValueError
| IndexError
| OverflowError
| RuntimeError
| AttributeError
| TypeError
| ZeroDivisionError
| ContractNotFound.

(** ** Python numbers: [int] and [float]

    [gas_coef] is a Python number; its default, [1.5], is a float. A float
    is a binary64 value; the operations are those of the interpreter:
    [int * float] converts the int (round to nearest, ties to even,
    [OverflowError] beyond the range), multiplies with one rounding, and
    [int(float)] truncates toward zero. *)

Module PyNum.

Definition prec : Z := 53.
Definition emax : Z := 1024.

Inductive number : Type :=
| PyInt (z : Z)
| PyFloat (f : spec_float).

(** The float nearest to [m * 2^e]. *)
Definition float_of (m e : Z) : spec_float := binary_normalize prec emax m e false.

(** [float(z)]: [OverflowError] when [z] is beyond the finite range. *)
Definition float_of_int (z : Z) : exn + spec_float :=
  match float_of z 0 with
  | S754_infinity _ => inl OverflowError
  | f => inr f
  end.

(** [int(f)]: truncation toward zero. *)
Definition int_of_float (f : spec_float) : exn + Z :=
  match f with
  | S754_zero _ => inr 0
  | S754_infinity _ => inl OverflowError
  | S754_nan => inl ValueError
  | S754_finite s m e =>
      let mag := if 0 <=? e then Z.pos m * 2 ^ e else Z.pos m / 2 ^ (- e) in
      inr (if s then - mag else mag)
  end.

(** [x * z] for a number [x] and an int [z]. *)
Definition mul_int (x : number) (z : Z) : exn + number :=
  match x with
  | PyInt a => inr (PyInt (a * z))
  | PyFloat f =>
      match float_of_int z with
      | inl e => inl e
      | inr g => inr (PyFloat (SFmul prec emax f g))
      end
  end.

(** [int(x)]. *)
Definition to_int (x : number) : exn + Z :=
  match x with
  | PyInt a => inr a
  | PyFloat f => int_of_float f
  end.

(** [int(x * z)], as one step. *)
Definition int_mul (x : number) (z : Z) : exn + Z :=
  match mul_int x z with
  | inl e => inl e
  | inr y => to_int y
  end.

(** The default [gas_coef=1.5]. *)
Definition one_and_a_half : number := PyFloat (float_of 3 (-1)).

End PyNum.

(** ** [decimal.Decimal] under the default context

    A finite [Decimal] is a coefficient and an exponent, its value being
    [coef * 10^exp]. The default context has 28 significant digits and
    rounds half to even; every arithmetic result goes through [fix_], the
    constructor [Decimal(int)] does not. The exponent limits of the context
    (beyond [10^999999]) and the sign of a zero are not modelled. *)

Module PyDecimal.

Record Decimal : Type := mk { coef : Z; exp : Z }.

(** [getcontext().prec] *)
Definition prec : Z := 28.

Fixpoint ndigits_fuel (fuel : nat) (n : Z) : Z :=
  match fuel with
  | O => 1
  | S f => if n <? 10 then 1 else 1 + ndigits_fuel f (n / 10)
  end.

(** [len(self._int)]: the number of decimal digits of a coefficient
    ([n >= 0]; one digit for zero). *)
Definition ndigits (n : Z) : Z := ndigits_fuel (Z.to_nat (Z.log2 n)) n.

(** [Decimal(n)] for an int [n]: exact. *)
Definition of_int (n : Z) : Decimal := mk n 0.

(** [Decimal._fix]: round to the context's precision, half to even. *)
Definition fix_ (d : Decimal) : Decimal :=
  let c := Z.abs (coef d) in
  if c =? 0 then d
  else
    let exp_min := ndigits c + exp d - prec in
    if exp d <? exp_min then
      let k := exp_min - exp d in
      let q := c / 10 ^ k in
      let r := c mod 10 ^ k in
      let half := 5 * 10 ^ (k - 1) in
      let up := (half <? r) || ((r =? half) && Z.odd q) in
      let q' := if up then q + 1 else q in
      if prec <? ndigits q'
      then mk (Z.sgn (coef d) * (q' / 10)) (exp_min + 1)
      else mk (Z.sgn (coef d) * q') exp_min
    else d.

(** [a - b]: the exact difference, rounded once. *)
Definition sub (a b : Decimal) : Decimal :=
  let e := Z.min (exp a) (exp b) in
  fix_ (mk (coef a * 10 ^ (exp a - e) - coef b * 10 ^ (exp b - e)) e).

(** [10 ** Decimal(n)] for an int [n]: the power is exact, with the
    coefficient 1 followed by at most 27 zeros. *)
Definition ten_pow (n : Z) : Decimal :=
  if n <? 0 then mk 1 n
  else let z := Z.min n (prec - 1) in mk (10 ^ z) (n - z).

(** The loop of [__truediv__] on an exact quotient: drop trailing zeros
    while the exponent is below the ideal one; [fuel] is that distance. *)
Fixpoint strip_zeros (fuel : nat) (c e : Z) : Z * Z :=
  match fuel with
  | O => (c, e)
  | S f => if c mod 10 =? 0 then strip_zeros f (c / 10) (e + 1) else (c, e)
  end.

(** [a / b] ([Decimal.__truediv__]); [None] when [b] is zero, where the
    context raises. *)
Definition truediv (a b : Decimal) : option Decimal :=
  let ca := Z.abs (coef a) in
  let cb := Z.abs (coef b) in
  let sign := Z.sgn (coef a) * Z.sgn (coef b) in
  let ideal_exp := exp a - exp b in
  if cb =? 0 then None
  else if ca =? 0 then Some (fix_ (mk 0 ideal_exp))
  else
    let shift := ndigits cb - ndigits ca + prec + 1 in
    let e := ideal_exp - shift in
    let (q, r) :=
      if 0 <=? shift then Z.div_eucl (ca * 10 ^ shift) cb
      else Z.div_eucl ca (cb * 10 ^ (- shift)) in
    let (q', e') :=
      if r =? 0 then strip_zeros (Z.to_nat (ideal_exp - e)) q e
      else (if q mod 5 =? 0 then q + 1 else q, e) in
    Some (fix_ (mk (sign * q') e')).

(** [d != 0] *)
Definition nonzero (d : Decimal) : bool := negb (coef d =? 0).

(** The rational a [Decimal] denotes. *)
Definition value (d : Decimal) : Q := inject_Z (coef d) * Qpower (inject_Z 10) (exp d).

End PyDecimal.

(** ** Data of the safe *)

Local Open Scope string_scope.

(** A gnosis-py [SafeTx], by the attributes the wrapper reads and writes. *)
Record SafeTx : Type := mkSafeTx {
  to : string;
  value : Z;
  data : list byte;
  operation : Z;
  safe_tx_gas : Z;
  signatures : list byte;
  _safe_nonce : Z;
  _safe_version : string
}.

(** [safe_tx.safe_tx_gas = g] *)
Definition set_safe_tx_gas (safe_tx : SafeTx) (g : Z) : SafeTx :=
  mkSafeTx (to safe_tx) (value safe_tx) (data safe_tx) (operation safe_tx)
           g (signatures safe_tx) (_safe_nonce safe_tx) (_safe_version safe_tx).

(** [safe_tx.signatures = s] *)
Definition set_signatures (safe_tx : SafeTx) (s : list byte) : SafeTx :=
  mkSafeTx (to safe_tx) (value safe_tx) (data safe_tx) (operation safe_tx)
           (safe_tx_gas safe_tx) s (_safe_nonce safe_tx) (_safe_version safe_tx).

(** [safe_tx._safe_nonce = n] *)
Definition set_safe_nonce (safe_tx : SafeTx) (n : Z) : SafeTx :=
  mkSafeTx (to safe_tx) (value safe_tx) (data safe_tx) (operation safe_tx)
           (safe_tx_gas safe_tx) (signatures safe_tx) n (_safe_version safe_tx).

(** The property [safe_tx.safe_nonce]. *)
Definition safe_nonce (safe_tx : SafeTx) : Z := _safe_nonce safe_tx.

(** A brownie [TransactionReceipt]: a recorded contract call, or the
    receipt of a preview. [info_text] and [trace_text] stand for what
    [receipt.info()] and [receipt.call_trace(True)] print. *)
Record TransactionReceipt : Type := mkReceipt {
  receiver : string;
  input : list byte;
  gas_used : Z;
  info_text : string;
  trace_text : string
}.

(** A brownie [Contract] object, by its address. *)
Record Contract : Type := mkContract { c_address : string }.

(** An element of [tokens]: a [Contract] already, or anything else
    [Contract(...)] accepts. *)
Inductive Token : Type :=
| TokContract (c : Contract)
| TokOther (s : string).

(** The chain as the safe reads it: its own native balance, and the token
    calls [balanceOf(self)], [symbol()] and [decimals()] by token address. *)
Record Chain : Type := mkChain {
  account_balance : Z;
  call_balanceOf : string -> Z;
  call_symbol : string -> string;
  call_decimals : string -> Z
}.

(** The dict of columns [take_snapshot] fills, then [self.snapshot]. Every
    cell of [mantissa_before] and [decimals] is [Decimal(n)] for an int
    [n]; that constructor is exact, and the cell is recorded by [n]. *)
Record SnapshotFrame : Type := mkFrame {
  address : list string;
  symbol : list string;
  mantissa_before : list Z;
  decimals : list Z
}.

(** The frame [print_snapshot] prints: indexed by symbol, three columns. *)
Record DeltaFrame : Type := mkDelta {
  index : list string;
  balance_before : list PyDecimal.Decimal;
  balance_after : list PyDecimal.Decimal;
  balance_delta : list PyDecimal.Decimal
}.

(** What is written to standard output. *)
Inductive Out : Type :=
| OText (s : string)
| OTable (df : DeltaFrame)
| OPprint (safe_tx : SafeTx)
| OInfo (receipt : TransactionReceipt)
| OCallTrace (receipt : TransactionReceipt).

(** What is written to a file. *)
Inductive File : Type :=
| LogFile (buffer : list Out)
| CsvFile (header : list string) (rows : list (string * PyDecimal.Decimal)).

(** The attribute [self.snapshot]: absent until [take_snapshot] runs. *)
Inductive SnapshotAttr : Type :=
| NoAttr
| AttrNone
| AttrFrame (df : SnapshotFrame).

(** The safe and what it acts on. [stdout], [files], [posted],
    [posted_signatures] and [executed] grow at the end: they record the
    effects in order. *)
Record World : Type := mkWorld {
  chain : Chain;
  history : list TransactionReceipt;
  pending_transactions : list SafeTx;
  snapshot : SnapshotAttr;
  clock : string;
  stdout : list Out;
  files : list (string * File);
  posted : list SafeTx;
  posted_signatures : list (SafeTx * list byte);
  executed : list SafeTx
}.

Definition with_chain (w : World) (c : Chain) : World :=
  mkWorld c (history w) (pending_transactions w) (snapshot w) (clock w)
          (stdout w) (files w) (posted w) (posted_signatures w) (executed w).

Definition with_snapshot (w : World) (s : SnapshotAttr) : World :=
  mkWorld (chain w) (history w) (pending_transactions w) s (clock w)
          (stdout w) (files w) (posted w) (posted_signatures w) (executed w).

Definition with_stdout (w : World) (o : list Out) : World :=
  mkWorld (chain w) (history w) (pending_transactions w) (snapshot w) (clock w)
          o (files w) (posted w) (posted_signatures w) (executed w).

Definition with_files (w : World) (f : list (string * File)) : World :=
  mkWorld (chain w) (history w) (pending_transactions w) (snapshot w) (clock w)
          (stdout w) f (posted w) (posted_signatures w) (executed w).

Definition with_posted (w : World) (p : list SafeTx) : World :=
  mkWorld (chain w) (history w) (pending_transactions w) (snapshot w) (clock w)
          (stdout w) (files w) p (posted_signatures w) (executed w).

Definition with_posted_signatures (w : World) (p : list (SafeTx * list byte)) : World :=
  mkWorld (chain w) (history w) (pending_transactions w) (snapshot w) (clock w)
          (stdout w) (files w) (posted w) p (executed w).

Definition with_executed (w : World) (x : list SafeTx) : World :=
  mkWorld (chain w) (history w) (pending_transactions w) (snapshot w) (clock w)
          (stdout w) (files w) (posted w) (posted_signatures w) x.

(** ** The monad of the methods: state and exceptions *)

Inductive result (A : Type) : Type :=
| Ok (a : A) (w : World)
| Raise (e : exn) (w : World).

Arguments Ok {A} a w.
Arguments Raise {A} e w.

Definition M (A : Type) : Type := World -> result A.

Definition ret {A : Type} (a : A) : M A := fun w => Ok a w.

Definition bind {A B : Type} (m : M A) (k : A -> M B) : M B :=
  fun w => match m w with
           | Ok a w' => k a w'
           | Raise e w' => Raise e w'
           end.

Definition raise {A : Type} (e : exn) : M A := fun w => Raise e w.

Definition gets {A : Type} (f : World -> A) : M A := fun w => Ok (f w) w.

Definition modify (f : World -> World) : M unit := fun w => Ok tt (f w).

(** A pure step that may raise. *)
Definition lift {A : Type} (r : exn + A) : M A :=
  match r with
  | inl e => raise e
  | inr a => ret a
  end.

Declare Scope py_scope.
Delimit Scope py_scope with py.
Notation "x <- m ;; k" := (bind m (fun x => k))
  (at level 61, m at next level, right associativity) : py_scope.
Notation "m ;; k" := (bind m (fun _ => k))
  (at level 61, right associativity) : py_scope.
Local Open Scope py_scope.

(** [print], [C.print], [pprint], [receipt.info()]: one more item on
    standard output. *)
Definition emit (o : Out) : M unit :=
  modify (fun w => with_stdout w (stdout w ++ [o])).

(** [with redirect_stdout(StringIO()) as buffer: body]: what [body] writes
    goes to the buffer, and standard output is restored on the way out,
    also when [body] raises. *)
Definition redirect_stdout (body : M unit) : M (list Out) :=
  fun w => match body (with_stdout w []) with
           | Ok _ w' => Ok (stdout w') (with_stdout w' (stdout w))
           | Raise e w' => Raise e (with_stdout w' (stdout w))
           end.

(** [open(path, 'w')] and a write. *)
Definition write_file (path : string) (f : File) : M unit :=
  modify (fun w => with_files w (files w ++ [(path, f)])).

(** ** Python truthiness of the optional arguments *)

(** [if n:] for [n] an int or [None]. *)
Definition truthy_int (n : option Z) : bool :=
  match n with
  | Some z => negb (z =? 0)%Z
  | None => false
  end.

(** [if s:] for [s] a string or [None]. *)
Definition truthy_str (s : option string) : bool :=
  match s with
  | Some EmptyString => false
  | Some _ => true
  | None => false
  end.

(** ** The collaborators

    What [GreatApeSafe] inherits from [ApeSafe] or imports from brownie and
    only calls: the constant [ETH_ADDRESS], the label of the native coin
    ([labels[network.chain.id]]), [self.address], the two ways to obtain a
    [Contract] ([None] when the call raises), the batching of the recorded
    receipts into one [SafeTx], the preview on a fork of the chain (it may
    reset the chain), and the signature requested from the wallet (it
    returns the signature and leaves it on the transaction). *)

Class Env : Type := mkEnv {
  ETH_ADDRESS : string;
  native_label : string;
  self_address : string;
  Contract_ : string -> option Contract;
  from_explorer : string -> option Contract;
  multisend_from_receipts : list TransactionReceipt -> SafeTx;
  preview : SafeTx -> bool -> bool -> bool -> Chain -> TransactionReceipt * Chain;
  sign_with_frame : SafeTx -> list byte * SafeTx
}.

Section Methods.

Context {E : Env}.

(** [self.post_transaction(safe_tx)] *)
Definition post_transaction (safe_tx : SafeTx) : M unit :=
  modify (fun w => with_posted w (posted w ++ [safe_tx])).

(** [self.post_signature(safe_tx, signature)] *)
Definition post_signature (safe_tx : SafeTx) (signature : list byte) : M unit :=
  modify (fun w => with_posted_signatures w (posted_signatures w ++ [(safe_tx, signature)])).

(** [self.execute_transaction_with_frame(safe_tx)] *)
Definition execute_transaction_with_frame (safe_tx : SafeTx) : M unit :=
  modify (fun w => with_executed w (executed w ++ [safe_tx])).

(** [self.preview(safe_tx, events, call_trace, reset)] *)
Definition run_preview (safe_tx : SafeTx) (events call_trace reset : bool)
  : M TransactionReceipt :=
  fun w => let (receipt, ch) := preview safe_tx events call_trace reset (chain w) in
           Ok receipt (with_chain w ch).

(** The [try]/[except] of both snapshot loops:
    [Contract(token) if type(token) != Contract else token], and on any
    exception the same with [Contract.from_explorer]. *)
Definition to_contract (token : Token) : M Contract :=
  match token with
  | TokContract c => ret c
  | TokOther s =>
      match Contract_ s with
      | Some c => ret c
      | None =>
          match from_explorer s with
          | Some c => ret c
          | None => raise ContractNotFound
          end
      end
  end.

(** [x in l] for a list of strings. *)
Definition str_in (x : string) (l : list string) : bool :=
  existsb (String.eqb x) l.

(** The body of the loop of [take_snapshot], after [token] is a
    [Contract]. *)
Definition snapshot_append (ch : Chain) (df : SnapshotFrame) (token : Contract)
  : SnapshotFrame :=
  let a := c_address token in
  if negb (str_in a (address df)) then
    mkFrame (address df ++ [a])
            (symbol df ++ [call_symbol ch a])
            (mantissa_before df ++ [call_balanceOf ch a])
            (decimals df ++ [call_decimals ch a])
  else df.

(** [for token in tqdm(tokens): ...] *)
Fixpoint snapshot_loop (tokens : list Token) (df : SnapshotFrame) : M SnapshotFrame :=
  match tokens with
  | [] => ret df
  | token :: rest =>
      c <- to_contract token ;;
      ch <- gets chain ;;
      snapshot_loop rest (snapshot_append ch df c)
  end.

Definition take_snapshot (tokens : list Token) : M unit :=
  emit (OText ("snapshotting " ++ self_address ++ "...")) ;;
  ch <- gets chain ;;
  df <- snapshot_loop tokens
          (mkFrame [ETH_ADDRESS] [native_label] [account_balance ch] [18%Z]) ;;
  modify (fun w => with_snapshot w (AttrFrame df)).

(** [df.at[label, 'mantissa_after'] = v] on the rows whose index is
    [label]. A cell is [None] while it holds the NaN the new column is
    created with. *)
Fixpoint at_set (idx : list string) (col : list (option Z)) (label : string) (v : Z)
  : list (option Z) :=
  match idx, col with
  | i :: idx', c :: col' =>
      (if String.eqb i label then Some v else c) :: at_set idx' col' label v
  | _, _ => []
  end.

(** The first loop of [print_snapshot]. [enlarged] records that a label
    was not in the index: pandas then adds a row, NaN in the other
    columns, and the arithmetic below raises on it. *)
Fixpoint fill_after (todo idx : list string) (col : list (option Z)) (enlarged : bool)
  : M (list (option Z) * bool) :=
  match todo with
  | [] => ret (col, enlarged)
  | token :: rest =>
      if String.eqb token ETH_ADDRESS then
        ch <- gets chain ;;
        fill_after rest idx (at_set idx col token (account_balance ch)) enlarged
      else
        c <- to_contract (TokOther token) ;;
        ch <- gets chain ;;
        let a := c_address c in
        fill_after rest idx (at_set idx col a (call_balanceOf ch a))
                   (enlarged || negb (str_in a idx))
  end.

(** All cells of a column, or [None] when one is still NaN. *)
Fixpoint cells {A : Type} (col : list (option A)) : option (list A) :=
  match col with
  | [] => Some []
  | None :: _ => None
  | Some x :: rest => option_map (cons x) (cells rest)
  end.

(** Column arithmetic, cell by cell. *)
Definition col_sub (a b : list PyDecimal.Decimal) : list PyDecimal.Decimal :=
  map (fun p => PyDecimal.sub (fst p) (snd p)) (combine a b).

Definition col_truediv (a b : list PyDecimal.Decimal) : option (list PyDecimal.Decimal) :=
  cells (map (fun p => PyDecimal.truediv (fst p) (snd p)) (combine a b)).

(** [df[mask]] on one column. *)
Fixpoint select {A : Type} (mask : list bool) (col : list A) : list A :=
  match mask, col with
  | m :: mask', c :: col' => if m then c :: select mask' col' else select mask' col'
  | _, _ => []
  end.

(** [10 ** df['decimals']] *)
Definition scale_column (snap : SnapshotFrame) : list PyDecimal.Decimal :=
  map PyDecimal.ten_pow (decimals snap).

(** [df['balance_delta']]:
    [(df['mantissa_after'] - df['mantissa_before']) / 10 ** df['decimals']] *)
Definition balance_delta_column (snap : SnapshotFrame) (mantissa_after : list Z)
  : option (list PyDecimal.Decimal) :=
  col_truediv (col_sub (map PyDecimal.of_int mantissa_after)
                       (map PyDecimal.of_int (mantissa_before snap)))
              (scale_column snap).

(** The lines under [# calc deltas] up to the filter: the three quotient
    columns, indexed by symbol, and the rows with a delta kept. *)
Definition calc_deltas (snap : SnapshotFrame) (mantissa_after : list Z)
  : option DeltaFrame :=
  match col_truediv (map PyDecimal.of_int (mantissa_before snap)) (scale_column snap),
        col_truediv (map PyDecimal.of_int mantissa_after) (scale_column snap),
        balance_delta_column snap mantissa_after with
  | Some bb, Some ba, Some bd =>
      let mask := map PyDecimal.nonzero bd in
      Some (mkDelta (select mask (symbol snap)) (select mask bb)
                    (select mask ba) (select mask bd))
  | _, _, _ => None
  end.

Definition print_snapshot (csv_destination : option string) : M unit :=
  attr <- gets snapshot ;;
  match attr with
  | NoAttr => raise AttributeError
  | AttrNone => raise RuntimeError
  | AttrFrame snap =>
      let idx := address snap in
      filled <- fill_after idx idx (map (fun _ => None) idx) false ;;
      match (if snd filled then None else cells (fst filled)) with
      | None => raise TypeError
      | Some mantissa_after =>
          match calc_deltas snap mantissa_after with
          | None => raise ZeroDivisionError
          | Some df =>
              (if truthy_str csv_destination then
                 write_file (match csv_destination with Some p => p | None => "" end)
                            (CsvFile ["token"; "claimable_amount"]
                                     (combine (index df) (balance_delta df)))
               else ret tt) ;;
              emit (OText ("snapshot result for " ++ self_address ++ ":")) ;;
              emit (OTable df)
          end
      end
  end.

(** [hasattr(self, 'snapshot')] *)
Definition hasattr_snapshot : M bool :=
  gets (fun w => match snapshot w with NoAttr => false | _ => true end).

Definition _dump_log (safe_tx : SafeTx) (receipt : TransactionReceipt) (log_name : string)
  : M unit :=
  buffer <- redirect_stdout
              (emit (OInfo receipt) ;;
               emit (OCallTrace receipt) ;;
               emit (OPprint safe_tx) ;;
               has <- hasattr_snapshot ;;
               if has then print_snapshot None else ret tt) ;;
  stamp <- gets clock ;;
  write_file ("logs/" ++ stamp ++ "_" ++ log_name ++ ".log") (LogFile buffer).

(** The test [int(versions[0]) <= 1 and int(versions[1]) < 3] on
    [safe_tx._safe_version.split('.')]; [and] does not evaluate its right
    side when the left one is false. *)
Definition legacy_version (version : string) : exn + bool :=
  let versions := PyStr.split "." version in
  match nth_error versions 0 with
  | None => inl IndexError
  | Some v0 =>
      match PyStr.to_int v0 with
      | None => inl ValueError
      | Some major =>
          if (major <=? 1)%Z then
            match nth_error versions 1 with
            | None => inl IndexError
            | Some v1 =>
                match PyStr.to_int v1 with
                | None => inl ValueError
                | Some minor => inr (minor <? 3)%Z
                end
            end
          else inr false
      end
  end.

(** [max(gas_used * 64 // 63, gas_used + 2500) + 500] *)
Definition legacy_gas (gas_used : Z) : Z :=
  (Z.max (gas_used * 64 / 63) (gas_used + 2500) + 500)%Z.

Definition _set_safe_tx_gas (safe_tx : SafeTx) (events call_trace reset : bool)
  (log_name : option string) (gas_coef : PyNum.number) : M SafeTx :=
  legacy <- lift (legacy_version (_safe_version safe_tx)) ;;
  updated <-
    (if legacy : bool then
       receipt <- run_preview safe_tx events call_trace reset ;;
       scaled <- lift (PyNum.int_mul gas_coef (legacy_gas (gas_used receipt))) ;;
       ret (receipt, set_signatures (set_safe_tx_gas safe_tx (35000 + scaled)%Z) [])
     else
       receipt <- run_preview safe_tx events call_trace reset ;;
       ret (receipt, set_safe_tx_gas safe_tx 0%Z)) ;;
  (if truthy_str log_name then
     _dump_log (snd updated) (fst updated)
               (match log_name with Some n => n | None => "" end)
   else ret tt) ;;
  ret (snd updated).

Definition post_safe_tx (skip_preview events call_trace reset silent post : bool)
  (replace_nonce : option Z) (log_name csv_destination : option string)
  (gas_coef : PyNum.number) : M SafeTx :=
  receipts <- gets history ;;
  let safe_tx := multisend_from_receipts receipts in
  safe_tx <- (if negb skip_preview
              then _set_safe_tx_gas safe_tx events call_trace reset log_name gas_coef
              else ret safe_tx) ;;
  let safe_tx := if truthy_int replace_nonce
                 then set_safe_nonce safe_tx
                        (match replace_nonce with Some n => n | None => 0%Z end)
                 else safe_tx in
  (if negb silent then emit (OPprint safe_tx) else ret tt) ;;
  has <- hasattr_snapshot ;;
  (if has then print_snapshot csv_destination else ret tt) ;;
  (if post then post_transaction safe_tx else ret tt) ;;
  ret safe_tx.

(** The loop of [_get_safe_tx_by_nonce]. *)
Fixpoint find_by_nonce (pending : list SafeTx) (n : Z) : option SafeTx :=
  match pending with
  | [] => None
  | safe_tx :: rest =>
      if (safe_nonce safe_tx =? n)%Z then Some safe_tx else find_by_nonce rest n
  end.

Definition _get_safe_tx_by_nonce (n : Z) : M SafeTx :=
  pending <- gets pending_transactions ;;
  match find_by_nonce pending n with
  | Some safe_tx => ret safe_tx
  | None => raise RuntimeError
  end.

Definition sign_with_frame_hardware_wallet (safe_tx_nonce : option Z) : M unit :=
  safe_tx <- (if truthy_int safe_tx_nonce then
                _get_safe_tx_by_nonce
                  (match safe_tx_nonce with Some n => n | None => 0%Z end)
              else
                pending <- gets pending_transactions ;;
                match pending with
                | first :: _ => ret first
                | [] => raise IndexError
                end) ;;
  emit (OPprint safe_tx) ;;
  let signed := sign_with_frame safe_tx in
  post_signature (snd signed) (fst signed).

Definition execute_with_frame_hardware_wallet (safe_tx_nonce : option Z) : M unit :=
  safe_tx <- (if truthy_int safe_tx_nonce then
                _get_safe_tx_by_nonce
                  (match safe_tx_nonce with Some n => n | None => 0%Z end)
              else
                pending <- gets pending_transactions ;;
                match pending with
                | first :: _ => ret first
                | [] => raise IndexError
                end) ;;
  emit (OPprint safe_tx) ;;
  execute_transaction_with_frame safe_tx.

End Methods.

(** ** Vocabulary of the statements

    What the properties below talk about: the readings a snapshot row holds,
    and the condition on the collaborators under which the loops go
    through. None of it is part of the program. *)

Section Vocabulary.

Context {E : Env}.

(** The balance both loops read for the address of a row: the native
    balance of the safe for [ETH_ADDRESS], [balanceOf] otherwise. *)
Definition read_balance (ch : Chain) (a : string) : Z :=
  if String.eqb a ETH_ADDRESS then account_balance ch else call_balanceOf ch a.

Definition read_symbol (ch : Chain) (a : string) : string :=
  if String.eqb a ETH_ADDRESS then native_label else call_symbol ch a.

Definition read_decimals (ch : Chain) (a : string) : Z :=
  if String.eqb a ETH_ADDRESS then 18%Z else call_decimals ch a.

(** [snap] holds the readings of [ch] at its addresses. *)
Definition snapshot_of (ch : Chain) (snap : SnapshotFrame) : Prop :=
  symbol snap = map (read_symbol ch) (address snap)
  /\ mantissa_before snap = map (read_balance ch) (address snap)
  /\ decimals snap = map (read_decimals ch) (address snap).

(** One of the two lookups turns [token] into a [Contract]. *)
Definition resolvable (token : Token) : bool :=
  match token with
  | TokContract _ => true
  | TokOther s =>
      match Contract_ s, from_explorer s with
      | None, None => false
      | _, _ => true
      end
  end.

(** Looking up the address [a] gives the contract at [a]. *)
Definition self_resolving (a : string) : bool :=
  match Contract_ a with
  | Some c => String.eqb (c_address c) a
  | None =>
      match from_explorer a with
      | Some c => String.eqb (c_address c) a
      | None => false
      end
  end.

(** Every address of the index is the native coin or can be looked up. *)
Definition printable (idx : list string) : bool :=
  forallb (fun a => String.eqb a ETH_ADDRESS || self_resolving a) idx.

(** The attribute [snapshot] is absent, or a frame that can be printed. *)
Definition snapshot_ready (w : World) : bool :=
  match snapshot w with
  | NoAttr => true
  | AttrNone => false
  | AttrFrame snap => printable (address snap)
  end.

(** The frame [print_snapshot] prints in [w]: the deltas between the
    snapshot and the balances of [chain w]. *)
Definition printed_frame (w : World) : option DeltaFrame :=
  match snapshot w with
  | AttrFrame snap => calc_deltas snap (map (read_balance (chain w)) (address snap))
  | _ => None
  end.

(** The two prints at the end of [print_snapshot]. *)
Definition snapshot_lines (w : World) : list Out :=
  match printed_frame w with
  | Some df => [OText ("snapshot result for " ++ self_address ++ ":"); OTable df]
  | None => []
  end.

(** The CSV file of [print_snapshot], when it writes one. *)
Definition csv_files (csv_destination : option string) (w : World)
  : list (string * File) :=
  match printed_frame w, csv_destination with
  | Some df, Some path =>
      if truthy_str csv_destination
      then [(path, CsvFile ["token"; "claimable_amount"]
                           (combine (index df) (balance_delta df)))]
      else []
  | _, _ => []
  end.

(** The world after [if hasattr(self, 'snapshot'): self.print_snapshot(csv)]. *)
Definition print_effect (csv_destination : option string) (w : World) : World :=
  with_stdout (with_files w (files w ++ csv_files csv_destination w))
              (stdout w ++ snapshot_lines w).

(** The name and the content of the log file of [_dump_log]. *)
Definition log_path (stamp log_name : string) : string :=
  "logs/" ++ stamp ++ "_" ++ log_name ++ ".log".

Definition log_lines (safe_tx : SafeTx) (receipt : TransactionReceipt) (w : World)
  : list Out :=
  [OInfo receipt; OCallTrace receipt; OPprint safe_tx] ++ snapshot_lines w.

(** The world after [if log_name: self._dump_log(safe_tx, receipt, log_name)]. *)
Definition log_effect (log_name : option string) (safe_tx : SafeTx)
  (receipt : TransactionReceipt) (w : World) : World :=
  match log_name with
  | Some name =>
      if truthy_str log_name
      then with_files w (files w ++ [(log_path (clock w) name,
                                      LogFile (log_lines safe_tx receipt w))])
      else w
  | None => w
  end.

(** The transaction [_set_safe_tx_gas] returns, given the receipt of the
    preview: the branch on the version, without the effects. *)
Definition gas_step (safe_tx : SafeTx) (receipt : TransactionReceipt)
  (gas_coef : PyNum.number) : exn + SafeTx :=
  match legacy_version (_safe_version safe_tx) with
  | inl e => inl e
  | inr true =>
      match PyNum.int_mul gas_coef (legacy_gas (gas_used receipt)) with
      | inl e => inl e
      | inr scaled =>
          inr (set_signatures (set_safe_tx_gas safe_tx (35000 + scaled)%Z) [])
      end
  | inr false => inr (set_safe_tx_gas safe_tx 0%Z)
  end.

(** [safe_tx._safe_nonce = replace_nonce], under [if replace_nonce:]. *)
Definition nonce_step (replace_nonce : option Z) (safe_tx : SafeTx) : SafeTx :=
  match replace_nonce with
  | Some n => if truthy_int replace_nonce then set_safe_nonce safe_tx n else safe_tx
  | None => safe_tx
  end.

(** The log files among the files written. *)
Definition log_files (w : World) : list (string * File) :=
  filter (fun f => match snd f with LogFile _ => true | CsvFile _ _ => false end) (files w).

(** The world [take_snapshot] leaves when it stores the frame [snap]. *)
Definition snapped (w : World) (snap : SnapshotFrame) : World :=
  with_snapshot
    (with_stdout w (stdout w ++ [OText ("snapshotting " ++ self_address ++ "...")]))
    (AttrFrame snap).

(** The world [sign_with_frame_hardware_wallet] leaves when it selects
    [safe_tx]. *)
Definition signed_world (safe_tx : SafeTx) (w : World) : World :=
  let w1 := with_stdout w (stdout w ++ [OPprint safe_tx]) in
  with_posted_signatures w1
    (posted_signatures w1 ++ [(snd (sign_with_frame safe_tx), fst (sign_with_frame safe_tx))]).

(** The world [execute_with_frame_hardware_wallet] leaves when it selects
    [safe_tx]. *)
Definition executed_world (safe_tx : SafeTx) (w : World) : World :=
  let w1 := with_stdout w (stdout w ++ [OPprint safe_tx]) in
  with_executed w1 (executed w1 ++ [safe_tx]).

(** The columns of a frame have one length, as [pd.DataFrame] requires. *)
Definition well_formed (snap : SnapshotFrame) : Prop :=
  List.length (symbol snap) = List.length (address snap)
  /\ List.length (mantissa_before snap) = List.length (address snap)
  /\ List.length (decimals snap) = List.length (address snap).

(** The transaction of [post_safe_tx] after the gas step: the batch of
    the recorded receipts, through [_set_safe_tx_gas] unless the preview is
    skipped. *)
Definition estimated (skip_preview events call_trace reset : bool)
  (gas_coef : PyNum.number) (w : World) : exn + SafeTx :=
  let base := multisend_from_receipts (history w) in
  if skip_preview then inr base
  else gas_step base (fst (preview base events call_trace reset (chain w))) gas_coef.

(** The world of [post_safe_tx] after the gas step, [safe_tx] being the
    transaction it produced. *)
Definition estimated_world (skip_preview events call_trace reset : bool)
  (log_name : option string) (safe_tx : SafeTx) (w : World) : World :=
  let base := multisend_from_receipts (history w) in
  let pr := preview base events call_trace reset (chain w) in
  if skip_preview then w
  else log_effect log_name safe_tx (fst pr) (with_chain w (snd pr)).

(** The world [post_safe_tx] leaves, [safe_tx] being the transaction after
    the gas step. *)
Definition posted_world (skip_preview events call_trace reset silent post : bool)
  (replace_nonce : option Z) (log_name csv_destination : option string)
  (safe_tx : SafeTx) (w : World) : World :=
  let w1 := estimated_world skip_preview events call_trace reset log_name safe_tx w in
  let final := nonce_step replace_nonce safe_tx in
  let w2 := if silent then w1 else with_stdout w1 (stdout w1 ++ [OPprint final]) in
  let w3 := print_effect csv_destination w2 in
  if post then with_posted w3 (posted w3 ++ [final]) else w3.

(** The new column while the loop runs: the rows whose address was met
    hold their balance, the others the NaN they were created with. *)
Definition col_state (ch : Chain) (seen idx : list string) : list (option Z) :=
  map (fun a => if str_in a seen then Some (read_balance ch a) else None) idx.

End Vocabulary.

(** ** Further parts of the module

    The helpers nested in the methods above ([remove_ansi_escapes] of
    [_dump_log], [locale_decimal] of [print_snapshot]), the reading of the
    pasted signatures in [post_safe_tx_manually], and [init_all] with the
    [init_] methods. *)

(** ** Regular expressions: the fragment of [re] the log uses

    A literal, a set of characters given as a range, alternation,
    concatenation, and the greedy star of a set. Matching is the
    backtracking search of [re]: alternatives in order, the star longest
    first. *)

Module PyRe.

Inductive regex : Type :=
| Lit (s : string)
| Range (lo hi : ascii)
| Alt (r1 r2 : regex)
| Seq (r1 r2 : regex)
| StarRange (lo hi : ascii).

(** [c] is in the set [[lo-hi]]. *)
Definition in_range (lo hi c : ascii) : bool :=
  ((N_of_ascii lo <=? N_of_ascii c) && (N_of_ascii c <=? N_of_ascii hi))%N.

(** [s] without the prefix [p], when it starts with it. *)
Fixpoint strip_prefix (p s : string) : option string :=
  match p, s with
  | EmptyString, _ => Some s
  | String a p', String b s' => if Ascii.eqb a b then strip_prefix p' s' else None
  | String _ _, EmptyString => None
  end.

(** A match of [r] at the start of [s] after which [k] accepts what is
    left: the first one in the order of the search. *)
Fixpoint match_then {A : Type} (r : regex) (k : string -> option A) (s : string)
  : option A :=
  match r with
  | Lit p =>
      match strip_prefix p s with
      | Some rest => k rest
      | None => None
      end
  | Range lo hi =>
      match s with
      | String c rest => if in_range lo hi c then k rest else None
      | EmptyString => None
      end
  | Alt r1 r2 =>
      match match_then r1 k s with
      | Some x => Some x
      | None => match_then r2 k s
      end
  | Seq r1 r2 => match_then r1 (match_then r2 k) s
  | StarRange lo hi =>
      (fix star (s : string) : option A :=
         match s with
         | String c rest =>
             if in_range lo hi c then
               match star rest with
               | Some x => Some x
               | None => k s
               end
             else k s
         | EmptyString => k s
         end) s
  end.

(** [r.match(s)]: what is left of [s] after the match. *)
Definition match_at (r : regex) (s : string) : option string :=
  match_then r (fun rest => Some rest) s.

(** [r.sub('', s)]: the matches are found left to right, each search
    starting where the last match ended, and dropped. [skip] counts the
    characters of the current match still to drop. *)
Fixpoint remove_from (r : regex) (skip : nat) (s : string) : string :=
  match s with
  | EmptyString => EmptyString
  | String c rest =>
      match skip with
      | S n => remove_from r n rest
      | O =>
          match match_at r s with
          | Some remaining =>
              match (String.length s - String.length remaining)%nat with
              | S n => remove_from r n rest
              | O => String c (remove_from r 0 rest)
              end
          | None => String c (remove_from r 0 rest)
          end
      end
  end.

Definition remove (r : regex) (s : string) : string := remove_from r 0 s.

End PyRe.

(** The characters CSI and ESC. *)
Definition CSI : ascii := ascii_of_byte x9b.
Definition ESC : ascii := ascii_of_byte x1b.

(** [re.compile(r'(\x9B|\x1B\[)[0-?]*[ -/]*[@-~]')] *)
Definition ansi_escape : PyRe.regex :=
  PyRe.Seq (PyRe.Alt (PyRe.Lit (String CSI "")) (PyRe.Lit (String ESC "[")))
    (PyRe.Seq (PyRe.StarRange "0" "?")
       (PyRe.Seq (PyRe.StarRange " " "/") (PyRe.Range "@" "~"))).

(** The function [remove_ansi_escapes] of [_dump_log], applied to the text
    of the buffer before it is written to the log. *)
Definition remove_ansi_escapes (text : string) : string :=
  PyRe.remove ansi_escape text.

(** An escape sequence as the pattern reads it: the introducer, parameter
    characters, intermediate characters, and a final character. *)
Definition introducer (p : string) : bool :=
  String.eqb p (String CSI "") || String.eqb p (String ESC "[").

Definition all_in (lo hi : ascii) (s : string) : bool :=
  forallb (PyRe.in_range lo hi) (list_ascii_of_string s).

(** No character of [s] starts an escape sequence. *)
Definition plain (s : string) : bool :=
  forallb (fun c => negb (Ascii.eqb c CSI) && negb (Ascii.eqb c ESC))
          (list_ascii_of_string s).

(** ** Python bytes: [bytes.fromhex] and [bytes.hex] *)

Module PyBytes.

(** The white space [bytes.fromhex] skips: the ASCII white space. *)
Definition isspace (c : ascii) : bool :=
  let n := N_of_ascii c in (((9 <=? n) && (n <=? 13)) || (n =? 32))%N.

(** The value of a hexadecimal digit, of either case. *)
Definition hex_value (c : ascii) : option N :=
  let n := N_of_ascii c in
  if ((48 <=? n) && (n <=? 57))%N then Some (n - 48)%N
  else if ((97 <=? n) && (n <=? 102))%N then Some (n - 87)%N
  else if ((65 <=? n) && (n <=? 70))%N then Some (n - 55)%N
  else None.

(** [bytes.fromhex(s)]: two digits per byte, white space skipped between
    bytes and not inside one; [None] is [ValueError]. *)
Fixpoint fromhex (s : string) : option (list byte) :=
  match s with
  | EmptyString => Some []
  | String c rest =>
      if isspace c then fromhex rest
      else
        match hex_value c, rest with
        | Some top, String d rest' =>
            match hex_value d with
            | Some bot =>
                option_map (cons (byte_of_ascii (ascii_of_N (16 * top + bot))))
                           (fromhex rest')
            | None => None
            end
        | _, _ => None
        end
  end.

(** A hexadecimal digit, in lower case. *)
Definition hex_digit (n : N) : ascii :=
  ascii_of_N (if (n <? 10)%N then 48 + n else 87 + n).

(** [b.hex()] *)
Fixpoint hex (b : list byte) : string :=
  match b with
  | [] => EmptyString
  | x :: rest =>
      let n := Byte.to_N x in
      String (hex_digit (n / 16)) (String (hex_digit (n mod 16)) (hex rest))
  end.

End PyBytes.

(** The line [safe_tx.signatures = bytes.fromhex(signature)] of
    [post_safe_tx_manually], [signature] being what was typed at the
    prompt. *)
Definition paste_signatures (safe_tx : SafeTx) (signature : string) : exn + SafeTx :=
  match PyBytes.fromhex signature with
  | Some b => inr (set_signatures safe_tx b)
  | None => inl ValueError
  end.

(** ** Formatting a [Decimal]: [format(d, ',.18f')]

    [Decimal.__format__] for the presentation type [f]: the number is
    rescaled to the precision (half to even), its digits are cut at the
    point, the integer part is grouped by thousands. A coefficient of zero
    is the positive zero. *)

Module PyFormat.

Import PyDecimal.

Definition digit_char (d : Z) : ascii := ascii_of_N (Z.to_N (48 + d)).

(** The last [width] decimal digits of [n], the most significant first. *)
Fixpoint fixed (width : nat) (n : Z) : string :=
  match width with
  | O => EmptyString
  | S w => fixed w (n / 10) ++ String (digit_char (n mod 10)) EmptyString
  end.

(** [str(n)] for [n >= 0]: the digits [self._int] of a coefficient. *)
Definition str (n : Z) : string := fixed (Z.to_nat (ndigits n)) n.

(** ['0' * n] *)
Fixpoint zeros (n : nat) : string :=
  match n with
  | O => EmptyString
  | S m => String "0" (zeros m)
  end.

(** [s[:n]] and [s[n:]] *)
Fixpoint take (n : nat) (s : string) : string :=
  match n, s with
  | S m, String c rest => String c (take m rest)
  | _, _ => EmptyString
  end.

Fixpoint drop (n : nat) (s : string) : string :=
  match n, s with
  | S m, String _ rest => drop m rest
  | _, _ => s
  end.

(** [Decimal._rescale(e, ROUND_HALF_EVEN)]: the number with the exponent
    [e]. With fewer digits to keep than none, the coefficient is first
    replaced by 1 at the exponent [e - 1]. *)
Definition rescale (d : Decimal) (e : Z) : Decimal :=
  let c := Z.abs (coef d) in
  if (c =? 0)%Z then mk 0 e
  else if (e <=? exp d)%Z then mk (coef d * 10 ^ (exp d - e)) e
  else
    let digits := ndigits c + exp d - e in
    let c1 := if (digits <? 0)%Z then 1 else c in
    let k := if (digits <? 0)%Z then 1 else e - exp d in
    let q := c1 / 10 ^ k in
    let r := c1 mod 10 ^ k in
    let half := 5 * 10 ^ (k - 1) in
    let up := (half <? r)%Z || ((r =? half)%Z && Z.odd q) in
    mk (Z.sgn (coef d) * (if up then q + 1 else q)) e.

(** The loop of [_insert_thousands_sep] for groups of three and no
    minimal width: the groups are taken from the right, the last one taken
    comes first. *)
Fixpoint group_loop (fuel : nat) (digits : string) (groups : list string) : list string :=
  match fuel with
  | O => groups
  | S f =>
      let len := String.length digits in
      let l := Nat.min (Nat.max len 1) 3 in
      let group := zeros (l - len) ++ drop (len - l) digits in
      let digits' := take (len - l) digits in
      match digits' with
      | EmptyString => group :: groups
      | _ => group_loop f digits' (group :: groups)
      end
  end.

(** [_insert_thousands_sep(digits, spec)] for the separator [,]. *)
Definition insert_thousands_sep (digits : string) : string :=
  String.concat "," (group_loop (S (String.length digits)) digits []).

(** [_format_number]: the sign, the grouped integer part, and the point
    and the fraction when there is one. *)
Definition format_number (negative : bool) (intpart fracpart : string) : string :=
  let sign := if negative then "-" else "" in
  let fracpart := match fracpart with
                  | EmptyString => EmptyString
                  | _ => String "." fracpart
                  end in
  sign ++ insert_thousands_sep intpart ++ fracpart.

(** [format(d, ',.<precision>f')] *)
Definition format_f (precision : Z) (d : Decimal) : string :=
  let r := rescale d (- precision) in
  let int_ := str (Z.abs (coef r)) in
  let len := Z.of_nat (String.length int_) in
  let dotplace := exp r + len in
  let parts :=
    if (dotplace <? 0)%Z then
      ("0", zeros (Z.to_nat (- dotplace)) ++ int_)
    else if (len <? dotplace)%Z then
      (int_ ++ zeros (Z.to_nat (dotplace - len)), EmptyString)
    else
      (match take (Z.to_nat dotplace) int_ with
       | EmptyString => "0"
       | s => s
       end,
       drop (Z.to_nat dotplace) int_) in
  format_number (coef d <? 0)%Z (fst parts) (snd parts).

End PyFormat.

(** [locale_decimal] of [print_snapshot]: ['{0:,.18f}'.format(d)], the
    formatter of the three columns of the table. *)
Definition locale_decimal (d : PyDecimal.Decimal) : string := PyFormat.format_f 18 d.

(** ** Vocabulary of the effects *)

(** The world a run ends in, whether it returns or raises. *)
Definition world_of {A : Type} (r : result A) : World :=
  match r with
  | Ok _ w => w
  | Raise _ w => w
  end.

(** [w'] is [w] but for what was printed and written to files. *)
Definition same_safe (w w' : World) : Prop :=
  chain w' = chain w /\ history w' = history w
  /\ pending_transactions w' = pending_transactions w
  /\ snapshot w' = snapshot w /\ clock w' = clock w
  /\ posted w' = posted w /\ posted_signatures w' = posted_signatures w
  /\ executed w' = executed w.

(** ** The platform wrappers and [init_all]

    The classes of [great_ape_safe.ape_api] the safe can hold, one
    attribute each; [Cow] takes the flag [prod]. *)

Inductive Wrapper : Type :=
| Aave
| Anyswap
| Badger
| Compound
| Convex
| Cow (prod : bool)
| Curve
| CurveV2
| Opolis
| PancakeswapV2
| Rari
| Solidly
| SpookySwap
| Sushi
| UniV2
| UniV3.

(** The attribute of the safe an [init_] method assigns. *)
Definition attribute (w : Wrapper) : string :=
  match w with
  | Aave => "aave"
  | Anyswap => "anyswap"
  | Badger => "badger"
  | Compound => "compound"
  | Convex => "convex"
  | Cow _ => "cow"
  | Curve => "curve"
  | CurveV2 => "curve_v2"
  | Opolis => "opolis"
  | PancakeswapV2 => "pancakeswap_v2"
  | Rari => "rari"
  | Solidly => "solidly"
  | SpookySwap => "spookyswap"
  | Sushi => "sushi"
  | UniV2 => "uni_v2"
  | UniV3 => "uni_v3"
  end.

(** The [init_] methods of the class called without arguments: the
    wrapper each one builds ([init_cow] with its default [prod=False]). *)
Definition init_methods : list (string * Wrapper) :=
  [("init_aave", Aave); ("init_anyswap", Anyswap); ("init_badger", Badger);
   ("init_compound", Compound); ("init_convex", Convex); ("init_cow", Cow false);
   ("init_curve", Curve); ("init_curve_v2", CurveV2); ("init_opolis", Opolis);
   ("init_pancakeswap_v2", PancakeswapV2); ("init_rari", Rari);
   ("init_solidly", Solidly); ("init_spookyswap", SpookySwap); ("init_sushi", Sushi);
   ("init_uni_v2", UniV2); ("init_uni_v3", UniV3)].

(** The assignments of wrappers to attributes, in order. *)
Definition Attrs : Type := list (string * Wrapper).

(** What the safe is built on: the names [self.__dir__()] lists, the
    constructors of the wrappers ([None] when one returns, the exception
    otherwise: [ContractNotFound] on a chain without the platform), and
    the call of an attribute that is not a method of this class. *)
Class Api : Type := mkApi {
  dir_ : list string;
  build : Wrapper -> option exn;
  inherited : string -> option exn
}.

Section Init.

Context {A : Api}.

(** [self.<attribute> = <Wrapper>(self)]: the body of every [init_] method. *)
Definition init (w : Wrapper) (attrs : Attrs) : Attrs * option exn :=
  match build w with
  | None => ((attrs ++ [(attribute w, w)])%list, None)
  | Some e => (attrs, Some e)
  end.

Fixpoint lookup_method (name : string) (methods : list (string * Wrapper))
  : option Wrapper :=
  match methods with
  | [] => None
  | (n, w) :: rest => if String.eqb n name then Some w else lookup_method name rest
  end.

(** [getattr(self, method)()] *)
Definition call (method : string) (attrs : Attrs) : Attrs * option exn :=
  match lookup_method method init_methods with
  | Some w => init w attrs
  | None => (attrs, inherited method)
  end.

(** The test of the loop:
    [method.startswith('init_') and method != 'init_all'] *)
Definition is_init (method : string) : bool :=
  String.prefix "init_" method && negb (String.eqb method "init_all").

(** The loop of [init_all]: [ContractNotFound] is passed over, any other
    exception leaves the loop. The result is the attributes assigned and
    the exception, if one was raised. *)
Fixpoint init_loop (names : list string) (attrs : Attrs) : Attrs * option exn :=
  match names with
  | [] => (attrs, None)
  | method :: rest =>
      if is_init method then
        match call method attrs with
        | (attrs', None) => init_loop rest attrs'
        | (attrs', Some ContractNotFound) => init_loop rest attrs'
        | (attrs', Some e) => (attrs', Some e)
        end
      else init_loop rest attrs
  end.

Definition init_all (attrs : Attrs) : Attrs * option exn := init_loop dir_ attrs.

(** The wrappers whose [init_] method is among [names], in that order. *)
Definition wrappers_of (names : list string) : list Wrapper :=
  flat_map (fun name => match lookup_method name init_methods with
                        | Some w => [w]
                        | None => []
                        end) names.

(** [build w] returns. *)
Definition available (w : Wrapper) : bool :=
  match build w with
  | None => true
  | Some _ => false
  end.

End Init.

(** ** A concrete safe

    Two tokens known to brownie, one known only to the explorer, and an
    alias of the second token; a chain before and after a claim of rewards.
    The examples, witnesses and counterexamples below run on it. *)

Module Demo.

Definition eth : string := "0xEeeeeEeeeEeEeeEeEeEeeEEEeeeeEeeeeeeeEEeE".

Definition known (s : string) : option Contract :=
  if str_in s ["0xAURABAL"; "0xGRAVI"] then Some (mkContract s) else None.

Definition explorer (s : string) : option Contract :=
  if String.eqb s "0xBIG" then Some (mkContract s)
  else if String.eqb s "graviAURA" then Some (mkContract "0xGRAVI")
  else None.

Definition batch (version : string) (receipts : list TransactionReceipt) : SafeTx :=
  mkSafeTx "0xMultiSend" 0 (flat_map input receipts) 1 0 [x41; x42] 7 version.

Definition fork_preview (safe_tx : SafeTx) (events call_trace reset : bool) (ch : Chain)
  : TransactionReceipt * Chain :=
  (mkReceipt (to safe_tx) (data safe_tx) 100000 "events" "trace", ch).

Definition wallet (safe_tx : SafeTx) : list byte * SafeTx :=
  ([x1b], set_signatures safe_tx (signatures safe_tx ++ [x1b])).

(** The collaborators of a safe whose contract reports [version]. *)
Definition env (version : string) : Env :=
  mkEnv eth "ETH" "0xSafe" known explorer (batch version) fork_preview wallet.

Definition symbols (a : string) : string :=
  if String.eqb a "0xAURABAL" then "auraBAL"
  else if String.eqb a "0xGRAVI" then "graviAURA"
  else "BIG".

Definition chain_before : Chain :=
  mkChain 5000000000000000000
          (fun a => if String.eqb a "0xAURABAL" then 100
                    else if String.eqb a "0xGRAVI" then 7000000000000000000
                    else 0)
          symbols (fun _ => 18).

Definition chain_after : Chain :=
  mkChain 5000000000000000000
          (fun a => if String.eqb a "0xAURABAL" then 2600
                    else if String.eqb a "0xGRAVI" then 7000000000000000000
                    else 10 ^ 28 + 1)
          symbols (fun _ => 18).

Definition call (target : string) (payload : list byte) : TransactionReceipt :=
  mkReceipt target payload 21000 "" "".

Definition world (ch : Chain) (snap : SnapshotAttr) (pending : list SafeTx) : World :=
  mkWorld ch [call "0xAURABAL" [x01]; call "0xGRAVI" [x02; x03]] pending snap
          "20240101120000" [] [] [] [] [].

Definition tokens : list Token :=
  [TokContract (mkContract "0xAURABAL"); TokOther "graviAURA";
   TokOther "0xGRAVI"; TokOther "0xBIG"; TokOther "0xAURABAL"].

(** The frame [take_snapshot] leaves on [chain_before]. *)
Definition frame : SnapshotFrame :=
  mkFrame [eth; "0xAURABAL"; "0xGRAVI"; "0xBIG"]
          ["ETH"; "auraBAL"; "graviAURA"; "BIG"]
          [5000000000000000000; 100; 7000000000000000000; 0]
          [18; 18; 18; 18].

Definition tx_nonce (n : Z) : SafeTx :=
  mkSafeTx "0xTarget" 0 [x0a] 0 0 [] n "1.3.0".

(** A safe of version 1.1.1, before the claim with no snapshot yet and
    after it with the snapshot taken before. *)
Definition legacy : Env := env "1.1.1".

Definition w_before : World := world chain_before NoAttr [].

Definition w_after : World := world chain_after (AttrFrame frame) [].

(** The batch of the two recorded calls, and what the gas step makes of
    it on a safe of version 1.1.1 with [gas_coef=1.5]. *)
Definition batched : SafeTx :=
  mkSafeTx "0xMultiSend" 0 [x01; x02; x03] 1 0 [x41; x42] 7 "1.1.1".

Definition gassed : SafeTx :=
  mkSafeTx "0xMultiSend" 0 [x01; x02; x03] 1 189500 [] 7 "1.1.1".

(** The table printed after the claim: the native coin and graviAURA did
    not move. *)
Definition printed : DeltaFrame :=
  mkDelta ["auraBAL"; "BIG"]
          [PyDecimal.mk 1 (-16); PyDecimal.mk 0 0]
          [PyDecimal.mk 26 (-16); PyDecimal.mk 1000000000000000000000000000 (-17)]
          [PyDecimal.mk 25 (-16); PyDecimal.mk 1000000000 1].

(** Three pending transactions, the one of nonce 0 second. *)
Definition w_pending : World :=
  world chain_after NoAttr [tx_nonce 5; tx_nonce 0; tx_nonce 9].

End Demo.

(** A safe on a chain without Aave and Compound, and one whose Sushi
    wrapper fails. *)

Module DemoApi.

(** A chain without Aave and Compound; the names of [__dir__] hold the
    methods of the class among others. *)
Definition fantom : Api :=
  mkApi ["address"; "init_aave"; "init_all"; "init_cow"; "init_compound"; "init_sushi";
         "post_safe_tx"; "take_snapshot"]
        (fun w => match w with
                  | Aave | Compound => Some ContractNotFound
                  | _ => None
                  end)
        (fun _ => None).

(** The same, with a wrapper of Sushi that fails on a bad address. *)
Definition broken : Api :=
  mkApi ["init_aave"; "init_all"; "init_cow"; "init_sushi"; "init_uni_v2"]
        (fun w => match w with
                  | Aave => Some ContractNotFound
                  | Sushi => Some ValueError
                  | _ => None
                  end)
        (fun _ => None).

End DemoApi.

(** * Properties *)

(** ** Arithmetic of [Decimal] *)

Section DecimalFacts.

Import PyDecimal.
Local Open Scope Z_scope.

Lemma pow10_succ (k : Z) : 0 <= k -> 10 ^ (k + 1) = 10 * 10 ^ k.
Proof. intros. rewrite Z.pow_add_r by lia. lia. Qed.

Lemma ndigits_fuel_spec (fuel : nat) :
  forall n, 0 <= n < 10 ^ (Z.of_nat fuel + 1) ->
  1 <= ndigits_fuel fuel n /\ n < 10 ^ ndigits_fuel fuel n
  /\ (0 < n -> 10 ^ (ndigits_fuel fuel n - 1) <= n).
Proof.
  induction fuel as [|f IH]; intros n Hn.
  - cbn [ndigits_fuel]. change (Z.of_nat 0 + 1) with 1 in Hn. rewrite Z.pow_1_r in *.
    repeat split; try lia. 
  - cbn [ndigits_fuel]. destruct (Z.ltb_spec n 10) as [Hlt|Hge].
    + repeat split; try lia. 
    + assert (Hq : 0 <= n / 10 < 10 ^ (Z.of_nat f + 1)).
      { split; [apply Z.div_pos; lia|].
        apply Z.div_lt_upper_bound; [lia|].
        replace (Z.of_nat (S f) + 1) with ((Z.of_nat f + 1) + 1) in Hn by lia.
        rewrite pow10_succ in Hn by lia. lia. }
      destruct (IH _ Hq) as (H1 & H2 & H3).
      set (L := ndigits_fuel f (n / 10)) in *.
      assert (Hdiv : 10 * (n / 10) <= n < 10 * (n / 10) + 10).
      { pose proof (Z.div_mod n 10 ltac:(lia)). pose proof (Z.mod_pos_bound n 10 ltac:(lia)). lia. }
      repeat split; try lia.
      * replace (1 + L) with (L + 1) by lia. rewrite pow10_succ by lia. lia.
      * intros _. replace (1 + L - 1) with ((L - 1) + 1) by lia.
        rewrite pow10_succ by lia.
        assert (0 < n / 10) by (apply Z.div_str_pos; lia). specialize (H3 H). lia.
Qed.

Lemma ndigits_spec (n : Z) : 0 <= n ->
  1 <= ndigits n /\ n < 10 ^ ndigits n /\ (0 < n -> 10 ^ (ndigits n - 1) <= n).
Proof.
  intros Hn. unfold ndigits. apply ndigits_fuel_spec. split; [lia|].
  destruct (Z.eq_dec n 0) as [->|Hz]; [cbn; lia|].
  rewrite Z2Nat.id by apply Z.log2_nonneg.
  pose proof (Z.log2_spec n ltac:(lia)) as [_ Hup].
  eapply Z.lt_le_trans; [exact Hup|].
  replace (Z.succ (Z.log2 n)) with (Z.log2 n + 1) by lia.
  apply Z.pow_le_mono_l. lia.
Qed.

Lemma ndigits_le (n k : Z) : 0 <= n -> 1 <= k -> n < 10 ^ k -> ndigits n <= k.
Proof.
  intros Hn Hk Hlt. destruct (ndigits_spec n Hn) as (H1 & H2 & H3).
  destruct (Z.eq_dec n 0) as [->|Hz]; [cbn; lia|].
  specialize (H3 ltac:(lia)).
  destruct (Z.le_gt_cases (ndigits n) k) as [|Hgt]; [assumption|exfalso].
  assert (10 ^ k <= 10 ^ (ndigits n - 1)) by (apply Z.pow_le_mono_r; lia). lia.
Qed.

Lemma ndigits_gt (n k : Z) : 0 <= k -> 10 ^ k <= n -> k < ndigits n.
Proof.
  intros Hk Hle. assert (0 < 10 ^ k) by (apply Z.pow_pos_nonneg; lia).
  destruct (ndigits_spec n ltac:(lia)) as (H1 & H2 & H3).
  destruct (Z.lt_ge_cases k (ndigits n)) as [|Hge]; [assumption|exfalso].
  assert (10 ^ ndigits n <= 10 ^ k) by (apply Z.pow_le_mono_r; lia). lia.
Qed.

Lemma ndigits_pow10 (z : Z) : 0 <= z -> ndigits (10 ^ z) = z + 1.
Proof.
  intros Hz. assert (0 < 10 ^ z) by (apply Z.pow_pos_nonneg; lia).
  pose proof (ndigits_gt (10 ^ z) z Hz ltac:(lia)).
  assert (ndigits (10 ^ z) <= z + 1).
  { apply ndigits_le; try lia. apply Z.pow_lt_mono_r; lia. }
  lia.
Qed.

(** [_fix] leaves a coefficient of at most 28 digits as it is. *)
Lemma fix_small (d : Decimal) : Z.abs (coef d) < 10 ^ prec -> fix_ d = d.
Proof.
  intros Hlt. unfold fix_.
  destruct (Z.eqb_spec (Z.abs (coef d)) 0); [reflexivity|].
  pose proof (ndigits_le (Z.abs (coef d)) prec ltac:(lia) ltac:(unfold prec; lia) Hlt).
  destruct (Z.ltb_spec (exp d) (ndigits (Z.abs (coef d)) + exp d - prec)); [lia|reflexivity].
Qed.

(** What [_fix] returns has at most 28 digits. *)
Lemma fix_bound (d : Decimal) : Z.abs (coef (fix_ d)) < 10 ^ prec.
Proof.
  unfold fix_.
  destruct (Z.eqb_spec (Z.abs (coef d)) 0) as [H0|H0]; [rewrite H0; reflexivity|].
  set (c := Z.abs (coef d)) in *.
  assert (Hc : 0 < c) by (subst c; lia).
  destruct (ndigits_spec c ltac:(lia)) as (H1 & H2 & H3). specialize (H3 Hc).
  set (L := ndigits c) in *.
  destruct (Z.ltb_spec (exp d) (L + exp d - prec)) as [Hlong|Hshort].
  - replace (L + exp d - prec - exp d) with (L - prec) by lia.
    set (k := L - prec). assert (Hk : 0 < k) by (subst k; lia).
    assert (Hp : 0 < 10 ^ k) by (apply Z.pow_pos_nonneg; lia).
    set (q := c / 10 ^ k).
    assert (Hq : q < 10 ^ prec).
    { subst q. apply Z.div_lt_upper_bound; [lia|].
      rewrite <- Z.pow_add_r by (unfold prec; lia).
      replace (k + prec) with L by (subst k; lia). exact H2. }
    assert (Hq0 : 0 <= q) by (subst q; apply Z.div_pos; lia).
    match goal with |- context [if ?b then q + 1 else q] => set (up := b) end.
    set (q' := if up then q + 1 else q).
    assert (Hq' : 0 <= q' <= 10 ^ prec) by (subst q'; destruct up; lia).
    assert (Hs : Z.abs (Z.sgn (coef d)) = 1) by (subst c; lia).
    destruct (Z.ltb_spec prec (ndigits q')) as [Hover|Hfit]; cbn [coef].
    + rewrite Z.abs_mul, Hs, Z.mul_1_l.
      assert (0 <= q' / 10) by (apply Z.div_pos; lia).
      rewrite Z.abs_eq by assumption.
      apply Z.div_lt_upper_bound; [lia|]. 
      assert (0 < 10 ^ prec) by (apply Z.pow_pos_nonneg; unfold prec; lia). lia.
    + rewrite Z.abs_mul, Hs, Z.mul_1_l, Z.abs_eq by lia.
      destruct (Z.lt_ge_cases q' (10 ^ prec)) as [|Hge]; [assumption|exfalso].
      pose proof (ndigits_gt q' prec ltac:(unfold prec; lia) Hge). lia.
  - fold c. eapply Z.lt_le_trans; [exact H2|]. apply Z.pow_le_mono_r; lia.
Qed.

Lemma strip_zeros_spec (fuel : nat) :
  forall c e, 0 < c ->
  exists t, 0 <= t <= Z.of_nat fuel
    /\ snd (strip_zeros fuel c e) = e + t
    /\ c = fst (strip_zeros fuel c e) * 10 ^ t
    /\ 0 < fst (strip_zeros fuel c e)
    /\ (t = Z.of_nat fuel \/ fst (strip_zeros fuel c e) mod 10 <> 0).
Proof.
  induction fuel as [|f IH]; intros c e Hc.
  - exists 0. cbn. repeat split; try lia.
  - cbn [strip_zeros]. destruct (Z.eqb_spec (c mod 10) 0) as [Hm|Hm].
    + assert (Hc10 : c = 10 * (c / 10)).
      { pose proof (Z.div_mod c 10 ltac:(lia)). lia. }
      destruct (IH (c / 10) (e + 1) ltac:(lia)) as (t & Ht & He & Hcq & Hpos & Hstop).
      exists (t + 1). repeat split; try lia.
      * rewrite Z.pow_add_r by lia. rewrite Z.pow_1_r. lia.
    + exists 0. cbn [fst snd]. repeat split; try lia.
Qed.

Lemma ten_pow_shape (n : Z) :
  exists z, 0 <= z <= prec - 1 /\ ten_pow n = mk (10 ^ z) (n - z).
Proof.
  unfold ten_pow. destruct (Z.ltb_spec n 0).
  - exists 0. split; [unfold prec; lia|]. rewrite Z.sub_0_r. reflexivity.
  - exists (Z.min n (prec - 1)). split; [unfold prec in *; lia|reflexivity].
Qed.

Lemma inject_pow10 (t : Z) : 0 <= t -> inject_Z (10 ^ t) == inject_Z 10 ^ t.
Proof. intros. apply Zpower_Qpower. assumption. Qed.

Lemma ten_nonzero : ~ inject_Z 10 == 0.
Proof. discriminate. Qed.

Lemma value_scale (c e t : Z) : 0 <= t -> value (mk (c * 10 ^ t) e) == value (mk c (e + t)).
Proof.
  intros Ht. unfold value; cbn [coef exp].
  rewrite inject_Z_mult, inject_pow10 by assumption.
  rewrite (Qpower_plus _ e t ten_nonzero). ring.
Qed.

Lemma value_ten_pow (n : Z) : value (ten_pow n) == inject_Z 10 ^ n.
Proof.
  destruct (ten_pow_shape n) as (z & Hz & ->).
  replace (10 ^ z) with (1 * 10 ^ z) by lia.
  rewrite value_scale by lia. unfold value; cbn [coef exp].
  replace (n - z + z) with n by lia. ring.
Qed.

(** Division by a power of ten whose coefficient is [10^z]: exact when the
    dividend has at most 28 digits. *)
Lemma truediv_pow10 (a : Decimal) (z eb : Z) :
  Z.abs (coef a) < 10 ^ prec -> 0 <= z <= prec - 1 ->
  exists q, truediv a (mk (10 ^ z) eb) = Some q
    /\ value q == value a / inject_Z 10 ^ (eb + z)
    /\ (coef q = 0 <-> coef a = 0).
Proof.
  intros Ha Hz. unfold truediv. cbn [coef exp].
  assert (Hp : 0 < 10 ^ z) by (apply Z.pow_pos_nonneg; lia).
  rewrite (Z.abs_eq (10 ^ z)) by lia.
  destruct (Z.eqb_spec (10 ^ z) 0); [lia|].
  destruct (Z.eqb_spec (Z.abs (coef a)) 0) as [H0|H0].
  - eexists; split; [reflexivity|].
    rewrite fix_small
      by (cbn [coef Z.abs]; apply Z.pow_pos_nonneg; unfold prec; lia).
    split; [|cbn [coef]; lia].
    unfold value; cbn [coef exp]. assert (coef a = 0) as -> by lia.
    unfold Qdiv. ring.
  - set (ca := Z.abs (coef a)) in *.
    assert (Hca : 0 < ca) by (subst ca; lia).
    rewrite ndigits_pow10 by lia.
    destruct (ndigits_spec ca ltac:(lia)) as (L1 & L2 & L3).
    pose proof (ndigits_le ca prec ltac:(lia) ltac:(unfold prec; lia) Ha) as L4.
    set (L := ndigits ca) in *.
    set (shift := z + 1 - L + prec + 1).
    assert (Hshift : z + 2 <= shift) by (subst shift; lia).
    destruct (Z.leb_spec 0 shift); [|lia].
    assert (Hsplit : ca * 10 ^ shift = (ca * 10 ^ (shift - z)) * 10 ^ z).
    { rewrite <- Z.mul_assoc, <- Z.pow_add_r by lia. do 2 f_equal. lia. }
    destruct (Z.div_eucl (ca * 10 ^ shift) (10 ^ z)) as [q r] eqn:Hdiv.
    assert (Hq : q = ca * 10 ^ (shift - z)).
    { change q with (fst (q, r)). rewrite <- Hdiv. fold (Z.div (ca * 10 ^ shift) (10 ^ z)).
      rewrite Hsplit. apply Z.div_mul. lia. }
    assert (Hr : r = 0).
    { change r with (snd (q, r)). rewrite <- Hdiv. fold (Z.modulo (ca * 10 ^ shift) (10 ^ z)).
      rewrite Hsplit. apply Z.mod_mul. lia. }
    subst r. cbn [Z.eqb].
    set (e0 := exp a - eb - shift).
    replace (exp a - eb - e0) with shift by (subst e0; lia).
    assert (Hq0 : 0 < q).
    { subst q. apply Z.mul_pos_pos; [lia|]. apply Z.pow_pos_nonneg; lia. }
    destruct (strip_zeros_spec (Z.to_nat shift) q e0 Hq0) as (t & Ht & He & Hqt & Hpos & Hstop).
    rewrite Z2Nat.id in Ht, Hstop by lia.
    destruct (strip_zeros (Z.to_nat shift) q e0) as [q' e'] eqn:Hstrip.
    cbn [fst snd] in *.
    assert (Hs : Z.sgn (coef a) * Z.sgn (10 ^ z) = Z.sgn (coef a)) by lia.
    rewrite Hs.
    assert (Hsmall : q' < 10 ^ prec).
    { destruct (Z.le_gt_cases (shift - z) t) as [Hbig|Hless].
      - (* all the zeros that were shifted in are gone *)
        assert (Hca' : ca = q' * 10 ^ (t - (shift - z))).
        { assert (0 < 10 ^ (shift - z)) by (apply Z.pow_pos_nonneg; lia).
          apply (Z.mul_reg_r _ _ (10 ^ (shift - z))); [lia|].
          rewrite <- Z.mul_assoc, <- Z.pow_add_r by lia.
          replace (t - (shift - z) + (shift - z)) with t by lia. lia. }
        assert (0 < 10 ^ (t - (shift - z))) by (apply Z.pow_pos_nonneg; lia).
        nia.
      - exfalso. destruct Hstop as [Hstop|Hstop]; [lia|]. apply Hstop.
        assert (Hq'' : q' = ca * 10 ^ (shift - z - t - 1) * 10).
        { assert (0 < 10 ^ t) by (apply Z.pow_pos_nonneg; lia).
          apply (Z.mul_reg_r _ _ (10 ^ t)); [lia|].
          rewrite <- Hqt, Hq.
          rewrite <- !Z.mul_assoc. f_equal.
          replace (10 * 10 ^ t) with (10 ^ (1 + t)) by (rewrite Z.pow_add_r by lia; lia).
          rewrite <- Z.pow_add_r by lia. f_equal. lia. }
        rewrite Hq''. apply Z.mod_mul. lia. }
    eexists; split; [reflexivity|].
    assert (Habs : Z.abs (Z.sgn (coef a) * q') = q').
    { rewrite Z.abs_mul. subst ca. lia. }
    rewrite fix_small by (cbn [coef]; lia).
    split; [|cbn [coef]; subst ca; nia].
    subst e'.
    rewrite <- value_scale by lia.
    replace (Z.sgn (coef a) * q' * 10 ^ t) with (coef a * 10 ^ (shift - z)).
    2:{ rewrite <- Z.mul_assoc, <- Hqt, Hq. subst ca.
        rewrite Z.mul_assoc. f_equal. lia. }
    rewrite value_scale by lia.
    unfold value; cbn [coef exp]. subst e0.
    replace (exp a - eb - shift + (shift - z)) with (exp a + - (eb + z)) by lia.
    rewrite (Qpower_plus _ _ _ ten_nonzero), Qpower_opp. unfold Qdiv. ring.
Qed.

Lemma fix_nonzero (d : Decimal) : coef (fix_ d) = 0 <-> coef d = 0.
Proof.
  unfold fix_.
  destruct (Z.eqb_spec (Z.abs (coef d)) 0) as [H0|H0]; [tauto|].
  set (c := Z.abs (coef d)) in *.
  assert (Hc : 0 < c) by (subst c; lia).
  destruct (ndigits_spec c ltac:(lia)) as (H1 & H2 & H3). specialize (H3 Hc).
  set (L := ndigits c) in *.
  destruct (Z.ltb_spec (exp d) (L + exp d - prec)) as [Hlong|Hshort]; [|tauto].
  replace (L + exp d - prec - exp d) with (L - prec) by lia.
  set (k := L - prec). assert (Hk : 0 < k) by (subst k; lia).
  assert (Hp : 0 < 10 ^ k) by (apply Z.pow_pos_nonneg; lia).
  set (q := c / 10 ^ k).
  assert (Hq : 1 <= q).
  { subst q. apply Z.div_le_lower_bound; [lia|].
    eapply Z.le_trans; [|exact H3]. rewrite Z.mul_1_r.
    apply Z.pow_le_mono_r; unfold prec in *; lia. }
  match goal with |- context [if ?b then q + 1 else q] => set (up := b) end.
  set (q' := if up then q + 1 else q).
  assert (Hq' : 1 <= q') by (subst q'; destruct up; lia).
  assert (Hs : Z.sgn (coef d) <> 0) by (subst c; lia).
  destruct (Z.ltb_spec prec (ndigits q')) as [Hover|Hfit]; cbn [coef].
  - assert (10 <= q').
    { destruct (Z.lt_ge_cases q' 10) as [Hlt|]; [|assumption].
      pose proof (ndigits_le q' 1 ltac:(lia) ltac:(lia) ltac:(rewrite Z.pow_1_r; lia)).
      unfold prec in *. lia. }
    assert (1 <= q' / 10) by (apply Z.div_le_lower_bound; lia).
    split; [nia|]. intros. subst c. lia.
  - split; [nia|]. intros. subst c. lia.
Qed.

Lemma sub_of_int (a b : Z) : sub (of_int a) (of_int b) = fix_ (of_int (a - b)).
Proof.
  unfold sub, of_int; cbn [coef exp]. rewrite Z.min_id, Z.sub_diag, Z.pow_0_r.
  rewrite !Z.mul_1_r. reflexivity.
Qed.

Lemma truediv_some (a b : Decimal) : coef b <> 0 -> exists q, truediv a b = Some q.
Proof.
  intros Hb. unfold truediv.
  destruct (Z.eqb_spec (Z.abs (coef b)) 0); [lia|].
  destruct (Z.abs (coef a) =? 0); [eexists; reflexivity|].
  destruct (0 <=? _); destruct (Z.div_eucl _ _) as [q r];
    destruct (r =? 0); try destruct (strip_zeros _ _ _); eexists; reflexivity.
Qed.

Lemma ten_pow_nonzero (n : Z) : coef (ten_pow n) <> 0.
Proof.
  destruct (ten_pow_shape n) as (z & Hz & ->). cbn [coef].
  assert (0 < 10 ^ z) by (apply Z.pow_pos_nonneg; lia). lia.
Qed.

Lemma value_of_int (n : Z) : value (of_int n) == inject_Z n.
Proof. unfold value, of_int; cbn [coef exp]. cbn [Qpower]. ring. Qed.

(** One cell of [df['balance_delta']]. *)
Lemma delta_cell (after before dec : Z) :
  exists delta,
    truediv (sub (of_int after) (of_int before)) (ten_pow dec) = Some delta
    /\ value delta == value (fix_ (of_int (after - before))) / inject_Z 10 ^ dec
    /\ (Z.abs (after - before) < 10 ^ prec ->
        value delta == inject_Z (after - before) / inject_Z 10 ^ dec)
    /\ (nonzero delta = true <-> after <> before).
Proof.
  rewrite sub_of_int.
  destruct (ten_pow_shape dec) as (z & Hz & ->).
  destruct (truediv_pow10 (fix_ (of_int (after - before))) z (dec - z)
              (fix_bound _) Hz) as (q & Hq & Hv & Hzero).
  replace (dec - z + z) with dec in Hv by lia.
  exists q. split; [exact Hq|]. split; [exact Hv|]. split.
  - intros Hsmall. rewrite Hv, fix_small by (cbn [coef of_int]; exact Hsmall).
    rewrite value_of_int. reflexivity.
  - unfold nonzero. rewrite negb_true_iff, Z.eqb_neq, Hzero, fix_nonzero.
    cbn [coef of_int]. lia.
Qed.

End DecimalFacts.

(** ** The snapshot *)

Section SnapshotFacts.

Context {E : Env}.

Lemma str_in_spec (x : string) (l : list string) : str_in x l = true <-> In x l.
Proof.
  unfold str_in. rewrite existsb_exists. split.
  - intros (y & Hy & Heq). apply String.eqb_eq in Heq. subst. assumption.
  - intros H. exists x. split; [assumption|apply String.eqb_refl].
Qed.

Lemma to_contract_resolvable (token : Token) :
  resolvable token = true -> exists c, forall w, to_contract token w = Ok c w.
Proof.
  destruct token as [c|s]; cbn.
  - eexists; reflexivity.
  - destruct (Contract_ s); [eexists; reflexivity|].
    destruct (from_explorer s); [eexists; reflexivity|discriminate].
Qed.

Lemma to_contract_pure (token : Token) (w w' : World) (c : Contract) :
  to_contract token w = Ok c w' -> w' = w /\ resolvable token = true.
Proof.
  destruct token as [c0|s]; cbn.
  - intros [= _ ->]. auto.
  - destruct (Contract_ s); [intros [= _ ->]; auto|].
    destruct (from_explorer s); [intros [= _ ->]; auto|discriminate].
Qed.

Lemma snapshot_append_keeps (ch : Chain) (df : SnapshotFrame) (c : Contract) :
  hd_error (address df) = Some ETH_ADDRESS -> NoDup (address df) -> snapshot_of ch df ->
  hd_error (address (snapshot_append ch df c)) = Some ETH_ADDRESS
  /\ NoDup (address (snapshot_append ch df c))
  /\ snapshot_of ch (snapshot_append ch df c).
Proof.
  intros Hhd Hnd (Hs & Hm & Hd). unfold snapshot_append.
  destruct (str_in (c_address c) (address df)) eqn:Hin; cbn [negb].
  - repeat split; assumption.
  - assert (Hnotin : ~ In (c_address c) (address df)).
    { rewrite <- str_in_spec, Hin. discriminate. }
    assert (Hne : String.eqb (c_address c) ETH_ADDRESS = false).
    { apply String.eqb_neq. intros Heq. apply Hnotin. rewrite Heq.
      destruct (address df); [discriminate|]. injection Hhd as ->. left; reflexivity. }
    cbn [address symbol mantissa_before decimals]. split; [|split].
    + destruct (address df); [discriminate|assumption].
    + apply NoDup_rev in Hnd. rewrite <- (rev_involutive (_ ++ _)).
      apply NoDup_rev. rewrite rev_app_distr. cbn. constructor; [|assumption].
      rewrite <- In_rev. assumption.
    + unfold snapshot_of; cbn [address symbol mantissa_before decimals].
      rewrite !map_app, <- Hs, <- Hm, <- Hd. cbn [map].
      unfold read_symbol, read_balance, read_decimals. rewrite Hne. auto.
Qed.

Lemma snapshot_loop_ok (tokens : list Token) :
  forall (df : SnapshotFrame) (w : World),
  forallb resolvable tokens = true ->
  hd_error (address df) = Some ETH_ADDRESS -> NoDup (address df) ->
  snapshot_of (chain w) df ->
  exists df', snapshot_loop tokens df w = Ok df' w
    /\ hd_error (address df') = Some ETH_ADDRESS
    /\ NoDup (address df')
    /\ snapshot_of (chain w) df'.
Proof.
  induction tokens as [|token rest IH]; intros df w Hres Hhd Hnd Hof.
  - exists df. auto.
  - cbn [forallb] in Hres. apply andb_true_iff in Hres as [Hr Hrest].
    destruct (to_contract_resolvable token Hr) as (c & Hc).
    cbn [snapshot_loop]. unfold bind at 1. rewrite Hc. unfold bind, gets.
    destruct (snapshot_append_keeps (chain w) df c Hhd Hnd Hof) as (H1 & H2 & H3).
    apply IH; assumption.
Qed.

Lemma snapshot_loop_inv (tokens : list Token) :
  forall (df df' : SnapshotFrame) (w w' : World),
  snapshot_loop tokens df w = Ok df' w' ->
  w' = w /\ forallb resolvable tokens = true.
Proof.
  induction tokens as [|token rest IH]; intros df df' w w'.
  - cbn. intros [= _ ->]. auto.
  - cbn [snapshot_loop forallb]. unfold bind at 1.
    destruct (to_contract token w) as [c w1|e w1] eqn:Hc; [|discriminate].
    apply to_contract_pure in Hc as [-> Hr]. unfold bind, gets.
    intros Hloop. apply IH in Hloop as [-> Hrest]. rewrite Hr, Hrest. auto.
Qed.

Lemma take_snapshot_ok (tokens : list Token) (w : World) :
  forallb resolvable tokens = true ->
  exists snap, take_snapshot tokens w = Ok tt (snapped w snap)
    /\ hd_error (address snap) = Some ETH_ADDRESS
    /\ NoDup (address snap)
    /\ snapshot_of (chain w) snap.
Proof.
  intros Hres. unfold take_snapshot, emit, modify, gets, bind.
  set (w1 := with_stdout w _).
  destruct (snapshot_loop_ok tokens
              (mkFrame [ETH_ADDRESS] [native_label] [account_balance (chain w1)] [18%Z])
              w1 Hres) as (snap & Hrun & Hhd & Hnd & Hof).
  - reflexivity.
  - cbn. constructor; [intros []|constructor].
  - unfold snapshot_of, read_symbol, read_balance, read_decimals. cbn.
    rewrite String.eqb_refl. auto.
  - exists snap. rewrite Hrun. auto.
Qed.

Lemma take_snapshot_inv (tokens : list Token) (w w' : World) (u : unit) :
  take_snapshot tokens w = Ok u w' -> forallb resolvable tokens = true.
Proof.
  unfold take_snapshot, emit, modify, gets, bind.
  destruct (snapshot_loop _ _ _) as [df w1|e w1] eqn:Hloop; [|discriminate].
  intros _. apply snapshot_loop_inv in Hloop. tauto.
Qed.

Lemma at_set_col_state (ch : Chain) (seen idx : list string) (a : string) :
  at_set idx (col_state ch seen idx) a (read_balance ch a) = col_state ch (a :: seen) idx.
Proof.
  unfold col_state. induction idx as [|i idx IH]; [reflexivity|].
  cbn [map at_set]. rewrite IH. f_equal.
  unfold str_in at 2. cbn [existsb]. fold (str_in i seen).
  destruct (String.eqb_spec i a) as [->|Hne]; reflexivity.
Qed.

Lemma self_resolving_to_contract (a : string) :
  self_resolving a = true ->
  exists c, c_address c = a /\ forall w, to_contract (TokOther a) w = Ok c w.
Proof.
  unfold self_resolving. cbn [to_contract].
  destruct (Contract_ a) as [c|].
  - intros H. apply String.eqb_eq in H. exists c. auto.
  - destruct (from_explorer a) as [c|]; [|discriminate].
    intros H. apply String.eqb_eq in H. exists c. auto.
Qed.

Lemma fill_after_ok (idx : list string) (w : World) (todo : list string) :
  forall seen,
  printable todo = true -> (forall a, In a todo -> In a idx) ->
  fill_after todo idx (col_state (chain w) seen idx) false w
  = Ok (col_state (chain w) (rev todo ++ seen) idx, false) w.
Proof.
  induction todo as [|token rest IH]; intros seen Hp Hsub; [reflexivity|].
  cbn [printable forallb] in Hp. apply andb_true_iff in Hp as [Htok Hrest].
  cbn [fill_after rev]. rewrite <- app_assoc. cbn [app].
  destruct (String.eqb token ETH_ADDRESS) eqn:Heth.
  - unfold bind, gets.
    replace (account_balance (chain w)) with (read_balance (chain w) token)
      by (unfold read_balance; rewrite Heth; reflexivity).
    rewrite at_set_col_state. apply IH; [exact Hrest|].
    intros a Ha. apply Hsub. right. exact Ha.
  - cbn [orb] in Htok.
    destruct (self_resolving_to_contract token Htok) as (c & Haddr & Hc).
    unfold bind at 1. rewrite Hc. unfold bind, gets. rewrite Haddr.
    replace (call_balanceOf (chain w) token) with (read_balance (chain w) token)
      by (unfold read_balance; rewrite Heth; reflexivity).
    rewrite at_set_col_state.
    assert (Hin : str_in token idx = true).
    { apply str_in_spec. apply Hsub. left. reflexivity. }
    rewrite Hin. cbn [negb orb]. apply IH; [exact Hrest|].
    intros a Ha. apply Hsub. right. exact Ha.
Qed.

Lemma cells_some {A : Type} (l : list A) : cells (map Some l) = Some l.
Proof. induction l as [|x l IH]; [reflexivity|]. cbn. rewrite IH. reflexivity. Qed.

Lemma col_state_full (ch : Chain) (idx : list string) :
  col_state ch (rev idx ++ []) idx = map Some (map (read_balance ch) idx).
Proof.
  unfold col_state. rewrite map_map. apply map_ext_in. intros a Ha.
  assert (Hin : str_in a (rev idx ++ []) = true).
  { apply str_in_spec. rewrite app_nil_r, <- In_rev. exact Ha. }
  rewrite Hin. reflexivity.
Qed.

Lemma cells_forall2 {A B : Type} (f : A -> option B) (l : list A) (ys : list B) :
  cells (map f l) = Some ys -> Forall2 (fun x y => f x = Some y) l ys.
Proof.
  revert ys. induction l as [|x l IH]; intros ys; cbn.
  - intros [= <-]. constructor.
  - destruct (f x) as [y|] eqn:Hx; [|discriminate].
    destruct (cells (map f l)) as [ys'|]; [|discriminate].
    cbn. intros [= <-]. constructor; [exact Hx|]. apply IH. reflexivity.
Qed.

Lemma cells_total {A B : Type} (f : A -> option B) (l : list A) :
  (forall x, In x l -> exists y, f x = Some y) -> exists ys, cells (map f l) = Some ys.
Proof.
  induction l as [|x l IH]; intros H; [eexists; reflexivity|].
  cbn. destruct (H x (or_introl eq_refl)) as (y & ->).
  destruct IH as (ys & ->); [intros; apply H; right; assumption|].
  eexists; reflexivity.
Qed.

Lemma col_truediv_total (xs : list PyDecimal.Decimal) (ds : list Z) :
  exists qs, col_truediv xs (map PyDecimal.ten_pow ds) = Some qs.
Proof.
  unfold col_truediv. apply cells_total. intros [x d] Hin.
  apply in_combine_r in Hin. apply in_map_iff in Hin as (n & <- & _).
  cbn [fst snd]. apply truediv_some, ten_pow_nonzero.
Qed.

Lemma calc_deltas_some (snap : SnapshotFrame) (mantissa_after : list Z) :
  exists deltas df,
    balance_delta_column snap mantissa_after = Some deltas
    /\ calc_deltas snap mantissa_after = Some df
    /\ index df = select (map PyDecimal.nonzero deltas) (symbol snap)
    /\ balance_delta df = select (map PyDecimal.nonzero deltas) deltas.
Proof.
  unfold calc_deltas, balance_delta_column, scale_column.
  destruct (col_truediv_total (map PyDecimal.of_int (mantissa_before snap)) (decimals snap))
    as (bb & ->).
  destruct (col_truediv_total (map PyDecimal.of_int mantissa_after) (decimals snap))
    as (ba & ->).
  destruct (col_truediv_total
              (col_sub (map PyDecimal.of_int mantissa_after)
                       (map PyDecimal.of_int (mantissa_before snap)))
              (decimals snap)) as (bd & ->).
  exists bd. eexists. repeat split.
Qed.

Lemma print_snapshot_ok (csv_destination : option string) (w : World) (snap : SnapshotFrame) :
  snapshot w = AttrFrame snap -> printable (address snap) = true ->
  print_snapshot csv_destination w = Ok tt (print_effect csv_destination w).
Proof.
  intros Hsnap Hp.
  destruct (calc_deltas_some snap (map (read_balance (chain w)) (address snap)))
    as (deltas & df & _ & Hcalc & _).
  unfold print_snapshot. unfold bind at 1. unfold gets at 1. rewrite Hsnap.
  unfold bind at 1.
  change (map (fun _ : string => None) (address snap))
    with (col_state (chain w) [] (address snap)).
  rewrite (fill_after_ok (address snap) w (address snap) [] Hp (fun a H => H)).
  cbn [fst snd]. rewrite col_state_full, cells_some, Hcalc.
  unfold print_effect, csv_files, snapshot_lines, printed_frame. rewrite Hsnap, Hcalc.
  unfold write_file, emit, modify, bind, ret.
  destruct csv_destination as [path|]; [destruct (truthy_str (Some path))|];
    destruct w; unfold with_stdout, with_files; cbn;
    rewrite <- ?app_assoc, ?app_nil_r; reflexivity.
Qed.

(** [if hasattr(self, 'snapshot'): self.print_snapshot(csv_destination)] *)
Lemma print_step_ok (csv_destination : option string) (w : World) :
  snapshot_ready w = true ->
  (has <- hasattr_snapshot ;;
   if has then print_snapshot csv_destination else ret tt) w
  = Ok tt (print_effect csv_destination w).
Proof.
  unfold snapshot_ready. intros Hready. unfold bind, hasattr_snapshot, gets.
  destruct (snapshot w) as [| |snap] eqn:Hsnap; [|discriminate|].
  - unfold print_effect, csv_files, snapshot_lines, printed_frame. rewrite Hsnap.
    destruct w; unfold ret, with_stdout, with_files; cbn. rewrite !app_nil_r. reflexivity.
  - apply print_snapshot_ok with (snap := snap); assumption.
Qed.

Lemma select_filter {A : Type} (f : A -> bool) (l : list A) :
  select (map f l) l = filter f l.
Proof.
  induction l as [|x l IH]; [reflexivity|]. cbn. rewrite IH. reflexivity.
Qed.

Lemma combine_select {A B : Type} (mask : list bool) :
  forall (xs : list A) (ys : list B),
  combine (select mask xs) (select mask ys) = select mask (combine xs ys).
Proof.
  induction mask as [|m mask IH]; intros xs ys; [reflexivity|].
  destruct xs as [|x xs]; destruct ys as [|y ys]; cbn [select combine].
  - destruct m; reflexivity.
  - destruct m; [|reflexivity]. reflexivity.
  - destruct m.
    + destruct (select mask xs); reflexivity.
    + destruct (select mask xs); reflexivity.
  - destruct m; cbn [combine]; rewrite IH; reflexivity.
Qed.

Lemma select_combine_filter {A B : Type} (f : B -> bool) :
  forall (xs : list A) (ys : list B),
  select (map f ys) (combine xs ys) = filter (fun r => f (snd r)) (combine xs ys).
Proof.
  induction xs as [|x xs IH]; intros ys.
  - cbn. destruct (map f ys); reflexivity.
  - destruct ys as [|y ys]; [reflexivity|]. cbn. rewrite IH. reflexivity.
Qed.

Lemma combine_map_same {A B C : Type} (f : A -> B) (g : A -> C) (l : list A) :
  combine (map f l) (map g l) = map (fun x => (f x, g x)) l.
Proof. induction l as [|x l IH]; [reflexivity|]. cbn. rewrite IH. reflexivity. Qed.

(** The delta column of a snapshot of [ch0], read again on [ch1]: one cell
    per address. *)
Lemma balance_delta_cells (ch0 ch1 : Chain) (snap : SnapshotFrame)
  (deltas : list PyDecimal.Decimal) :
  snapshot_of ch0 snap ->
  balance_delta_column snap (map (read_balance ch1) (address snap)) = Some deltas ->
  Forall2 (fun a delta =>
             PyDecimal.truediv
               (PyDecimal.sub (PyDecimal.of_int (read_balance ch1 a))
                              (PyDecimal.of_int (read_balance ch0 a)))
               (PyDecimal.ten_pow (read_decimals ch0 a)) = Some delta)
          (address snap) deltas.
Proof.
  intros (_ & Hm & Hd). unfold balance_delta_column, scale_column, col_truediv, col_sub.
  rewrite Hm, Hd, !map_map.
  rewrite (combine_map_same (fun a => PyDecimal.of_int (read_balance ch1 a))
                            (fun a => PyDecimal.of_int (read_balance ch0 a))).
  rewrite map_map. cbn [fst snd].
  rewrite (combine_map_same
             (fun a => PyDecimal.sub (PyDecimal.of_int (read_balance ch1 a))
                                     (PyDecimal.of_int (read_balance ch0 a)))
             (fun a => PyDecimal.ten_pow (read_decimals ch0 a))).
  rewrite map_map. cbn [fst snd]. apply cells_forall2.
Qed.

Lemma snapshot_of_well_formed (ch : Chain) (snap : SnapshotFrame) :
  snapshot_of ch snap -> well_formed snap.
Proof.
  intros (Hs & Hm & Hd). unfold well_formed. rewrite Hs, Hm, Hd, !length_map. auto.
Qed.

Lemma cells_length {A : Type} (col : list (option A)) (ys : list A) :
  cells col = Some ys -> List.length ys = List.length col.
Proof.
  revert ys. induction col as [|c col IH]; intros ys; cbn.
  - intros [= <-]. reflexivity.
  - destruct c as [x|]; [|discriminate].
    destruct (cells col) as [ys'|]; [|discriminate]. cbn. intros [= <-].
    cbn. rewrite (IH ys' eq_refl). reflexivity.
Qed.

Lemma balance_delta_length (snap : SnapshotFrame) (mantissa_after : list Z)
  (deltas : list PyDecimal.Decimal) :
  well_formed snap -> List.length mantissa_after = List.length (address snap) ->
  balance_delta_column snap mantissa_after = Some deltas ->
  List.length deltas = List.length (address snap).
Proof.
  intros (Hs & Hm & Hd) Ha. unfold balance_delta_column, scale_column, col_truediv, col_sub.
  intros Hc. apply cells_length in Hc. rewrite Hc.
  rewrite !length_map, !length_combine, !length_map, !length_combine, !length_map. lia.
Qed.

(** C9. When every token can be turned into a contract, [take_snapshot]
    returns and stores a frame whose first row is the native coin
    ([ETH_ADDRESS], with the native balance of the safe) and whose
    addresses are pairwise distinct, whatever duplicates [tokens] holds. *)
Theorem take_snapshot_distinct (tokens : list Token) (w : World) :
  forallb resolvable tokens = true ->
  exists snap,
    take_snapshot tokens w = Ok tt (snapped w snap)
    /\ snapshot (snapped w snap) = AttrFrame snap
    /\ hd_error (address snap) = Some ETH_ADDRESS
    /\ hd_error (mantissa_before snap) = Some (account_balance (chain w))
    /\ NoDup (address snap).
Proof.
  intros Hres.
  destruct (take_snapshot_ok tokens w Hres) as (snap & Hrun & Hhd & Hnd & Hof).
  exists snap. repeat split; try assumption.
  destruct Hof as (_ & Hm & _). rewrite Hm.
  destruct (address snap) as [|a rest]; [discriminate|].
  injection Hhd as ->. cbn. unfold read_balance. rewrite String.eqb_refl. reflexivity.
Qed.

(** C4, as amended. For every row of a snapshot taken by [take_snapshot]
    on the chain of [w0] and printed on the chain of [w], [print_snapshot]
    returns, and the delta it computes is the difference of the two
    balances rounded to 28 significant digits (half to even), divided by
    [10^decimals]; it is the exact quotient whenever the difference has at
    most 28 digits. The table it prints holds the deltas that are not zero. *)
Theorem print_snapshot_delta (tokens : list Token) (w0 w1 w : World)
  (csv_destination : option string) (snap : SnapshotFrame) :
  take_snapshot tokens w0 = Ok tt w1 ->
  snapshot w1 = AttrFrame snap ->
  snapshot w = AttrFrame snap ->
  printable (address snap) = true ->
  exists deltas df,
    print_snapshot csv_destination w = Ok tt (print_effect csv_destination w)
    /\ balance_delta_column snap (map (read_balance (chain w)) (address snap)) = Some deltas
    /\ printed_frame w = Some df
    /\ balance_delta df = filter PyDecimal.nonzero deltas
    /\ Forall2
         (fun a delta =>
            let diff := read_balance (chain w) a - read_balance (chain w0) a in
            let scale := (inject_Z 10 ^ read_decimals (chain w0) a)%Q in
            (PyDecimal.value delta
             == PyDecimal.value (PyDecimal.fix_ (PyDecimal.of_int diff)) / scale)%Q
            /\ (Z.abs diff < 10 ^ PyDecimal.prec ->
                (PyDecimal.value delta == inject_Z diff / scale)%Q))
         (address snap) deltas.
Proof.
  intros Htake Hsnap1 Hsnap Hprint.
  assert (Hof : snapshot_of (chain w0) snap).
  { pose proof (take_snapshot_inv tokens w0 w1 tt Htake) as Hres.
    destruct (take_snapshot_ok tokens w0 Hres) as (snap' & Hrun & _ & _ & Hof).
    rewrite Hrun in Htake. injection Htake as <-.
    cbn in Hsnap1. injection Hsnap1 as <-. exact Hof. }
  destruct (calc_deltas_some snap (map (read_balance (chain w)) (address snap)))
    as (deltas & df & Hcol & Hcalc & _ & Hbd).
  exists deltas, df. split; [apply print_snapshot_ok with (snap := snap); assumption|].
  split; [exact Hcol|]. split; [unfold printed_frame; rewrite Hsnap; exact Hcalc|].
  split; [rewrite Hbd; apply select_filter|].
  pose proof (balance_delta_cells (chain w0) (chain w) snap deltas Hof Hcol) as Hcells.
  eapply Forall2_impl; [|exact Hcells]. cbn beta. intros a delta Hcell.
  destruct (delta_cell (read_balance (chain w) a) (read_balance (chain w0) a)
                       (read_decimals (chain w0) a)) as (delta' & Hd' & Hround & Hexact & _).
  rewrite Hd' in Hcell. injection Hcell as <-. split; assumption.
Qed.

(** C5. With a destination given, [print_snapshot] returns and writes one
    CSV file there, with the header [token, claimable_amount] and one row,
    symbol and delta, for each row of the snapshot whose delta is not zero,
    in the order of the snapshot; the printed table holds the same rows. *)
Theorem print_snapshot_csv (path : string) (w : World) (snap : SnapshotFrame) :
  path <> "" ->
  snapshot w = AttrFrame snap ->
  well_formed snap ->
  printable (address snap) = true ->
  exists deltas df w',
    print_snapshot (Some path) w = Ok tt w'
    /\ balance_delta_column snap (map (read_balance (chain w)) (address snap)) = Some deltas
    /\ List.length (combine (symbol snap) deltas) = List.length (address snap)
    /\ files w' = (files w ++ [(path, CsvFile ["token"; "claimable_amount"]
                                      (filter (fun row => PyDecimal.nonzero (snd row))
                                              (combine (symbol snap) deltas)))])%list
    /\ stdout w' = (stdout w ++ [OText ("snapshot result for " ++ self_address ++ ":");
                                 OTable df])%list
    /\ combine (index df) (balance_delta df)
       = filter (fun row => PyDecimal.nonzero (snd row)) (combine (symbol snap) deltas).
Proof.
  intros Hpath Hsnap Hwf Hprint.
  destruct (calc_deltas_some snap (map (read_balance (chain w)) (address snap)))
    as (deltas & df & Hcol & Hcalc & Hidx & Hbd).
  assert (Hrows : combine (index df) (balance_delta df)
                  = filter (fun row => PyDecimal.nonzero (snd row))
                           (combine (symbol snap) deltas)).
  { rewrite Hidx, Hbd, combine_select. apply select_combine_filter. }
  assert (Htruthy : truthy_str (Some path) = true).
  { destruct path; [contradiction|reflexivity]. }
  exists deltas, df, (print_effect (Some path) w).
  split; [apply print_snapshot_ok with (snap := snap); assumption|].
  split; [exact Hcol|]. split.
  { rewrite length_combine.
    rewrite (balance_delta_length snap _ deltas Hwf (length_map _ _) Hcol).
    destruct Hwf as (Hs & _). lia. }
  unfold print_effect, csv_files, snapshot_lines, printed_frame.
  rewrite Hsnap, Hcalc, Htruthy, Hrows. cbn [files stdout with_stdout with_files].
  auto.
Qed.

End SnapshotFacts.

(** ** The gas estimate and the posting *)

Section PostFacts.

Context {E : Env}.

Lemma bind_emit {A : Type} (o : Out) (k : M A) (w : World) :
  (emit o ;; k) w = k (with_stdout w (stdout w ++ [o])).
Proof. reflexivity. Qed.

Lemma csv_files_none (w : World) : csv_files None w = [].
Proof. unfold csv_files. destruct (printed_frame w); reflexivity. Qed.

Lemma dump_log_ok (safe_tx : SafeTx) (receipt : TransactionReceipt) (name : string)
  (w : World) :
  snapshot_ready w = true ->
  _dump_log safe_tx receipt name w
  = Ok tt (with_files w (files w ++ [(log_path (clock w) name,
                                      LogFile (log_lines safe_tx receipt w))])).
Proof.
  intros Hready. unfold _dump_log. unfold bind at 1. unfold redirect_stdout.
  rewrite !bind_emit. rewrite print_step_ok by exact Hready.
  unfold bind, gets, write_file, modify, print_effect. rewrite csv_files_none.
  unfold log_lines, log_path, snapshot_lines, printed_frame.
  destruct w as [w_chain w_history w_pending w_snapshot w_clock w_stdout w_files
                 w_posted w_sigs w_executed].
  cbn [with_files with_stdout chain snapshot clock stdout files].
  rewrite app_nil_r. reflexivity.
Qed.

Lemma set_safe_tx_gas_inv (safe_tx safe_tx' : SafeTx) (events call_trace reset : bool)
  (log_name : option string) (gas_coef : PyNum.number) (w w' : World) :
  _set_safe_tx_gas safe_tx events call_trace reset log_name gas_coef w = Ok safe_tx' w' ->
  gas_step safe_tx (fst (preview safe_tx events call_trace reset (chain w))) gas_coef
  = inr safe_tx'.
Proof.
  unfold _set_safe_tx_gas, gas_step. unfold bind at 1.
  destruct (legacy_version (_safe_version safe_tx)) as [e|legacy]; [discriminate|].
  cbn [lift]. unfold ret at 1. unfold bind at 1.
  destruct legacy.
  - unfold bind at 1. unfold run_preview.
    destruct (preview safe_tx events call_trace reset (chain w)) as [receipt ch].
    cbn [fst]. unfold bind at 1.
    destruct (PyNum.int_mul gas_coef (legacy_gas (gas_used receipt))) as [e|scaled];
      [discriminate|].
    cbn [lift]. unfold ret at 1 2. cbn [fst snd].
    unfold bind. destruct (if truthy_str log_name then _ else _) as [u w1|e w1];
      [|discriminate].
    intros [= <- _]. reflexivity.
  - unfold bind at 1. unfold run_preview.
    destruct (preview safe_tx events call_trace reset (chain w)) as [receipt ch].
    unfold ret at 1. cbn [fst snd].
    unfold bind. destruct (if truthy_str log_name then _ else _) as [u w1|e w1];
      [|discriminate].
    intros [= <- _]. reflexivity.
Qed.

Lemma set_safe_tx_gas_ok (safe_tx safe_tx' : SafeTx) (events call_trace reset : bool)
  (log_name : option string) (gas_coef : PyNum.number) (w : World) :
  gas_step safe_tx (fst (preview safe_tx events call_trace reset (chain w))) gas_coef
  = inr safe_tx' ->
  snapshot_ready w = true ->
  _set_safe_tx_gas safe_tx events call_trace reset log_name gas_coef w
  = Ok safe_tx'
       (log_effect log_name safe_tx'
          (fst (preview safe_tx events call_trace reset (chain w)))
          (with_chain w (snd (preview safe_tx events call_trace reset (chain w))))).
Proof.
  unfold _set_safe_tx_gas, gas_step. intros Hstep Hready. unfold bind at 1.
  destruct (legacy_version (_safe_version safe_tx)) as [e|legacy]; [discriminate|].
  cbn [lift]. unfold ret at 1. unfold bind at 1.
  assert (Hlog : forall tx r w1, snapshot_ready w1 = true ->
            (if truthy_str log_name
             then _dump_log tx r (match log_name with Some n => n | None => "" end)
             else ret tt) w1 = Ok tt (log_effect log_name tx r w1)).
  { intros tx r w1 Hr. unfold log_effect. destruct log_name as [name|]; [|reflexivity].
    destruct (truthy_str (Some name)); [|reflexivity]. apply dump_log_ok. exact Hr. }
  destruct legacy.
  - unfold bind at 1. unfold run_preview.
    destruct (preview safe_tx events call_trace reset (chain w)) as [receipt ch].
    cbn [fst snd] in *. unfold bind at 1.
    destruct (PyNum.int_mul gas_coef (legacy_gas (gas_used receipt))) as [e|scaled];
      [discriminate|].
    injection Hstep as <-.
    cbn [lift]. unfold ret at 1 2. cbn [fst snd].
    unfold bind. rewrite Hlog by exact Hready. reflexivity.
  - unfold bind at 1. unfold run_preview.
    destruct (preview safe_tx events call_trace reset (chain w)) as [receipt ch].
    cbn [fst snd] in *. injection Hstep as <-.
    unfold ret at 1. cbn [fst snd].
    unfold bind. rewrite Hlog by exact Hready. reflexivity.
Qed.


Lemma log_effect_keeps (log_name : option string) (safe_tx : SafeTx)
  (receipt : TransactionReceipt) (w : World) :
  let w' := log_effect log_name safe_tx receipt w in
  snapshot w' = snapshot w /\ chain w' = chain w /\ stdout w' = stdout w
  /\ posted w' = posted w /\ history w' = history w.
Proof.
  unfold log_effect. destruct log_name as [name|]; [|cbn; auto].
  destruct (truthy_str (Some name)); cbn; auto.
Qed.

Lemma estimated_world_ready (skip_preview events call_trace reset : bool)
  (log_name : option string) (safe_tx : SafeTx) (w : World) :
  snapshot_ready (estimated_world skip_preview events call_trace reset log_name safe_tx w)
  = snapshot_ready w.
Proof.
  unfold estimated_world, snapshot_ready. destruct skip_preview; [reflexivity|].
  destruct (log_effect_keeps log_name safe_tx
              (fst (preview (multisend_from_receipts (history w)) events call_trace reset (chain w)))
              (with_chain w (snd (preview (multisend_from_receipts (history w)) events
                                          call_trace reset (chain w)))))
    as (-> & _). reflexivity.
Qed.

Lemma post_safe_tx_ok (skip_preview events call_trace reset silent post : bool)
  (replace_nonce : option Z) (log_name csv_destination : option string)
  (gas_coef : PyNum.number) (w : World) (safe_tx : SafeTx) :
  estimated skip_preview events call_trace reset gas_coef w = inr safe_tx ->
  snapshot_ready w = true ->
  post_safe_tx skip_preview events call_trace reset silent post replace_nonce
               log_name csv_destination gas_coef w
  = Ok (nonce_step replace_nonce safe_tx)
       (posted_world skip_preview events call_trace reset silent post replace_nonce
                     log_name csv_destination safe_tx w).
Proof.
  intros Hest Hready. unfold post_safe_tx. unfold bind at 1. unfold gets at 1.
  unfold bind at 1.
  assert (Hgas :
    (if negb skip_preview
     then _set_safe_tx_gas (multisend_from_receipts (history w)) events call_trace reset
                           log_name gas_coef
     else ret (multisend_from_receipts (history w))) w
    = Ok safe_tx (estimated_world skip_preview events call_trace reset log_name safe_tx w)).
  { unfold estimated, estimated_world in *. destruct skip_preview; cbn [negb].
    - injection Hest as <-. reflexivity.
    - apply set_safe_tx_gas_ok; assumption. }
  rewrite Hgas. clear Hgas.
  pose proof (estimated_world_ready skip_preview events call_trace reset log_name safe_tx w)
    as Hready1. rewrite Hready in Hready1.
  unfold posted_world.
  set (w1 := estimated_world skip_preview events call_trace reset log_name safe_tx w) in *.
  assert (Hnonce : (if truthy_int replace_nonce
                    then set_safe_nonce safe_tx
                           (match replace_nonce with Some n => n | None => 0%Z end)
                    else safe_tx) = nonce_step replace_nonce safe_tx).
  { unfold nonce_step. destruct replace_nonce as [n|]; reflexivity. }
  rewrite Hnonce. clear Hnonce.
  set (final := nonce_step replace_nonce safe_tx).
  unfold bind at 1.
  assert (Hprint : (if negb silent then emit (OPprint final) else ret tt) w1
                   = Ok tt (if silent then w1 else with_stdout w1 (stdout w1 ++ [OPprint final]))).
  { destruct silent; reflexivity. }
  rewrite Hprint. clear Hprint.
  set (w2 := if silent then w1 else _).
  assert (Hready2 : snapshot_ready w2 = true).
  { subst w2. destruct silent; [exact Hready1|]. exact Hready1. }
  pose proof (print_step_ok csv_destination w2 Hready2) as Hstep.
  unfold bind in Hstep. unfold bind. 
  destruct (hasattr_snapshot w2) as [has w2'|e w2'] eqn:Hhas.
  2:{ discriminate Hhas. }
  rewrite Hstep.
  destruct post; reflexivity.
Qed.

Lemma filter_log_csv (csv_destination : option string) (w : World) :
  filter (fun f : string * File =>
            match snd f with LogFile _ => true | CsvFile _ _ => false end)
         (csv_files csv_destination w) = [].
Proof.
  unfold csv_files. destruct (printed_frame w); [|reflexivity].
  destruct csv_destination as [path|]; [|reflexivity].
  destruct (truthy_str (Some path)); reflexivity.
Qed.

Lemma print_effect_keeps (csv_destination : option string) (w : World) :
  posted (print_effect csv_destination w) = posted w
  /\ log_files (print_effect csv_destination w) = log_files w.
Proof.
  unfold print_effect, log_files. cbn [posted files with_stdout with_files].
  rewrite filter_app, filter_log_csv, app_nil_r. auto.
Qed.

(** C1, at the version the code misses. A safe of version 0.3.0 is older
    than 1.3.0, and [_set_safe_tx_gas] gives it the gas of the new safes:
    [safe_tx_gas] is 0 and the signatures stay. *)
Theorem set_safe_tx_gas_version_0_3_0 (target : string) (amount : Z) (payload : list byte)
  (op gas : Z) (sigs : list byte) (nonce : Z) (events call_trace reset : bool)
  (gas_coef : PyNum.number) (w : World) :
  _set_safe_tx_gas (mkSafeTx target amount payload op gas sigs nonce "0.3.0")
                   events call_trace reset None gas_coef w
  = Ok (mkSafeTx target amount payload op 0 sigs nonce "0.3.0")
       (with_chain w (snd (preview (mkSafeTx target amount payload op gas sigs nonce "0.3.0")
                                   events call_trace reset (chain w)))).
Proof.
  unfold _set_safe_tx_gas. cbn [_safe_version].
  change (legacy_version "0.3.0") with (@inr exn bool false).
  cbn [lift]. unfold bind at 1. unfold ret at 1. unfold bind at 1. unfold bind at 1.
  unfold run_preview.
  destruct (preview _ events call_trace reset (chain w)) as [receipt ch].
  reflexivity.
Qed.

(** C8. When [_set_safe_tx_gas] returns, the version test gave an answer:
    on the old-version branch the signatures of the result are the empty
    byte string and its gas is the estimate; on the other branch its gas is
    0 and the signatures are the ones it had. The other attributes are
    unchanged on both. *)
Theorem set_safe_tx_gas_signatures (safe_tx safe_tx' : SafeTx)
  (events call_trace reset : bool) (log_name : option string)
  (gas_coef : PyNum.number) (w w' : World) :
  _set_safe_tx_gas safe_tx events call_trace reset log_name gas_coef w = Ok safe_tx' w' ->
  exists legacy,
    legacy_version (_safe_version safe_tx) = inr legacy
    /\ (if legacy : bool then
          signatures safe_tx' = []
          /\ exists scaled,
               PyNum.int_mul gas_coef
                 (legacy_gas (gas_used (fst (preview safe_tx events call_trace reset (chain w)))))
               = inr scaled
               /\ safe_tx_gas safe_tx' = 35000 + scaled
        else
          signatures safe_tx' = signatures safe_tx /\ safe_tx_gas safe_tx' = 0)
    /\ to safe_tx' = to safe_tx /\ value safe_tx' = value safe_tx
    /\ data safe_tx' = data safe_tx /\ operation safe_tx' = operation safe_tx
    /\ _safe_nonce safe_tx' = _safe_nonce safe_tx
    /\ _safe_version safe_tx' = _safe_version safe_tx.
Proof.
  intros Hrun. apply set_safe_tx_gas_inv in Hrun. unfold gas_step in Hrun.
  destruct (legacy_version (_safe_version safe_tx)) as [e|legacy]; [discriminate|].
  exists legacy. split; [reflexivity|]. destruct legacy.
  - destruct (PyNum.int_mul _ _) as [e|scaled]; [discriminate|].
    injection Hrun as <-. cbn. repeat split. exists scaled. split; reflexivity.
  - injection Hrun as <-. cbn. repeat split.
Qed.

Lemma log_effect_files (log_name : option string) (safe_tx : SafeTx)
  (receipt : TransactionReceipt) (w : World) :
  log_files (log_effect log_name safe_tx receipt w)
  = (log_files w
     ++ match log_name with
        | Some name =>
            if truthy_str log_name
            then [(log_path (clock w) name, LogFile (log_lines safe_tx receipt w))]
            else []
        | None => []
        end)%list.
Proof.
  unfold log_effect, log_files. destruct log_name as [name|]; [|rewrite app_nil_r; reflexivity].
  destruct (truthy_str (Some name)); [|rewrite app_nil_r; reflexivity].
  cbn [files with_files]. rewrite filter_app. reflexivity.
Qed.

Lemma estimated_world_keeps (skip_preview events call_trace reset : bool)
  (log_name : option string) (safe_tx : SafeTx) (w : World) :
  posted (estimated_world skip_preview events call_trace reset log_name safe_tx w)
  = posted w.
Proof.
  unfold estimated_world. destruct skip_preview; [reflexivity|].
  destruct (log_effect_keeps log_name safe_tx
              (fst (preview (multisend_from_receipts (history w)) events call_trace reset (chain w)))
              (with_chain w (snd (preview (multisend_from_receipts (history w)) events
                                          call_trace reset (chain w)))))
    as (_ & _ & _ & -> & _). reflexivity.
Qed.

Lemma posted_world_posted (skip_preview events call_trace reset silent post : bool)
  (replace_nonce : option Z) (log_name csv_destination : option string)
  (safe_tx : SafeTx) (w : World) :
  posted (posted_world skip_preview events call_trace reset silent post replace_nonce
                       log_name csv_destination safe_tx w)
  = (posted w ++ (if post then [nonce_step replace_nonce safe_tx] else []))%list.
Proof.
  unfold posted_world.
  set (w1 := estimated_world skip_preview events call_trace reset log_name safe_tx w).
  assert (H1 : posted w1 = posted w) by apply estimated_world_keeps.
  set (w2 := if silent then w1 else _).
  assert (H2 : posted w2 = posted w) by (subst w2; destruct silent; exact H1).
  destruct (print_effect_keeps csv_destination w2) as (H3 & _).
  destruct post; cbn [posted with_posted]; rewrite H3, H2;
    [reflexivity|rewrite app_nil_r; reflexivity].
Qed.

Lemma posted_world_logs (skip_preview events call_trace reset silent post : bool)
  (replace_nonce : option Z) (log_name csv_destination : option string)
  (safe_tx : SafeTx) (w : World) :
  log_files (posted_world skip_preview events call_trace reset silent post replace_nonce
                          log_name csv_destination safe_tx w)
  = log_files (estimated_world skip_preview events call_trace reset log_name safe_tx w).
Proof.
  unfold posted_world.
  set (w1 := estimated_world skip_preview events call_trace reset log_name safe_tx w).
  set (w2 := if silent then w1 else _).
  assert (H2 : log_files w2 = log_files w1) by (subst w2; destruct silent; reflexivity).
  destruct (print_effect_keeps csv_destination w2) as (_ & H3).
  destruct post; [change (log_files (with_posted ?x ?p)) with (log_files x)|];
    rewrite H3, H2; reflexivity.
Qed.

Lemma estimated_payload (skip_preview events call_trace reset : bool)
  (gas_coef : PyNum.number) (w : World) (safe_tx : SafeTx) :
  estimated skip_preview events call_trace reset gas_coef w = inr safe_tx ->
  let base := multisend_from_receipts (history w) in
  to safe_tx = to base /\ value safe_tx = value base
  /\ data safe_tx = data base /\ operation safe_tx = operation base.
Proof.
  unfold estimated, gas_step. destruct skip_preview.
  - intros [= <-]. cbn. auto.
  - destruct (legacy_version _) as [e|legacy]; [discriminate|]. destruct legacy.
    + destruct (PyNum.int_mul _ _) as [e|scaled]; [discriminate|].
      intros [= <-]. cbn. auto.
    + intros [= <-]. cbn. auto.
Qed.

Lemma nonce_step_payload (replace_nonce : option Z) (safe_tx : SafeTx) :
  to (nonce_step replace_nonce safe_tx) = to safe_tx
  /\ value (nonce_step replace_nonce safe_tx) = value safe_tx
  /\ data (nonce_step replace_nonce safe_tx) = data safe_tx
  /\ operation (nonce_step replace_nonce safe_tx) = operation safe_tx.
Proof.
  unfold nonce_step. destruct replace_nonce as [n|]; [|auto].
  destruct (truthy_int (Some n)); cbn; auto.
Qed.

(** C2. When the gas step goes through and the snapshot, if there is one,
    can be printed, [post_safe_tx] returns the assembled transaction (the
    batch of the recorded receipts after the gas step and the nonce
    replacement); with [post] it submits exactly that transaction, once, and
    without [post] it submits nothing. *)
Theorem post_safe_tx_submits (skip_preview events call_trace reset silent post : bool)
  (replace_nonce : option Z) (log_name csv_destination : option string)
  (gas_coef : PyNum.number) (w : World) (safe_tx : SafeTx) :
  estimated skip_preview events call_trace reset gas_coef w = inr safe_tx ->
  snapshot_ready w = true ->
  exists w',
    post_safe_tx skip_preview events call_trace reset silent post replace_nonce
                 log_name csv_destination gas_coef w
    = Ok (nonce_step replace_nonce safe_tx) w'
    /\ posted w' = (posted w ++ (if post then [nonce_step replace_nonce safe_tx] else []))%list.
Proof.
  intros Hest Hready. eexists. split.
  - apply post_safe_tx_ok; eassumption.
  - apply posted_world_posted.
Qed.

(** C6, as amended. [post_safe_tx] writes the log file, named by the
    clock and [log_name], exactly when a non-empty [log_name] is given and
    the preview is not skipped; the file holds the events and the call trace
    of the preview, the transaction after the gas step, and the lines of
    the snapshot when there is one. *)
Theorem post_safe_tx_log (skip_preview events call_trace reset silent post : bool)
  (replace_nonce : option Z) (log_name csv_destination : option string)
  (gas_coef : PyNum.number) (w : World) (safe_tx : SafeTx) :
  estimated skip_preview events call_trace reset gas_coef w = inr safe_tx ->
  snapshot_ready w = true ->
  let pr := preview (multisend_from_receipts (history w)) events call_trace reset (chain w) in
  exists w',
    post_safe_tx skip_preview events call_trace reset silent post replace_nonce
                 log_name csv_destination gas_coef w
    = Ok (nonce_step replace_nonce safe_tx) w'
    /\ log_files w'
       = (log_files w
          ++ match log_name with
             | Some name =>
                 if negb skip_preview && truthy_str log_name
                 then [(log_path (clock w) name,
                        LogFile ([OInfo (fst pr); OCallTrace (fst pr); OPprint safe_tx]
                                 ++ snapshot_lines (with_chain w (snd pr))))]
                 else []
             | None => []
             end)%list.
Proof.
  intros Hest Hready pr. eexists. split.
  - apply post_safe_tx_ok; eassumption.
  - rewrite posted_world_logs. unfold estimated_world. fold pr.
    destruct skip_preview; cbn [negb andb].
    + destruct log_name; rewrite app_nil_r; reflexivity.
    + rewrite log_effect_files. reflexivity.
Qed.

(** C7. Whatever the recorded receipts, [post_safe_tx] returns one
    transaction, the batch [multisend_from_receipts] makes of all of them:
    target, value, data and operation are those of the batch, and at most
    one transaction is submitted. *)
Theorem post_safe_tx_single_batch (skip_preview events call_trace reset silent post : bool)
  (replace_nonce : option Z) (log_name csv_destination : option string)
  (gas_coef : PyNum.number) (w : World) (safe_tx : SafeTx) :
  estimated skip_preview events call_trace reset gas_coef w = inr safe_tx ->
  snapshot_ready w = true ->
  let batch := multisend_from_receipts (history w) in
  exists result w',
    post_safe_tx skip_preview events call_trace reset silent post replace_nonce
                 log_name csv_destination gas_coef w
    = Ok result w'
    /\ to result = to batch /\ value result = value batch
    /\ data result = data batch /\ operation result = operation batch
    /\ (posted w' = posted w \/ posted w' = (posted w ++ [result])%list).
Proof.
  intros Hest Hready batch.
  exists (nonce_step replace_nonce safe_tx). eexists. split.
  - apply post_safe_tx_ok; eassumption.
  - destruct (estimated_payload _ _ _ _ _ _ _ Hest) as (H1 & H2 & H3 & H4).
    destruct (nonce_step_payload replace_nonce safe_tx) as (N1 & N2 & N3 & N4).
    fold batch in H1, H2, H3, H4.
    rewrite N1, N2, N3, N4, posted_world_posted.
    repeat split; try assumption.
    destruct post; [right; reflexivity|left; apply app_nil_r].
Qed.

End PostFacts.

(** ** The hardware-wallet flows *)

Section WalletFacts.

Context {E : Env}.

Lemma find_by_nonce_none (pending : list SafeTx) (n : Z) :
  (forall safe_tx, In safe_tx pending -> safe_nonce safe_tx <> n) ->
  find_by_nonce pending n = None.
Proof.
  induction pending as [|safe_tx rest IH]; intros Hall; [reflexivity|].
  cbn [find_by_nonce]. destruct (Z.eqb_spec (safe_nonce safe_tx) n) as [Heq|_].
  - exfalso. apply (Hall safe_tx); [left; reflexivity|exact Heq].
  - apply IH. intros t Ht. apply Hall. right. exact Ht.
Qed.

Lemma find_by_nonce_first (before rest : list SafeTx) (safe_tx : SafeTx) (n : Z) :
  safe_nonce safe_tx = n ->
  (forall t, In t before -> safe_nonce t <> n) ->
  find_by_nonce (before ++ safe_tx :: rest) n = Some safe_tx.
Proof.
  intros Hn. induction before as [|t before IH]; intros Hall; cbn [app find_by_nonce].
  - rewrite Hn, Z.eqb_refl. reflexivity.
  - destruct (Z.eqb_spec (safe_nonce t) n) as [Heq|_].
    + exfalso. apply (Hall t); [left; reflexivity|exact Heq].
    + apply IH. intros u Hu. apply Hall. right. exact Hu.
Qed.

Lemma truthy_nonzero (n : Z) : n <> 0 -> truthy_int (Some n) = true.
Proof. intros Hn. cbn. destruct (Z.eqb_spec n 0); [contradiction|reflexivity]. Qed.

(** C3, as amended. With a nonce other than 0,
    [sign_with_frame_hardware_wallet] raises when no pending transaction has
    that nonce, and otherwise signs the first pending transaction that has
    it and posts that signature; with no nonce it does so for the first
    pending transaction, and raises when nothing is pending. *)
Theorem sign_with_frame_hardware_wallet_selects (w : World) :
  (forall n, n <> 0 ->
     (forall safe_tx, In safe_tx (pending_transactions w) -> safe_nonce safe_tx <> n) ->
     sign_with_frame_hardware_wallet (Some n) w = Raise RuntimeError w)
  /\ (forall n before safe_tx rest, n <> 0 ->
        pending_transactions w = (before ++ safe_tx :: rest)%list ->
        safe_nonce safe_tx = n ->
        (forall t, In t before -> safe_nonce t <> n) ->
        sign_with_frame_hardware_wallet (Some n) w = Ok tt (signed_world safe_tx w))
  /\ (forall first rest, pending_transactions w = first :: rest ->
        sign_with_frame_hardware_wallet None w = Ok tt (signed_world first w))
  /\ (pending_transactions w = [] ->
        sign_with_frame_hardware_wallet None w = Raise IndexError w).
Proof.
  split; [|split; [|split]].
  - intros n Hn Hall. unfold sign_with_frame_hardware_wallet.
    rewrite (truthy_nonzero n Hn). unfold bind at 1. unfold _get_safe_tx_by_nonce.
    unfold bind at 1. unfold gets. rewrite (find_by_nonce_none _ n Hall). reflexivity.
  - intros n before safe_tx rest Hn Hpending Hnonce Hbefore.
    unfold sign_with_frame_hardware_wallet.
    rewrite (truthy_nonzero n Hn). unfold bind at 1. unfold _get_safe_tx_by_nonce.
    unfold bind at 1. unfold gets. rewrite Hpending.
    rewrite (find_by_nonce_first before rest safe_tx n Hnonce Hbefore). reflexivity.
  - intros first rest Hpending. unfold sign_with_frame_hardware_wallet.
    cbn [truthy_int]. unfold bind at 1. unfold bind at 1. unfold gets.
    rewrite Hpending. reflexivity.
  - intros Hpending. unfold sign_with_frame_hardware_wallet.
    cbn [truthy_int]. unfold bind at 1. unfold bind at 1. unfold gets.
    rewrite Hpending. reflexivity.
Qed.

(** C10. A nonce of 0 is taken as no nonce: [post_safe_tx] with
    [replace_nonce=0] does what it does with none, and both hardware-wallet
    flows with [safe_tx_nonce=0] do what they do with none, which is to
    take the first pending transaction whatever its nonce. *)
Theorem zero_nonce_is_no_nonce (skip_preview events call_trace reset silent post : bool)
  (log_name csv_destination : option string) (gas_coef : PyNum.number) (w : World) :
  post_safe_tx skip_preview events call_trace reset silent post (Some 0)
               log_name csv_destination gas_coef w
  = post_safe_tx skip_preview events call_trace reset silent post None
                 log_name csv_destination gas_coef w
  /\ sign_with_frame_hardware_wallet (Some 0) w = sign_with_frame_hardware_wallet None w
  /\ execute_with_frame_hardware_wallet (Some 0) w
     = execute_with_frame_hardware_wallet None w
  /\ (forall first rest, pending_transactions w = first :: rest ->
        sign_with_frame_hardware_wallet (Some 0) w = Ok tt (signed_world first w)
        /\ execute_with_frame_hardware_wallet (Some 0) w = Ok tt (executed_world first w)).
Proof.
  split; [reflexivity|]. split; [reflexivity|]. split; [reflexivity|].
  intros first rest Hpending.
  unfold sign_with_frame_hardware_wallet, execute_with_frame_hardware_wallet.
  cbn [truthy_int Z.eqb negb]. unfold bind, gets. rewrite Hpending. split; reflexivity.
Qed.

End WalletFacts.

(** ** The version test and the gas estimate *)

Section VersionFacts.

Lemma split_nonempty (sep : ascii) (s : string) : PyStr.split sep s <> [].
Proof.
  destruct s as [|c s]; cbn; [discriminate|].
  destruct (Ascii.eqb c sep); [discriminate|].
  destruct (PyStr.split sep s); discriminate.
Qed.

Lemma split_field (sep : ascii) (s1 s2 : string) :
  PyStr.split sep s1 = [s1] ->
  PyStr.split sep (s1 ++ String sep s2) = s1 :: PyStr.split sep s2.
Proof.
  induction s1 as [|c s1 IH]; cbn [PyStr.split append].
  - intros _. rewrite Ascii.eqb_refl. reflexivity.
  - destruct (Ascii.eqb c sep); [discriminate|].
    destruct (PyStr.split sep s1) as [|hd tl] eqn:Hs1.
    + exfalso. exact (split_nonempty sep s1 Hs1).
    + intros [= -> ->]. rewrite (IH eq_refl). reflexivity.
Qed.

Lemma split_without (sep : ascii) (s : string) :
  ~ In sep (list_ascii_of_string s) -> PyStr.split sep s = [s].
Proof.
  induction s as [|c s IH]; cbn [PyStr.split list_ascii_of_string]; [reflexivity|].
  intros Hnot. destruct (Ascii.eqb_spec c sep) as [->|_].
  - exfalso. apply Hnot. left. reflexivity.
  - rewrite IH; [reflexivity|]. intros Hin. apply Hnot. right. exact Hin.
Qed.









(** X4. The estimate of the old safes: the gas used, plus a 63rd of it or 2500,
    whichever is more, plus 500. Below 157500 gas that is the gas used
    plus 3000. *)
Theorem legacy_gas_threshold (gas_used : Z) :
  legacy_gas gas_used
  = if (gas_used <? 157500)%Z then gas_used + 3000 else gas_used + gas_used / 63 + 500.
Proof.
  unfold legacy_gas.
  replace (gas_used * 64) with (gas_used + gas_used * 63) by lia.
  rewrite Z.div_add by lia.
  destruct (Z.ltb_spec gas_used 157500) as [Hlt|Hge].
  - assert (gas_used / 63 < 2500) by (apply Z.div_lt_upper_bound; lia). lia.
  - assert (2500 <= gas_used / 63) by (apply Z.div_le_lower_bound; lia). lia.
Qed.

End VersionFacts.

(** ** The default [gas_coef] *)

Section FloatFacts.

Local Open Scope Z_scope.

Lemma digits2_pos_spec (p : positive) :
  2 ^ (Z.pos (digits2_pos p) - 1) <= Z.pos p < 2 ^ Z.pos (digits2_pos p).
Proof.
  induction p as [p IH|p IH|]; cbn [digits2_pos].
  - rewrite Pos2Z.inj_succ. replace (Z.succ (Z.pos (digits2_pos p)) - 1)
      with (Z.succ (Z.pos (digits2_pos p) - 1)) by lia.
    rewrite !Z.pow_succ_r by lia. lia.
  - rewrite Pos2Z.inj_succ. replace (Z.succ (Z.pos (digits2_pos p)) - 1)
      with (Z.succ (Z.pos (digits2_pos p) - 1)) by lia.
    rewrite !Z.pow_succ_r by lia. lia.
  - cbn. lia.
Qed.

Lemma Zdigits2_unique (x D : Z) :
  2 ^ (D - 1) <= x < 2 ^ D -> 1 <= D -> Zdigits2 x = D.
Proof.
  intros Hx HD. assert (Hpos : 0 < x).
  { assert (0 < 2 ^ (D - 1)) by (apply Z.pow_pos_nonneg; lia). lia. }
  destruct x as [|p|p]; try lia. cbn [Zdigits2].
  pose proof (digits2_pos_spec p) as Hp. set (d := Z.pos (digits2_pos p)) in *.
  assert (Hd : 1 <= d) by (subst d; lia).
  destruct (Z.lt_trichotomy d D) as [Hlt|[Heq|Hgt]]; [|exact Heq|].
  - assert (2 ^ d <= 2 ^ (D - 1)) by (apply Z.pow_le_mono_r; lia). lia.
  - assert (2 ^ D <= 2 ^ (d - 1)) by (apply Z.pow_le_mono_r; lia). lia.
Qed.

Lemma iter_pos_nat {A : Type} (f : A -> A) (n : positive) :
  forall x, iter_pos f n x = Nat.iter (Pos.to_nat n) f x.
Proof.
  induction n as [n IH|n IH|]; intros x; cbn [iter_pos].
  - rewrite !IH, Pos2Nat.inj_xI.
    replace (S (2 * Pos.to_nat n)) with (S (Pos.to_nat n + Pos.to_nat n)) by lia.
    rewrite Nat.iter_succ_r, Nat.iter_add. reflexivity.
  - rewrite !IH, Pos2Nat.inj_xO.
    replace (2 * Pos.to_nat n)%nat with (Pos.to_nat n + Pos.to_nat n)%nat by lia.
    rewrite Nat.iter_add. reflexivity.
  - reflexivity.
Qed.

(** Shifting out bits that are zero loses nothing. *)
Lemma shr_zeros (j : nat) :
  forall m0, 0 < m0 ->
  Nat.iter j shr_1 (Build_shr_record (m0 * 2 ^ Z.of_nat j) false false)
  = Build_shr_record m0 false false.
Proof.
  induction j as [|j IH]; intros m0 Hm0.
  - cbn [Nat.iter Z.of_nat]. rewrite Z.pow_0_r, Z.mul_1_r. reflexivity.
  - rewrite Nat.iter_succ_r.
    assert (Hpos : 0 < m0 * 2 ^ Z.of_nat j).
    { apply Z.mul_pos_pos; [exact Hm0|]. apply Z.pow_pos_nonneg; lia. }
    rewrite Nat2Z.inj_succ, Z.pow_succ_r by lia.
    replace (m0 * (2 * 2 ^ Z.of_nat j)) with (2 * (m0 * 2 ^ Z.of_nat j)) by lia.
    destruct (m0 * 2 ^ Z.of_nat j) as [|r|r] eqn:Hr; try lia.
    change (2 * Z.pos r) with (Z.pos r~0). cbn [shr_1 orb]. rewrite <- Hr. apply IH.
    exact Hm0.
Qed.

Lemma fexp_normal (x : Z) : -1021 <= x -> fexp PyNum.prec PyNum.emax x = x - 53.
Proof. intros Hx. unfold fexp, emin, PyNum.prec, PyNum.emax. lia. Qed.

Lemma shr_fexp_exact (m0 k e : Z) :
  0 < m0 -> 0 <= k -> 2 ^ 52 <= m0 < 2 ^ 53 -> -1074 <= e + k ->
  shr_fexp PyNum.prec PyNum.emax (m0 * 2 ^ k) e loc_Exact
  = (Build_shr_record m0 false false, e + k).
Proof.
  intros Hm0 Hk Hbound He. unfold shr_fexp.
  assert (Hpow : 0 < 2 ^ k) by (apply Z.pow_pos_nonneg; lia).
  assert (Hdig : Zdigits2 (m0 * 2 ^ k) = 53 + k).
  { apply Zdigits2_unique; [|lia].
    replace (53 + k - 1) with (52 + k) by lia. rewrite !Z.pow_add_r by lia. nia. }
  rewrite Hdig, fexp_normal by lia.
  replace (53 + k + e - 53 - e) with k by lia.
  cbn [shr_record_of_loc]. unfold shr. destruct k as [|p|p]; [| |lia].
  - rewrite Z.pow_0_r, Z.mul_1_r, Z.add_0_r. reflexivity.
  - rewrite iter_pos_nat. f_equal.
    rewrite <- (positive_nat_Z p). apply shr_zeros. exact Hm0.
Qed.

(** A product that fits in 53 bits is not rounded. *)
Lemma binary_round_aux_exact (s : bool) (m0 : positive) (k e : Z) :
  0 <= k -> 2 ^ 52 <= Z.pos m0 < 2 ^ 53 -> -1074 <= e + k <= 971 ->
  binary_round_aux PyNum.prec PyNum.emax s (Z.pos m0 * 2 ^ k) e loc_Exact
  = S754_finite s m0 (e + k).
Proof.
  intros Hk Hbound He. unfold binary_round_aux.
  rewrite (shr_fexp_exact (Z.pos m0) k e) by lia.
  cbn [shr_m loc_of_shr_record round_nearest_even].
  pose proof (shr_fexp_exact (Z.pos m0) 0 (e + k) ltac:(lia) ltac:(lia) Hbound ltac:(lia))
    as Hsecond.
  rewrite Z.pow_0_r, Z.mul_1_r, Z.add_0_r in Hsecond. rewrite Hsecond.
  cbn [shr_m]. unfold PyNum.prec, PyNum.emax.
  destruct (Z.leb_spec (e + k) (1024 - 53)); [reflexivity|lia].
Qed.

Lemma iter_xO (q : positive) : forall p, Z.pos (Pos.iter xO p q) = Z.pos p * 2 ^ Z.pos q.
Proof.
  intros p. rewrite Pos2Nat.inj_iter, <- (positive_nat_Z q).
  induction (Pos.to_nat q) as [|j IH].
  - cbn [nat_rect]. change (Z.of_nat 0) with 0. rewrite Z.pow_0_r. lia.
  - cbn [nat_rect]. rewrite Pos2Z.inj_xO, IH, Nat2Z.inj_succ, Z.pow_succ_r by lia. lia.
Qed.

(** [float(n)] for an int of at most 53 bits: the int itself. *)
Lemma float_of_int_exact (p : positive) :
  Z.pos p < 2 ^ 53 ->
  let d := Z.pos (digits2_pos p) in
  exists mz, PyNum.float_of_int (Z.pos p) = inr (S754_finite false mz (d - 53))
             /\ Z.pos mz = Z.pos p * 2 ^ (53 - d).
Proof.
  intros Hp d. pose proof (digits2_pos_spec p) as Hd. fold d in Hd.
  assert (Hd53 : 1 <= d <= 53).
  { split; [subst d; lia|].
    destruct (Z.le_gt_cases d 53) as [|Hgt]; [assumption|exfalso].
    assert (2 ^ 53 <= 2 ^ (d - 1)) by (apply Z.pow_le_mono_r; lia). lia. }
  unfold PyNum.float_of_int, PyNum.float_of, binary_normalize, binary_round.
  fold d. rewrite Z.add_0_r, fexp_normal by lia. unfold shl_align.
  assert (Hm : exists mz, Z.pos mz = Z.pos p * 2 ^ (53 - d)
               /\ (match d - 53 - 0 with
                   | Z.neg q => (Pos.iter xO p q, d - 53)
                   | _ => (p, 0)
                   end) = (mz, d - 53)).
  { destruct (d - 53 - 0) as [|q|q] eqn:Hq; [|lia|].
    - exists p. replace (53 - d) with 0 by lia. rewrite Z.pow_0_r, Z.mul_1_r.
      split; [reflexivity|]. f_equal. lia.
    - exists (Pos.iter xO p q). split; [|reflexivity].
      rewrite iter_xO. f_equal. f_equal. lia. }
  destruct Hm as (mz & Hmz & ->).
  assert (Hbound : 2 ^ 52 <= Z.pos mz < 2 ^ 53).
  { rewrite Hmz.
    replace (2 ^ 52) with (2 ^ (d - 1) * 2 ^ (53 - d))
      by (rewrite <- Z.pow_add_r by lia; f_equal; lia).
    replace (2 ^ 53) with (2 ^ d * 2 ^ (53 - d))
      by (rewrite <- Z.pow_add_r by lia; f_equal; lia).
    assert (0 < 2 ^ (53 - d)) by (apply Z.pow_pos_nonneg; lia). nia. }
  pose proof (binary_round_aux_exact false mz 0 (d - 53) ltac:(lia) Hbound ltac:(lia))
    as Hround.
  rewrite Z.pow_0_r, Z.mul_1_r, Z.add_0_r in Hround. rewrite Hround.
  exists mz. split; [reflexivity|exact Hmz].
Qed.

Lemma one_and_a_half_bits :
  PyNum.one_and_a_half = PyNum.PyFloat (S754_finite false 6755399441055744 (-52)).
Proof. reflexivity. Qed.

(** With the default [gas_coef=1.5] the product is exact and [int]
    truncates it: [int(1.5 * g)] is [3 * g // 2] for every [g] with
    [3 * g < 2^53]. *)
Lemma int_mul_one_and_a_half (g : Z) :
  0 <= g -> 3 * g < 2 ^ 53 ->
  PyNum.int_mul PyNum.one_and_a_half g = inr (3 * g / 2).
Proof.
  intros Hg Hsmall. destruct g as [|p|p]; [reflexivity| |lia].
  unfold PyNum.int_mul, PyNum.mul_int. rewrite one_and_a_half_bits.
  destruct (float_of_int_exact p ltac:(lia)) as (mz & -> & Hmz).
  set (d := Z.pos (digits2_pos p)) in *.
  pose proof (digits2_pos_spec p) as Hd. fold d in Hd.
  pose proof (digits2_pos_spec (3 * p)) as H3. set (D3 := Z.pos (digits2_pos (3 * p))) in *.
  assert (Hd1 : 1 <= d) by (subst d; lia).
  assert (HD3 : d + 1 <= D3 <= 53).
  { split.
    - destruct (Z.le_gt_cases (d + 1) D3) as [|Hgt]; [assumption|exfalso].
      assert (2 ^ D3 <= 2 ^ d) by (apply Z.pow_le_mono_r; subst D3; lia).
      assert (2 ^ d = 2 * 2 ^ (d - 1)).
      { replace d with (Z.succ (d - 1)) at 1 by lia. apply Z.pow_succ_r. lia. }
      rewrite Pos2Z.inj_mul in H3. lia.
    - destruct (Z.le_gt_cases D3 53) as [|Hgt]; [assumption|exfalso].
      assert (2 ^ 53 <= 2 ^ (D3 - 1)) by (apply Z.pow_le_mono_r; lia).
      rewrite Pos2Z.inj_mul in H3. lia. }
  assert (Hpow : 0 < 2 ^ (53 - D3)) by (apply Z.pow_pos_nonneg; lia).
  assert (Hm0 : exists m0, Z.pos m0 = Z.pos (3 * p) * 2 ^ (53 - D3)).
  { destruct (Z.pos (3 * p) * 2 ^ (53 - D3)) as [|m0|m0] eqn:Hm; try lia.
    exists m0. reflexivity. }
  destruct Hm0 as (m0 & Hm0).
  assert (Hbound : 2 ^ 52 <= Z.pos m0 < 2 ^ 53).
  { rewrite Hm0.
    replace (2 ^ 52) with (2 ^ (D3 - 1) * 2 ^ (53 - D3))
      by (rewrite <- Z.pow_add_r by lia; f_equal; lia).
    replace (2 ^ 53) with (2 ^ D3 * 2 ^ (53 - D3))
      by (rewrite <- Z.pow_add_r by lia; f_equal; lia).
    nia. }
  cbn [SFmul xorb].
  assert (Hprod : Z.pos (6755399441055744 * mz) = Z.pos m0 * 2 ^ (D3 + 51 - d)).
  { rewrite Pos2Z.inj_mul, Hmz, Hm0, Pos2Z.inj_mul.
    change (Z.pos 6755399441055744) with (3 * 2 ^ 51).
    replace (Z.pos 3 * Z.pos p * 2 ^ (53 - D3) * 2 ^ (D3 + 51 - d))
      with (3 * Z.pos p * (2 ^ (53 - D3) * 2 ^ (D3 + 51 - d))) by lia.
    rewrite <- Z.pow_add_r by lia.
    replace (3 * 2 ^ 51 * (Z.pos p * 2 ^ (53 - d)))
      with (3 * Z.pos p * (2 ^ 51 * 2 ^ (53 - d))) by lia.
    rewrite <- Z.pow_add_r by lia. f_equal. f_equal. lia. }
  rewrite Hprod.
  rewrite (binary_round_aux_exact false m0 (D3 + 51 - d) (-52 + (d - 53))) by lia.
  unfold PyNum.to_int, PyNum.int_of_float.
  replace (-52 + (d - 53) + (D3 + 51 - d)) with (D3 - 54) by lia.
  destruct (Z.leb_spec 0 (D3 - 54)) as [Hbad|_]; [lia|].
  f_equal. rewrite Hm0.
  replace (- (D3 - 54)) with (1 + (53 - D3)) by lia.
  rewrite Z.pow_add_r by lia. rewrite Z.pow_1_r.
  rewrite Z.div_mul_cancel_r by lia. rewrite Pos2Z.inj_mul. reflexivity.
Qed.

End FloatFacts.

Section DefaultCoef.

Context {E : Env}.

(** X28. With the default [gas_coef=1.5] the float product loses nothing: on
    an old safe whose preview used less than [2^50] gas,
    [_set_safe_tx_gas] sets [safe_tx_gas] to 35000 plus three halves of the
    estimate, rounded down, and empties the signatures. *)
Theorem set_safe_tx_gas_default_coef (safe_tx : SafeTx) (events call_trace reset : bool)
  (log_name : option string) (w : World) :
  let receipt := fst (preview safe_tx events call_trace reset (chain w)) in
  legacy_version (_safe_version safe_tx) = inr true ->
  0 <= gas_used receipt < 2 ^ 50 ->
  snapshot_ready w = true ->
  exists safe_tx' w',
    _set_safe_tx_gas safe_tx events call_trace reset log_name PyNum.one_and_a_half w
    = Ok safe_tx' w'
    /\ safe_tx_gas safe_tx' = 35000 + 3 * legacy_gas (gas_used receipt) / 2
    /\ signatures safe_tx' = [].
Proof.
  intros receipt Hlegacy Hgas Hready.
  assert (Hmul : PyNum.int_mul PyNum.one_and_a_half (legacy_gas (gas_used receipt))
                 = inr (3 * legacy_gas (gas_used receipt) / 2)).
  { apply int_mul_one_and_a_half.
    - unfold legacy_gas. lia.
    - unfold legacy_gas.
      assert (gas_used receipt * 64 / 63 <= 2 * gas_used receipt)
        by (apply Z.div_le_upper_bound; lia).
      change (2 ^ 50) with 1125899906842624 in Hgas.
      change (2 ^ 53) with 9007199254740992. lia. }
  eexists. eexists. split.
  - apply set_safe_tx_gas_ok; [|exact Hready].
    unfold gas_step. rewrite Hlegacy. fold receipt. rewrite Hmul. reflexivity.
  - split; reflexivity.
Qed.

End DefaultCoef.

(** ** The effects of the methods, in every case *)

Section EffectFacts.

Context {E : Env}.

Lemma to_contract_world (token : Token) (w : World) :
  world_of (to_contract token w) = w.
Proof.
  destruct token as [c|s]; cbn; [reflexivity|].
  destruct (Contract_ s); [reflexivity|]. destruct (from_explorer s); reflexivity.
Qed.

Lemma fill_after_world (todo idx : list string) :
  forall (col : list (option Z)) (enlarged : bool) (w : World),
  world_of (fill_after todo idx col enlarged w) = w.
Proof.
  induction todo as [|token rest IH]; intros col enlarged w; [reflexivity|].
  cbn [fill_after]. destruct (String.eqb token ETH_ADDRESS).
  - unfold bind, gets. apply IH.
  - unfold bind at 1. pose proof (to_contract_world (TokOther token) w) as Hw.
    destruct (to_contract (TokOther token) w) as [c w1|e w1]; cbn [world_of] in Hw; subst w1.
    + unfold bind, gets. apply IH.
    + reflexivity.
Qed.

(** What a run of [print_snapshot] leaves: when it raises, the world it
    found; when it returns, two more prints and, with a destination, one
    more file. *)
Lemma print_snapshot_outcome (csv_destination : option string) (w : World) :
  match print_snapshot csv_destination w with
  | Ok _ w' =>
      same_safe w w'
      /\ exists df,
           stdout w' = (stdout w ++ [OText ("snapshot result for " ++ self_address ++ ":");
                                     OTable df])%list
           /\ files w'
              = (files w
                 ++ (if truthy_str csv_destination
                     then [(match csv_destination with Some p => p | None => "" end,
                            CsvFile ["token"; "claimable_amount"]
                                    (combine (index df) (balance_delta df)))]
                     else []))%list
  | Raise _ w' => w' = w
  end.
Proof.
  unfold print_snapshot. unfold bind at 1. unfold gets at 1.
  destruct (snapshot w) as [| |snap]; [reflexivity|reflexivity|].
  unfold bind at 1.
  pose proof (fill_after_world (address snap) (address snap)
                (map (fun _ => None) (address snap)) false w) as Hw.
  destruct (fill_after _ _ _ _ w) as [filled w1|e w1]; cbn [world_of] in Hw; subst w1;
    [|reflexivity].
  destruct (if snd filled then None else cells (fst filled)) as [mantissa_after|];
    [|reflexivity].
  destruct (calc_deltas snap mantissa_after) as [df|]; [|reflexivity].
  unfold bind, write_file, emit, modify, ret.
  destruct (truthy_str csv_destination); cbn [stdout files with_stdout with_files].
  - split; [repeat split|]. exists df. rewrite <- app_assoc. split; reflexivity.
  - split; [repeat split|]. exists df. rewrite <- app_assoc, app_nil_r. split; reflexivity.
Qed.

(** [if hasattr(self, 'snapshot'): self.print_snapshot(csv_destination)] *)
Lemma print_step_outcome (csv_destination : option string) (w : World) :
  match (has <- hasattr_snapshot ;;
         if has then print_snapshot csv_destination else ret tt) w with
  | Ok _ w' =>
      same_safe w w'
      /\ exists lines written,
           stdout w' = (stdout w ++ lines)%list
           /\ files w' = (files w ++ written)%list
           /\ (truthy_str csv_destination = false -> written = [])
           /\ (snapshot w = NoAttr -> lines = [] /\ written = [])
  | Raise _ w' => w' = w
  end.
Proof.
  unfold bind, hasattr_snapshot, gets.
  destruct (snapshot w) as [| |snap] eqn:Hsnap.
  - cbn. split; [repeat split|]. exists [], []. rewrite !app_nil_r. auto.
  - pose proof (print_snapshot_outcome csv_destination w) as Hp.
    destruct (print_snapshot csv_destination w) as [u w'|e w']; [|exact Hp].
    destruct Hp as (Hsame & df & Hout & Hfiles). split; [exact Hsame|].
    eexists. eexists. split; [exact Hout|]. split; [exact Hfiles|].
    split; [intros ->; reflexivity|discriminate].
  - pose proof (print_snapshot_outcome csv_destination w) as Hp.
    destruct (print_snapshot csv_destination w) as [u w'|e w']; [|exact Hp].
    destruct Hp as (Hsame & df & Hout & Hfiles). split; [exact Hsame|].
    eexists. eexists. split; [exact Hout|]. split; [exact Hfiles|].
    split; [intros ->; reflexivity|discriminate].
Qed.

(** What a run of [_dump_log] leaves: when it raises, the world it found;
    when it returns, one more file and nothing printed. *)
Lemma dump_log_outcome (safe_tx : SafeTx) (receipt : TransactionReceipt)
  (log_name : string) (w : World) :
  match _dump_log safe_tx receipt log_name w with
  | Ok _ w' =>
      same_safe w w' /\ stdout w' = stdout w
      /\ exists lines,
           files w'
           = (files w ++ [(log_path (clock w) log_name,
                           LogFile ([OInfo receipt; OCallTrace receipt; OPprint safe_tx]
                                    ++ lines))])%list
  | Raise _ w' => w' = w
  end.
Proof.
  unfold _dump_log. unfold bind at 1. unfold redirect_stdout.
  rewrite !bind_emit.
  set (wb := with_stdout _ (_ ++ [OPprint safe_tx])).
  assert (Hwb : wb = with_stdout w [OInfo receipt; OCallTrace receipt; OPprint safe_tx]).
  { subst wb. destruct w; reflexivity. }
  clearbody wb. subst wb.
  set (wb := with_stdout w _).
  pose proof (print_step_outcome None wb) as Hp.
  destruct ((has <- hasattr_snapshot ;; if has then print_snapshot None else ret tt) wb)
    as [u w'|e w'].
  - destruct Hp as ((Hc & Hh & Hpe & Hs & Hk & Hpo & Hsi & He)
                    & lines & written & Hout & Hfiles & Hnone & _).
    rewrite (Hnone eq_refl), app_nil_r in Hfiles.
    unfold bind, gets, write_file, modify.
    cbn [chain history pending_transactions snapshot clock stdout files posted
         posted_signatures executed with_stdout with_files].
    subst wb. cbn [chain history pending_transactions snapshot clock stdout files posted
                   posted_signatures executed with_stdout] in *.
    split; [repeat split; assumption|]. split; [reflexivity|].
    exists lines. rewrite Hfiles, Hk, Hout. reflexivity.
  - subst w' wb. destruct w; reflexivity.
Qed.

(** The gas step changes the chain (through the preview) and the files
    (through the log), and nothing else of the world. *)
Lemma log_step_outcome (log_name : option string) (safe_tx : SafeTx)
  (receipt : TransactionReceipt) (w w' : World) :
  world_of ((if truthy_str log_name
             then _dump_log safe_tx receipt (match log_name with Some n => n | None => "" end)
             else ret tt) w) = w' ->
  same_safe w w' /\ stdout w' = stdout w.
Proof.
  destruct (truthy_str log_name).
  - pose proof (dump_log_outcome safe_tx receipt
                  (match log_name with Some n => n | None => "" end) w) as Hd.
    destruct (_dump_log _ _ _ w) as [u w2|e w2]; cbn [world_of]; intros <-.
    + destruct Hd as (Hsame & Hout & _). split; assumption.
    + subst w2. split; [repeat split|reflexivity].
  - cbn. intros <-. split; [repeat split|reflexivity].
Qed.

Lemma world_of_ret {A B : Type} (r : result A) (b : B) :
  world_of (match r with
            | Ok _ w' => ret b w'
            | Raise e w' => Raise e w'
            end) = world_of r.
Proof. destruct r; reflexivity. Qed.

Lemma set_safe_tx_gas_outcome (safe_tx : SafeTx) (events call_trace reset : bool)
  (log_name : option string) (gas_coef : PyNum.number) (w w' : World) :
  world_of (_set_safe_tx_gas safe_tx events call_trace reset log_name gas_coef w) = w' ->
  history w' = history w /\ pending_transactions w' = pending_transactions w
  /\ snapshot w' = snapshot w /\ clock w' = clock w /\ stdout w' = stdout w
  /\ posted w' = posted w /\ posted_signatures w' = posted_signatures w
  /\ executed w' = executed w.
Proof.
  unfold _set_safe_tx_gas. unfold bind at 1.
  destruct (legacy_version (_safe_version safe_tx)) as [e|legacy];
    [cbn; intros <-; repeat split|].
  cbn [lift]. unfold ret at 1. unfold bind at 1.
  destruct legacy.
  - unfold bind at 1. unfold run_preview.
    destruct (preview safe_tx events call_trace reset (chain w)) as [receipt ch].
    unfold bind at 1.
    destruct (PyNum.int_mul gas_coef (legacy_gas (gas_used receipt))) as [e|scaled];
      [cbn; intros <-; repeat split|].
    cbn [lift]. unfold ret at 1 2. cbn [fst snd]. unfold bind. intros Hw'.
    assert (Hlog : same_safe (with_chain w ch) w' /\ stdout w' = stdout (with_chain w ch)).
    { rewrite world_of_ret in Hw'. exact (log_step_outcome _ _ _ _ _ Hw'). }
    destruct Hlog as ((Hc & Hh & Hpe & Hs & Hk & Hpo & Hsi & He) & Hout).
    repeat split; assumption.
  - unfold bind at 1. unfold run_preview.
    destruct (preview safe_tx events call_trace reset (chain w)) as [receipt ch].
    unfold ret at 1. cbn [fst snd]. unfold bind. intros Hw'.
    assert (Hlog : same_safe (with_chain w ch) w' /\ stdout w' = stdout (with_chain w ch)).
    { rewrite world_of_ret in Hw'. exact (log_step_outcome _ _ _ _ _ Hw'). }
    destruct Hlog as ((Hc & Hh & Hpe & Hs & Hk & Hpo & Hsi & He) & Hout).
    repeat split; assumption.
Qed.

(** X8. [print_snapshot] in every case: when it raises it has printed and
    written nothing; when it returns it has printed the heading and the
    table, written the CSV file if a destination was given, and left the
    snapshot and the rest of the safe as they were. *)
Theorem print_snapshot_effects (csv_destination : option string) (w : World) :
  match print_snapshot csv_destination w with
  | Ok _ w' =>
      same_safe w w'
      /\ exists df,
           stdout w' = (stdout w ++ [OText ("snapshot result for " ++ self_address ++ ":");
                                     OTable df])%list
           /\ files w'
              = (files w
                 ++ (if truthy_str csv_destination
                     then [(match csv_destination with Some p => p | None => "" end,
                            CsvFile ["token"; "claimable_amount"]
                                    (combine (index df) (balance_delta df)))]
                     else []))%list
  | Raise _ w' => w' = w
  end.
Proof. apply print_snapshot_outcome. Qed.

(** X9. [_dump_log] in every case: standard output is as it was found; when
    the dump raises (the snapshot cannot be printed) no file is written;
    when it returns, one file is written, named by the clock and
    [log_name], and it starts with the events, the call trace and the
    transaction. *)
Theorem dump_log_effects (safe_tx : SafeTx) (receipt : TransactionReceipt)
  (log_name : string) (w : World) :
  match _dump_log safe_tx receipt log_name w with
  | Ok _ w' =>
      same_safe w w' /\ stdout w' = stdout w
      /\ exists lines,
           files w'
           = (files w ++ [(("logs/" ++ clock w ++ "_" ++ log_name ++ ".log")%string,
                           LogFile ([OInfo receipt; OCallTrace receipt; OPprint safe_tx]
                                    ++ lines))])%list
  | Raise _ w' => w' = w
  end.
Proof. apply dump_log_outcome. Qed.

(** X6. [post_safe_tx] in every case: when it raises, nothing was submitted;
    when it returns, the transaction it returns was submitted once if
    [post] and nothing was submitted otherwise. *)
Theorem post_safe_tx_posts (skip_preview events call_trace reset silent post : bool)
  (replace_nonce : option Z) (log_name csv_destination : option string)
  (gas_coef : PyNum.number) (w : World) :
  match post_safe_tx skip_preview events call_trace reset silent post replace_nonce
                     log_name csv_destination gas_coef w with
  | Ok safe_tx w' => posted w' = (posted w ++ (if post then [safe_tx] else []))%list
  | Raise _ w' => posted w' = posted w
  end.
Proof.
  unfold post_safe_tx. unfold bind at 1. unfold gets at 1. unfold bind at 1.
  assert (Hgas : posted (world_of ((if negb skip_preview
                   then _set_safe_tx_gas (multisend_from_receipts (history w)) events
                                         call_trace reset log_name gas_coef
                   else ret (multisend_from_receipts (history w))) w)) = posted w).
  { destruct skip_preview; [reflexivity|]. cbn [negb].
    apply (set_safe_tx_gas_outcome (multisend_from_receipts (history w)) events call_trace
             reset log_name gas_coef w _ eq_refl). }
  destruct ((if negb skip_preview
             then _set_safe_tx_gas (multisend_from_receipts (history w)) events
                                   call_trace reset log_name gas_coef
             else ret (multisend_from_receipts (history w))) w) as [safe_tx w1|e w1];
    cbn [world_of] in Hgas; [|exact Hgas].
  set (final := if truthy_int replace_nonce then _ else safe_tx).
  unfold bind at 1.
  assert (Hprint : exists w2, (if negb silent then emit (OPprint final) else ret tt) w1
                              = Ok tt w2 /\ posted w2 = posted w1).
  { destruct silent; eexists; split; reflexivity. }
  destruct Hprint as (w2 & -> & Hw2).
  pose proof (print_step_outcome csv_destination w2) as Hp.
  unfold bind, hasattr_snapshot, gets in Hp. unfold bind, hasattr_snapshot, gets.
  destruct ((if match snapshot w2 with NoAttr => false | _ => true end
             then print_snapshot csv_destination else ret tt) w2) as [u w3|e w3].
  - destruct Hp as ((_ & _ & _ & _ & _ & Hpo & _) & _).
    destruct post; cbn [post_transaction modify posted with_posted ret];
      rewrite Hpo, Hw2, Hgas; [reflexivity|rewrite app_nil_r; reflexivity].
  - subst w3. rewrite Hw2. exact Hgas.
Qed.


(** X7. On a safe that never took a snapshot, [post_safe_tx] prints no table
    and writes no CSV file, with or without a destination: it prints the
    transaction unless [silent], and the only file is the log, of three
    items. *)
Theorem post_safe_tx_without_snapshot
  (skip_preview events call_trace reset silent post : bool)
  (replace_nonce : option Z) (log_name csv_destination : option string)
  (gas_coef : PyNum.number) (w : World) (safe_tx : SafeTx) :
  estimated skip_preview events call_trace reset gas_coef w = inr safe_tx ->
  snapshot w = NoAttr ->
  let receipt :=
    fst (preview (multisend_from_receipts (history w)) events call_trace reset (chain w)) in
  exists w',
    post_safe_tx skip_preview events call_trace reset silent post replace_nonce
                 log_name csv_destination gas_coef w
    = Ok (nonce_step replace_nonce safe_tx) w'
    /\ stdout w'
       = (stdout w ++ (if silent then [] else [OPprint (nonce_step replace_nonce safe_tx)]))%list
    /\ files w'
       = (files w
          ++ match log_name with
             | Some name =>
                 if negb skip_preview && truthy_str log_name
                 then [(log_path (clock w) name,
                        LogFile [OInfo receipt; OCallTrace receipt; OPprint safe_tx])]
                 else []
             | None => []
             end)%list.
Proof.
  intros Hest Hsnap receipt.
  assert (Hready : snapshot_ready w = true) by (unfold snapshot_ready; rewrite Hsnap; reflexivity).
  eexists. split; [apply post_safe_tx_ok; eassumption|].
  subst receipt.
  destruct post, silent, skip_preview; destruct log_name as [[|c name]|];
    unfold posted_world, estimated_world, log_effect, print_effect, csv_files,
      snapshot_lines, printed_frame, log_lines;
    cbn [negb andb truthy_str with_stdout with_files with_chain with_posted
         stdout files snapshot clock chain];
    rewrite ?Hsnap;
    cbn [negb andb truthy_str with_stdout with_files with_chain with_posted
         stdout files snapshot clock chain];
    rewrite ?Hsnap, ?app_nil_r; split; try reflexivity.
  all: cbn [app]; rewrite ?Hsnap; try reflexivity.
  all: unfold snapshot_lines, printed_frame; cbn [snapshot with_chain];
    rewrite Hsnap; reflexivity.
Qed.

End EffectFacts.

(** ** More on the snapshot *)

Section SnapshotMore.

Context {E : Env}.

Lemma to_contract_unresolvable (token : Token) (w : World) :
  resolvable token = false -> to_contract token w = Raise ContractNotFound w.
Proof.
  destruct token as [c|s]; cbn; [discriminate|].
  destruct (Contract_ s); [discriminate|]. destruct (from_explorer s); [discriminate|].
  reflexivity.
Qed.

Lemma to_contract_any_world (token : Token) (c : Contract) (w w' : World) :
  to_contract token w = Ok c w -> to_contract token w' = Ok c w'.
Proof.
  destruct token as [c0|s]; cbn.
  - intros [= ->]. reflexivity.
  - destruct (Contract_ s); [intros [= ->]; reflexivity|].
    destruct (from_explorer s); [intros [= ->]; reflexivity|discriminate].
Qed.

Lemma snapshot_loop_fail (tokens : list Token) :
  forallb resolvable tokens = false ->
  forall (df : SnapshotFrame) (w : World),
  snapshot_loop tokens df w = Raise ContractNotFound w.
Proof.
  induction tokens as [|token rest IH]; [discriminate|].
  cbn [forallb]. intros Hres df w. cbn [snapshot_loop]. unfold bind at 1.
  destruct (resolvable token) eqn:Hr.
  - destruct (to_contract_resolvable token Hr) as (c & Hc). rewrite Hc.
    unfold bind, gets. apply IH. exact Hres.
  - rewrite (to_contract_unresolvable token w Hr). reflexivity.
Qed.

(** X11. When one of the tokens cannot be turned into a contract,
    [take_snapshot] raises after its first print, and the attribute
    [snapshot] is what it was: an earlier snapshot stays in place. *)
Theorem take_snapshot_unresolvable (tokens : list Token) (w : World) :
  forallb resolvable tokens = false ->
  exists e w',
    take_snapshot tokens w = Raise e w'
    /\ snapshot w' = snapshot w
    /\ stdout w' = (stdout w ++ [OText ("snapshotting " ++ self_address ++ "...")])%list.
Proof.
  intros Hres. exists ContractNotFound. eexists. split.
  - unfold take_snapshot. rewrite bind_emit. unfold bind at 1. unfold gets at 1.
    unfold bind at 1. rewrite (snapshot_loop_fail tokens Hres). reflexivity.
  - split; reflexivity.
Qed.

Lemma snapshot_append_address (ch : Chain) (df : SnapshotFrame) (c : Contract) (a : string) :
  In a (address (snapshot_append ch df c)) <-> In a (address df) \/ a = c_address c.
Proof.
  unfold snapshot_append. destruct (str_in (c_address c) (address df)) eqn:Hin; cbn [negb].
  - split; [auto|]. intros [H| ->]; [exact H|]. apply str_in_spec. exact Hin.
  - cbn [address]. rewrite in_app_iff. cbn [In]. split.
    + intros [H|[H|[]]]; auto.
    + intros [H|H]; auto.
Qed.

Lemma snapshot_loop_covers (tokens : list Token) :
  forall (df df' : SnapshotFrame) (w : World),
  snapshot_loop tokens df w = Ok df' w ->
  forall a, In a (address df')
            <-> In a (address df)
                \/ exists token c, In token tokens /\ to_contract token w = Ok c w
                                   /\ c_address c = a.
Proof.
  induction tokens as [|token rest IH]; intros df df' w.
  - cbn. intros [= <-] a. split; [auto|]. intros [H|(t & c & [] & _)]. exact H.
  - cbn [snapshot_loop]. unfold bind at 1.
    destruct (to_contract token w) as [c w1|e w1] eqn:Hc; [|discriminate].
    destruct (to_contract_pure token w w1 c Hc) as [-> _].
    unfold bind, gets. intros Hloop a. rewrite (IH _ _ _ Hloop a), snapshot_append_address.
    split.
    + intros [[H| ->]|(t & c' & Ht & Hc' & Ha)].
      * left. exact H.
      * right. exists token, c. split; [left; reflexivity|]. split; [exact Hc|reflexivity].
      * right. exists t, c'. split; [right; exact Ht|]. split; assumption.
    + intros [H|(t & c' & [<-|Ht] & Hc' & Ha)].
      * left. left. exact H.
      * rewrite Hc in Hc'. injection Hc' as <-. left. right. symmetry. exact Ha.
      * right. exists t, c'. split; [exact Ht|]. split; assumption.
Qed.

(** X10. The rows of a snapshot: the native coin, and the addresses of the
    contracts the tokens stand for, no other; each row holds the symbol,
    the balance and the decimals the chain gives at that time. *)
Theorem take_snapshot_covers (tokens : list Token) (w : World) :
  forallb resolvable tokens = true ->
  exists snap,
    take_snapshot tokens w = Ok tt (snapped w snap)
    /\ snapshot_of (chain w) snap
    /\ forall a, In a (address snap)
                 <-> a = ETH_ADDRESS
                     \/ exists token c, In token tokens /\ to_contract token w = Ok c w
                                        /\ c_address c = a.
Proof.
  intros Hres. unfold take_snapshot. rewrite bind_emit. unfold bind at 1. unfold gets at 1.
  set (w1 := with_stdout w _).
  destruct (snapshot_loop_ok tokens
              (mkFrame [ETH_ADDRESS] [native_label] [account_balance (chain w1)] [18%Z])
              w1 Hres) as (snap & Hrun & _ & _ & Hof).
  - reflexivity.
  - cbn. constructor; [intros []|constructor].
  - unfold snapshot_of, read_symbol, read_balance, read_decimals. cbn.
    rewrite String.eqb_refl. auto.
  - exists snap. unfold bind at 1. rewrite Hrun. split; [reflexivity|].
    split; [exact Hof|]. intros a.
    rewrite (snapshot_loop_covers tokens _ snap w1 Hrun a). cbn [address In]. split.
    + intros [[H|[]]|(t & c & Ht & Hc & Ha)]; [left; symmetry; exact H|].
      right. exists t, c. split; [exact Ht|]. split; [|exact Ha].
      exact (to_contract_any_world t c w1 w Hc).
    + intros [->|(t & c & Ht & Hc & Ha)]; [left; left; reflexivity|].
      right. exists t, c. split; [exact Ht|]. split; [|exact Ha].
      exact (to_contract_any_world t c w w1 Hc).
Qed.

(** What a finished [take_snapshot] stored. *)
Lemma take_snapshot_frame (tokens : list Token) (w0 w1 : World) (snap : SnapshotFrame) :
  take_snapshot tokens w0 = Ok tt w1 -> snapshot w1 = AttrFrame snap ->
  w1 = snapped w0 snap /\ snapshot_of (chain w0) snap.
Proof.
  intros Htake Hsnap1.
  pose proof (take_snapshot_inv tokens w0 w1 tt Htake) as Hres.
  destruct (take_snapshot_ok tokens w0 Hres) as (snap' & Hrun & _ & _ & Hof).
  rewrite Hrun in Htake. injection Htake as <-.
  cbn in Hsnap1. injection Hsnap1 as <-. auto.
Qed.

Lemma select_map_filter {A B C : Type} (f : B -> bool) (g : A -> bool) (h : A -> C)
  (l : list A) (ds : list B) :
  Forall2 (fun a d => f d = g a) l ds ->
  select (map f ds) (map h l) = map h (filter g l).
Proof.
  induction 1 as [|a d l ds Hfd _ IH]; [reflexivity|].
  cbn. rewrite Hfd, IH. destruct (g a); reflexivity.
Qed.

Lemma select_none {A B : Type} (f : B -> bool) (ds : list B) :
  Forall (fun d => f d = false) ds -> forall xs : list A, select (map f ds) xs = [].
Proof.
  induction 1 as [|d ds Hd _ IH]; intros xs; [reflexivity|].
  destruct xs as [|x xs]; [reflexivity|]. cbn. rewrite Hd. apply IH.
Qed.

(** The cells of the delta column tell whether the balance moved. *)
Lemma delta_nonzero_cells (ch0 ch1 : Chain) (snap : SnapshotFrame)
  (deltas : list PyDecimal.Decimal) :
  snapshot_of ch0 snap ->
  balance_delta_column snap (map (read_balance ch1) (address snap)) = Some deltas ->
  Forall2 (fun a delta =>
             PyDecimal.nonzero delta = negb (read_balance ch1 a =? read_balance ch0 a)%Z)
          (address snap) deltas.
Proof.
  intros Hof Hcol.
  pose proof (balance_delta_cells ch0 ch1 snap deltas Hof Hcol) as Hcells.
  eapply Forall2_impl; [|exact Hcells]. cbn beta. intros a delta Hcell.
  destruct (delta_cell (read_balance ch1 a) (read_balance ch0 a) (read_decimals ch0 a))
    as (delta' & Hd' & _ & _ & Hnz).
  rewrite Hd' in Hcell. injection Hcell as <-.
  destruct (Z.eqb_spec (read_balance ch1 a) (read_balance ch0 a)) as [Heq|Hne]; cbn [negb].
  - destruct (PyDecimal.nonzero delta') eqn:Hn; [|reflexivity].
    exfalso. apply Hnz; [reflexivity|exact Heq].
  - apply Hnz. exact Hne.
Qed.

(** X12. The rows of the printed table are the rows of the snapshot whose
    balance is not what it was, in the order of the snapshot: rounding
    never hides a change, however small against the balance. *)
Theorem print_snapshot_rows (tokens : list Token) (w0 w1 w : World)
  (csv_destination : option string) (snap : SnapshotFrame) :
  take_snapshot tokens w0 = Ok tt w1 ->
  snapshot w1 = AttrFrame snap ->
  snapshot w = AttrFrame snap ->
  printable (address snap) = true ->
  exists df w',
    print_snapshot csv_destination w = Ok tt w'
    /\ stdout w' = (stdout w ++ [OText ("snapshot result for " ++ self_address ++ ":");
                                 OTable df])%list
    /\ index df
       = map (read_symbol (chain w0))
             (filter (fun a => negb (read_balance (chain w) a =? read_balance (chain w0) a)%Z)
                     (address snap)).
Proof.
  intros Htake Hsnap1 Hsnap Hprint.
  destruct (take_snapshot_frame tokens w0 w1 snap Htake Hsnap1) as (_ & Hof).
  destruct (calc_deltas_some snap (map (read_balance (chain w)) (address snap)))
    as (deltas & df & Hcol & Hcalc & Hidx & _).
  exists df, (print_effect csv_destination w).
  split; [apply print_snapshot_ok with (snap := snap); assumption|]. split.
  - unfold print_effect, snapshot_lines, printed_frame. rewrite Hsnap, Hcalc. reflexivity.
  - rewrite Hidx. destruct Hof as (Hs & Hm & Hd). rewrite Hs.
    apply select_map_filter.
    apply (delta_nonzero_cells (chain w0) (chain w) snap deltas); [|exact Hcol].
    repeat split; assumption.
Qed.

(** X13. Printed right after it is taken, a snapshot gives a table without
    rows, and with a destination a CSV file with the header alone. *)
Theorem print_snapshot_unchanged (tokens : list Token) (w0 w1 : World)
  (csv_destination : option string) (snap : SnapshotFrame) :
  take_snapshot tokens w0 = Ok tt w1 ->
  snapshot w1 = AttrFrame snap ->
  printable (address snap) = true ->
  exists w',
    print_snapshot csv_destination w1 = Ok tt w'
    /\ stdout w' = (stdout w1 ++ [OText ("snapshot result for " ++ self_address ++ ":");
                                  OTable (mkDelta [] [] [] [])])%list
    /\ files w'
       = (files w1
          ++ (if truthy_str csv_destination
              then [(match csv_destination with Some p => p | None => "" end,
                     CsvFile ["token"; "claimable_amount"] [])]
              else []))%list.
Proof.
  intros Htake Hsnap1 Hprint.
  destruct (take_snapshot_frame tokens w0 w1 snap Htake Hsnap1) as (Hw1 & Hof).
  assert (Hchain : chain w1 = chain w0) by (rewrite Hw1; reflexivity).
  assert (Hframe : printed_frame w1 = Some (mkDelta [] [] [] [])).
  { unfold printed_frame. rewrite Hsnap1. unfold calc_deltas.
    destruct (calc_deltas_some snap (map (read_balance (chain w1)) (address snap)))
      as (deltas & df & Hcol & Hcalc & _).
    unfold calc_deltas in Hcalc. rewrite Hcol in *.
    destruct (col_truediv (map PyDecimal.of_int (mantissa_before snap)) (scale_column snap))
      as [bb|]; [|discriminate].
    destruct (col_truediv (map PyDecimal.of_int (map (read_balance (chain w1)) (address snap)))
                          (scale_column snap)) as [ba|]; [|discriminate].
    assert (Hnone : Forall (fun d => PyDecimal.nonzero d = false) deltas).
    { pose proof (delta_nonzero_cells (chain w0) (chain w1) snap deltas Hof Hcol) as Hcells.
      rewrite Hchain in Hcells. clear -Hcells.
      induction Hcells as [|a d l ds Hd _ IH]; constructor; [|exact IH].
      rewrite Hd, Z.eqb_refl. reflexivity. }
    rewrite !(select_none PyDecimal.nonzero deltas Hnone). reflexivity. }
  exists (print_effect csv_destination w1).
  split; [apply print_snapshot_ok with (snap := snap); assumption|].
  unfold print_effect, csv_files, snapshot_lines. rewrite Hframe.
  cbn [stdout files with_stdout with_files index balance_delta combine].
  split; [reflexivity|].
  destruct csv_destination as [path|]; [|reflexivity].
  destruct (truthy_str (Some path)); reflexivity.
Qed.

End SnapshotMore.

Section BalanceColumns.

Context {E : Env}.

(** One cell of [df['balance_before']] or [df['balance_after']]. *)
Lemma balance_cell (mantissa dec : Z) :
  exists q,
    PyDecimal.truediv (PyDecimal.of_int mantissa) (PyDecimal.ten_pow dec) = Some q
    /\ (Z.abs mantissa < 10 ^ PyDecimal.prec ->
        (PyDecimal.value q == inject_Z mantissa / inject_Z 10 ^ dec)%Q).
Proof.
  destruct (truediv_some (PyDecimal.of_int mantissa) (PyDecimal.ten_pow dec)
              (ten_pow_nonzero dec)) as (q & Hq).
  exists q. split; [exact Hq|]. intros Hsmall.
  destruct (ten_pow_shape dec) as (z & Hz & Hshape). rewrite Hshape in Hq.
  destruct (truediv_pow10 (PyDecimal.of_int mantissa) z (dec - z) Hsmall Hz)
    as (q' & Hq' & Hv & _).
  rewrite Hq in Hq'. injection Hq' as <-.
  replace (dec - z + z) with dec in Hv by lia.
  rewrite Hv, value_of_int. reflexivity.
Qed.

Lemma balance_cells (ch : Chain) (l : list string) (read : string -> Z) (dec : string -> Z)
  (col : list PyDecimal.Decimal) :
  col_truediv (map PyDecimal.of_int (map read l)) (map PyDecimal.ten_pow (map dec l))
  = Some col ->
  Forall2 (fun a b =>
             Z.abs (read a) < 10 ^ PyDecimal.prec ->
             (PyDecimal.value b == inject_Z (read a) / inject_Z 10 ^ dec a)%Q)
          l col.
Proof.
  unfold col_truediv. rewrite !map_map.
  rewrite (combine_map_same (fun a => PyDecimal.of_int (read a))
                            (fun a => PyDecimal.ten_pow (dec a))).
  rewrite map_map. cbn [fst snd]. intros Hcells. apply cells_forall2 in Hcells.
  eapply Forall2_impl; [|exact Hcells]. cbn beta. intros a b Hcell.
  destruct (balance_cell (read a) (dec a)) as (q & Hq & Hv).
  rewrite Hq in Hcell. injection Hcell as <-. exact Hv.
Qed.

(** X14. The two balance columns of the printed table: the rows kept are those
    with a delta, and a cell is the balance in base units divided by
    [10^decimals], exactly, as long as the balance has at most 28 digits.
    [balance_before] is the balance at snapshot time, [balance_after] the
    one read when printing. *)
Theorem print_snapshot_balances (tokens : list Token) (w0 w1 w : World)
  (snap : SnapshotFrame) :
  take_snapshot tokens w0 = Ok tt w1 ->
  snapshot w1 = AttrFrame snap ->
  snapshot w = AttrFrame snap ->
  exists before after deltas df,
    printed_frame w = Some df
    /\ balance_delta_column snap (map (read_balance (chain w)) (address snap)) = Some deltas
    /\ balance_before df = select (map PyDecimal.nonzero deltas) before
    /\ balance_after df = select (map PyDecimal.nonzero deltas) after
    /\ Forall2
         (fun a b =>
            Z.abs (read_balance (chain w0) a) < 10 ^ PyDecimal.prec ->
            (PyDecimal.value b
             == inject_Z (read_balance (chain w0) a)
                / inject_Z 10 ^ read_decimals (chain w0) a)%Q)
         (address snap) before
    /\ Forall2
         (fun a b =>
            Z.abs (read_balance (chain w) a) < 10 ^ PyDecimal.prec ->
            (PyDecimal.value b
             == inject_Z (read_balance (chain w) a)
                / inject_Z 10 ^ read_decimals (chain w0) a)%Q)
         (address snap) after.
Proof.
  intros Htake Hsnap1 Hsnap.
  assert (Hof : snapshot_of (chain w0) snap).
  { pose proof (take_snapshot_inv tokens w0 w1 tt Htake) as Hres.
    destruct (take_snapshot_ok tokens w0 Hres) as (snap' & Hrun & _ & _ & Hof).
    rewrite Hrun in Htake. injection Htake as <-.
    cbn in Hsnap1. injection Hsnap1 as <-. exact Hof. }
  destruct (calc_deltas_some snap (map (read_balance (chain w)) (address snap)))
    as (deltas & df & Hcol & Hcalc & _).
  unfold calc_deltas in Hcalc. rewrite Hcol in Hcalc.
  destruct (col_truediv (map PyDecimal.of_int (mantissa_before snap)) (scale_column snap))
    as [before|] eqn:Hbefore; [|discriminate].
  destruct (col_truediv (map PyDecimal.of_int (map (read_balance (chain w)) (address snap)))
                        (scale_column snap)) as [after|] eqn:Hafter; [|discriminate].
  injection Hcalc as <-.
  exists before, after, deltas. eexists. split.
  { unfold printed_frame, calc_deltas. rewrite Hsnap, Hcol, Hbefore, Hafter. reflexivity. }
  split; [exact Hcol|]. split; [reflexivity|]. split; [reflexivity|].
  destruct Hof as (_ & Hm & Hd). unfold scale_column in Hbefore, Hafter.
  rewrite Hm, Hd in Hbefore. rewrite Hd in Hafter. split.
  - exact (balance_cells (chain w0) (address snap) _ _ before Hbefore).
  - exact (balance_cells (chain w) (address snap) _ _ after Hafter).
Qed.

End BalanceColumns.

(** ** More on the hardware-wallet flows *)

Section WalletMore.

Context {E : Env}.

Lemma find_by_nonce_some (pending : list SafeTx) (n : Z) (safe_tx : SafeTx) :
  find_by_nonce pending n = Some safe_tx ->
  exists before rest,
    pending = (before ++ safe_tx :: rest)%list /\ safe_nonce safe_tx = n
    /\ forall t, In t before -> safe_nonce t <> n.
Proof.
  induction pending as [|t pending IH]; [discriminate|].
  cbn [find_by_nonce]. destruct (Z.eqb_spec (safe_nonce t) n) as [Heq|Hne].
  - intros [= <-]. exists [], pending. split; [reflexivity|]. split; [exact Heq|].
    intros u [].
  - intros Hfind. destruct (IH Hfind) as (before & rest & -> & Hn & Hall).
    exists (t :: before), rest. split; [reflexivity|]. split; [exact Hn|].
    intros u [<-|Hu]; [exact Hne|apply Hall; exact Hu].
Qed.

Lemma find_by_nonce_absent (pending : list SafeTx) (n : Z) :
  find_by_nonce pending n = None ->
  forall t, In t pending -> safe_nonce t <> n.
Proof.
  induction pending as [|t pending IH]; [intros _ u []|].
  cbn [find_by_nonce]. destruct (Z.eqb_spec (safe_nonce t) n) as [Heq|Hne]; [discriminate|].
  intros Hfind u [<-|Hu]; [exact Hne|apply IH; assumption].
Qed.

(** X15. [_get_safe_tx_by_nonce] in every case: it returns the first pending
    transaction of that nonce, raises when no pending transaction has it,
    and changes nothing. *)
Theorem get_safe_tx_by_nonce_first (n : Z) (w : World) :
  match _get_safe_tx_by_nonce n w with
  | Ok safe_tx w' =>
      w' = w
      /\ exists before rest,
           pending_transactions w = (before ++ safe_tx :: rest)%list
           /\ safe_nonce safe_tx = n
           /\ forall t, In t before -> safe_nonce t <> n
  | Raise e w' =>
      e = RuntimeError /\ w' = w
      /\ forall t, In t (pending_transactions w) -> safe_nonce t <> n
  end.
Proof.
  unfold _get_safe_tx_by_nonce, bind, gets.
  destruct (find_by_nonce (pending_transactions w) n) as [safe_tx|] eqn:Hfind.
  - split; [reflexivity|]. apply find_by_nonce_some. exact Hfind.
  - split; [reflexivity|]. split; [reflexivity|]. apply find_by_nonce_absent. exact Hfind.
Qed.

(** X16. [execute_with_frame_hardware_wallet] selects as the signing flow does:
    with a nonce other than 0, the first pending transaction of that nonce,
    and it raises without executing when there is none; with no nonce, the
    first pending transaction, and it raises when nothing is pending. What
    it executes is one transaction, printed first. *)
Theorem execute_with_frame_hardware_wallet_selects (w : World) :
  (forall n, n <> 0 ->
     (forall safe_tx, In safe_tx (pending_transactions w) -> safe_nonce safe_tx <> n) ->
     execute_with_frame_hardware_wallet (Some n) w = Raise RuntimeError w)
  /\ (forall n before safe_tx rest, n <> 0 ->
        pending_transactions w = (before ++ safe_tx :: rest)%list ->
        safe_nonce safe_tx = n ->
        (forall t, In t before -> safe_nonce t <> n) ->
        execute_with_frame_hardware_wallet (Some n) w = Ok tt (executed_world safe_tx w))
  /\ (forall first rest, pending_transactions w = first :: rest ->
        execute_with_frame_hardware_wallet None w = Ok tt (executed_world first w))
  /\ (pending_transactions w = [] ->
        execute_with_frame_hardware_wallet None w = Raise IndexError w).
Proof.
  split; [|split; [|split]].
  - intros n Hn Hall. unfold execute_with_frame_hardware_wallet.
    rewrite (truthy_nonzero n Hn). unfold bind at 1. unfold _get_safe_tx_by_nonce.
    unfold bind at 1. unfold gets. rewrite (find_by_nonce_none _ n Hall). reflexivity.
  - intros n before safe_tx rest Hn Hpending Hnonce Hbefore.
    unfold execute_with_frame_hardware_wallet.
    rewrite (truthy_nonzero n Hn). unfold bind at 1. unfold _get_safe_tx_by_nonce.
    unfold bind at 1. unfold gets. rewrite Hpending.
    rewrite (find_by_nonce_first before rest safe_tx n Hnonce Hbefore). reflexivity.
  - intros first rest Hpending. unfold execute_with_frame_hardware_wallet.
    cbn [truthy_int]. unfold bind at 1. unfold bind at 1. unfold gets.
    rewrite Hpending. reflexivity.
  - intros Hpending. unfold execute_with_frame_hardware_wallet.
    cbn [truthy_int]. unfold bind at 1. unfold bind at 1. unfold gets.
    rewrite Hpending. reflexivity.
Qed.

End WalletMore.

(** ** The text of the log *)

Section StringFacts.

Lemma string_app_nil (s : string) : s ++ "" = s.
Proof. induction s as [|c s IH]; [reflexivity|]. cbn. rewrite IH. reflexivity. Qed.

Lemma string_app_assoc (a b c : string) : (a ++ b) ++ c = a ++ b ++ c.
Proof. induction a as [|x a IH]; [reflexivity|]. cbn. rewrite IH. reflexivity. Qed.

Lemma length_append (s t : string) :
  String.length (s ++ t) = (String.length s + String.length t)%nat.
Proof. induction s as [|c s IH]; [reflexivity|]. cbn. rewrite IH. reflexivity. Qed.

End StringFacts.

Section AnsiFacts.

Import PyRe.

Lemma match_at_plain (c : ascii) (s : string) :
  Ascii.eqb c CSI = false -> Ascii.eqb c ESC = false ->
  match_at ansi_escape (String c s) = None.
Proof.
  intros Hcsi Hesc. unfold match_at, ansi_escape. cbn [match_then strip_prefix].
  rewrite Ascii.eqb_sym, Hcsi. rewrite Ascii.eqb_sym, Hesc. reflexivity.
Qed.

Lemma remove_plain (s : string) : plain s = true -> remove_from ansi_escape 0 s = s.
Proof.
  induction s as [|c s IH]; [reflexivity|].
  unfold plain. cbn [list_ascii_of_string forallb]. intros H.
  apply andb_true_iff in H as [Hc Hs]. apply andb_true_iff in Hc as [Hcsi Hesc].
  apply negb_true_iff in Hcsi, Hesc.
  cbn [remove_from]. rewrite (match_at_plain c s Hcsi Hesc), (IH Hs). reflexivity.
Qed.

(** X17. Text without the characters ESC and CSI goes to the log as it is. *)
Theorem remove_ansi_escapes_plain (text : string) :
  plain text = true -> remove_ansi_escapes text = text.
Proof. apply remove_plain. Qed.

Lemma remove_from_app_plain (s rest : string) :
  plain s = true ->
  remove_from ansi_escape 0 (s ++ rest) = s ++ remove_from ansi_escape 0 rest.
Proof.
  induction s as [|c s IH]; [reflexivity|].
  unfold plain. cbn [list_ascii_of_string forallb]. intros H.
  apply andb_true_iff in H as [Hc Hs]. apply andb_true_iff in Hc as [Hcsi Hesc].
  apply negb_true_iff in Hcsi, Hesc.
  cbn [append remove_from]. rewrite (match_at_plain c _ Hcsi Hesc), (IH Hs). reflexivity.
Qed.

Lemma remove_from_skip (r : regex) (s rest : string) :
  remove_from r (String.length s) (s ++ rest) = remove_from r 0 rest.
Proof.
  induction s as [|c s IH]; [reflexivity|]. cbn [String.length append remove_from]. exact IH.
Qed.

(** The star of a set takes all of a run of the set, when what follows
    lets the rest of the pattern match. *)
Lemma star_run {A : Type} (lo hi : ascii) (k : string -> option A) (run rest : string)
  (x : A) :
  all_in lo hi run = true -> k rest = Some x ->
  (match rest with
   | String c _ => in_range lo hi c = false
   | EmptyString => True
   end) ->
  match_then (StarRange lo hi) k (run ++ rest) = Some x.
Proof.
  intros Hrun Hk Hstop. induction run as [|c run IH].
  - cbn [append match_then]. destruct rest as [|c rest]; [exact Hk|].
    rewrite Hstop. exact Hk.
  - unfold all_in in Hrun. cbn [list_ascii_of_string forallb] in Hrun.
    apply andb_true_iff in Hrun as [Hc Hrun].
    cbn [append match_then]. rewrite Hc.
    cbn [match_then] in IH. rewrite (IH Hrun). reflexivity.
Qed.

Lemma range_disjoint (lo1 hi1 lo2 hi2 c : ascii) :
  (N_of_ascii hi1 < N_of_ascii lo2)%N \/ (N_of_ascii hi2 < N_of_ascii lo1)%N ->
  in_range lo2 hi2 c = true -> in_range lo1 hi1 c = false.
Proof.
  unfold in_range. intros Hd H. apply andb_true_iff in H as [H1 H2].
  apply N.leb_le in H1, H2. apply andb_false_iff.
  destruct Hd as [Hd|Hd]; [right|left]; apply N.leb_gt; lia.
Qed.

Lemma strip_prefix_app (p s : string) : strip_prefix p (p ++ s) = Some s.
Proof.
  induction p as [|c p IH]; [reflexivity|]. cbn. rewrite Ascii.eqb_refl. exact IH.
Qed.

Lemma match_then_lit {A : Type} (p : string) (k : string -> option A) (s : string) :
  match_then (Lit p) k (p ++ s) = k s.
Proof. cbn [match_then]. rewrite strip_prefix_app. reflexivity. Qed.

Lemma match_at_ansi (s : string) :
  match_at ansi_escape s
  = match match_then (Lit (String CSI ""))
            (match_then (Seq (StarRange "0" "?")
                           (Seq (StarRange " " "/") (Range "@" "~")))
                        (fun rest => Some rest)) s with
    | Some x => Some x
    | None =>
        match_then (Lit (String ESC "["))
          (match_then (Seq (StarRange "0" "?")
                         (Seq (StarRange " " "/") (Range "@" "~")))
                      (fun rest => Some rest)) s
    end.
Proof. reflexivity. Qed.

(** The pattern matches a whole escape sequence at the start of a text. *)
Lemma match_at_sequence (intro params inter : string) (final : ascii) (rest : string) :
  introducer intro = true ->
  all_in "0" "?" params = true -> all_in " " "/" inter = true ->
  in_range "@" "~" final = true ->
  match_at ansi_escape (intro ++ params ++ inter ++ String final rest) = Some rest.
Proof.
  intros Hintro Hparams Hinter Hfinal.
  assert (Htail : forall k : string -> option string, k rest = Some rest ->
            match_then (Seq (StarRange "0" "?")
                          (Seq (StarRange " " "/") (Range "@" "~"))) k
                       (params ++ inter ++ String final rest) = Some rest).
  { intros k Hk. cbn [match_then].
    change (match_then (StarRange "0" "?")
              (match_then (StarRange " " "/") (match_then (Range "@" "~") k))
              (params ++ inter ++ String final rest) = Some rest).
    apply star_run; [exact Hparams| |].
    - apply star_run; [exact Hinter| |].
      + cbn [match_then]. rewrite Hfinal. exact Hk.
      + apply (range_disjoint _ _ "@" "~"); [left; cbn; lia|exact Hfinal].
    - destruct inter as [|c inter]; cbn [append].
      + apply (range_disjoint _ _ "@" "~"); [left; cbn; lia|exact Hfinal].
      + unfold all_in in Hinter. cbn [list_ascii_of_string forallb] in Hinter.
        apply andb_true_iff in Hinter as [Hc _].
        apply (range_disjoint _ _ " " "/"); [right; cbn; lia|exact Hc]. }
  unfold introducer in Hintro. apply orb_true_iff in Hintro.
  rewrite match_at_ansi.
  destruct Hintro as [H|H]; apply String.eqb_eq in H; subst intro.
  - rewrite match_then_lit, (Htail (fun rest => Some rest) eq_refl). reflexivity.
  - replace (match_then (Lit (String CSI "")) _ _) with (@None string) by reflexivity.
    rewrite match_then_lit. apply (Htail (fun rest => Some rest) eq_refl).
Qed.

(** X18. An escape sequence is dropped as a whole, and the text before it, when
    it has no ESC or CSI, is kept: colour codes around plain text leave the
    plain text. *)
Theorem remove_ansi_escapes_sequence
  (before intro params inter : string) (final : ascii) (rest : string) :
  plain before = true -> introducer intro = true ->
  all_in "0" "?" params = true -> all_in " " "/" inter = true ->
  PyRe.in_range "@" "~" final = true ->
  remove_ansi_escapes (before ++ intro ++ params ++ inter ++ String final rest)
  = before ++ remove_ansi_escapes rest.
Proof.
  intros Hbefore Hintro Hparams Hinter Hfinal. unfold remove_ansi_escapes, remove.
  rewrite (remove_from_app_plain before _ Hbefore). f_equal.
  pose proof (match_at_sequence intro params inter final rest Hintro Hparams Hinter Hfinal)
    as Hmatch.
  set (seq := intro ++ params ++ inter ++ String final "").
  assert (Hseq : intro ++ params ++ inter ++ String final rest = seq ++ rest).
  { subst seq. rewrite !string_app_assoc. reflexivity. }
  rewrite Hseq in *. clear Hseq.
  assert (Hlen : exists c tail, seq = String c tail).
  { subst seq. unfold introducer in Hintro. apply orb_true_iff in Hintro.
    destruct Hintro as [H|H]; apply String.eqb_eq in H; subst intro;
      eexists; eexists; reflexivity. }
  destruct Hlen as (c & tail & Hshape). rewrite Hshape in *.
  cbn [append remove_from]. cbn [append] in Hmatch. rewrite Hmatch.
  cbn [String.length]. rewrite length_append.
  replace (S (String.length tail + String.length rest) - String.length rest)%nat
    with (S (String.length tail)) by lia.
  apply remove_from_skip.
Qed.

Lemma remove_from_mask (r : regex) (s : string) :
  forall skip, exists mask,
    List.length mask = String.length s
    /\ list_ascii_of_string (remove_from r skip s) = select mask (list_ascii_of_string s).
Proof.
  induction s as [|c s IH]; intros skip.
  - exists []. split; reflexivity.
  - cbn [remove_from]. 
    assert (Hdrop : forall n, exists mask,
              List.length mask = String.length (String c s)
              /\ list_ascii_of_string (remove_from r n s)
                 = select mask (list_ascii_of_string (String c s))).
    { intros n. destruct (IH n) as (mask & Hlen & Hmask). exists (false :: mask).
      split; [cbn; rewrite Hlen; reflexivity|exact Hmask]. }
    assert (Hkeep : exists mask,
              List.length mask = String.length (String c s)
              /\ list_ascii_of_string (String c (remove_from r 0 s))
                 = select mask (list_ascii_of_string (String c s))).
    { destruct (IH 0%nat) as (mask & Hlen & Hmask). exists (true :: mask).
      split; [cbn; rewrite Hlen; reflexivity|]. cbn. rewrite Hmask. reflexivity. }
    destruct skip as [|n]; [|apply Hdrop].
    destruct (match_at r (String c s)) as [remaining|]; [|exact Hkeep].
    destruct (String.length (String c s) - String.length remaining)%nat; [exact Hkeep|apply Hdrop].
Qed.

(** X19. [remove_ansi_escapes] only drops characters: what it returns is the
    text with some positions left out, in the same order. *)
Theorem remove_ansi_escapes_drops (text : string) :
  exists mask,
    List.length mask = String.length text
    /\ list_ascii_of_string (remove_ansi_escapes text)
       = select mask (list_ascii_of_string text).
Proof. apply remove_from_mask. Qed.

End AnsiFacts.

(** ** The pasted signatures *)

Section HexFacts.

Import PyBytes.

Lemma hex_digit_value (n : N) : (n < 16)%N -> hex_value (hex_digit n) = Some n.
Proof.
  intros Hn. destruct n as [|p]; [reflexivity|].
  do 4 (try destruct p as [p|p|]); try reflexivity; exfalso; lia.
Qed.

Lemma hex_digit_not_space (n : N) : (n < 16)%N -> isspace (hex_digit n) = false.
Proof.
  intros Hn. destruct n as [|p]; [reflexivity|].
  do 4 (try destruct p as [p|p|]); try reflexivity; exfalso; lia.
Qed.

Lemma byte_of_nibbles (x : byte) :
  byte_of_ascii (ascii_of_N (16 * (Byte.to_N x / 16) + Byte.to_N x mod 16)) = x.
Proof. destruct x; reflexivity. Qed.

Lemma fromhex_hex (b : list byte) : fromhex (hex b) = Some b.
Proof.
  induction b as [|x b IH]; [reflexivity|].
  cbn [hex fromhex].
  assert (Hx : (Byte.to_N x < 256)%N) by (destruct x; cbn; lia).
  assert (Hhi : (Byte.to_N x / 16 < 16)%N) by (apply N.Div0.div_lt_upper_bound; lia).
  assert (Hlo : (Byte.to_N x mod 16 < 16)%N) by (apply N.mod_lt; lia).
  rewrite (hex_digit_not_space _ Hhi), (hex_digit_value _ Hhi), (hex_digit_value _ Hlo), IH.
  cbn [option_map]. rewrite byte_of_nibbles. reflexivity.
Qed.

(** X23. Round trip of the signatures between signers: what one signer shows
    as [safe_tx.signatures.hex()] and the next one pastes at the prompt
    gives back the same bytes. *)
Theorem paste_signatures_hex (safe_tx : SafeTx) (sigs : list byte) :
  paste_signatures safe_tx (hex sigs) = inr (set_signatures safe_tx sigs).
Proof. unfold paste_signatures. rewrite fromhex_hex. reflexivity. Qed.

Lemma fromhex_blank (s : string) :
  forallb isspace (list_ascii_of_string s) = true -> fromhex s = Some [].
Proof.
  induction s as [|c s IH]; [reflexivity|].
  cbn [list_ascii_of_string forallb fromhex]. intros H.
  apply andb_true_iff in H as [-> Hs]. apply IH. exact Hs.
Qed.

(** X24. The edges of the prompt: an empty or blank answer gives the empty
    signatures of a first signer; an answer that starts with [0x] raises
    [ValueError], whatever follows. *)
Theorem paste_signatures_edges (safe_tx : SafeTx) :
  (forall blank, forallb isspace (list_ascii_of_string blank) = true ->
     paste_signatures safe_tx blank = inr (set_signatures safe_tx []))
  /\ (forall rest, paste_signatures safe_tx ("0x" ++ rest) = inl ValueError).
Proof.
  split.
  - intros blank Hblank. unfold paste_signatures. rewrite (fromhex_blank blank Hblank).
    reflexivity.
  - intros rest. reflexivity.
Qed.

End HexFacts.

(** ** The figures of the table *)

Section FormatFacts.

Import PyDecimal PyFormat.

Lemma length_fixed (w : nat) : forall n, String.length (fixed w n) = w.
Proof.
  induction w as [|w IH]; intros n; [reflexivity|].
  cbn [fixed]. rewrite length_append, IH. cbn. lia.
Qed.

Lemma length_zeros (n : nat) : String.length (zeros n) = n.
Proof. induction n as [|n IH]; [reflexivity|]. cbn. rewrite IH. reflexivity. Qed.

Lemma zeros_snoc (n : nat) : zeros n ++ "0" = zeros (S n).
Proof. induction n as [|n IH]; [reflexivity|]. cbn [zeros append]. rewrite IH. reflexivity. Qed.

Lemma fixed_zero (w : nat) : fixed w 0 = zeros w.
Proof.
  induction w as [|w IH]; [reflexivity|].
  cbn [fixed]. change (0 / 10) with 0. rewrite IH. apply zeros_snoc.
Qed.

Lemma fixed_split (a b : nat) :
  forall n, fixed (a + b) n = fixed a (n / 10 ^ Z.of_nat b) ++ fixed b n.
Proof.
  induction b as [|b IH]; intros n.
  - rewrite Nat.add_0_r. cbn [fixed Z.of_nat]. rewrite Z.pow_0_r, Z.div_1_r, string_app_nil.
    reflexivity.
  - rewrite Nat.add_succ_r. cbn [fixed]. rewrite IH, string_app_assoc.
    rewrite Z.div_div by (try lia; apply Z.pow_pos_nonneg; lia).
    replace (10 * 10 ^ Z.of_nat b) with (10 ^ Z.of_nat (S b)); [reflexivity|].
    rewrite Nat2Z.inj_succ, Z.pow_succ_r by lia. reflexivity.
Qed.

Lemma fixed_small (a b : nat) (n : Z) :
  0 <= n < 10 ^ Z.of_nat b -> fixed (a + b) n = zeros a ++ fixed b n.
Proof.
  intros Hn. rewrite fixed_split, Z.div_small by exact Hn. rewrite fixed_zero. reflexivity.
Qed.

Lemma fixed_mod (w : nat) : forall n, fixed w (n mod 10 ^ Z.of_nat w) = fixed w n.
Proof.
  induction w as [|w IH]; intros n; [reflexivity|].
  cbn [fixed]. rewrite Nat2Z.inj_succ, Z.pow_succ_r by lia.
  assert (Hpos : 0 < 10 ^ Z.of_nat w) by (apply Z.pow_pos_nonneg; lia).
  rewrite Z.rem_mul_r by lia.
  pose proof (Z.mod_pos_bound n 10 ltac:(lia)) as Hd.
  set (X := (n / 10) mod 10 ^ Z.of_nat w).
  replace ((n mod 10 + 10 * X) / 10) with X.
  2:{ rewrite (Z.mul_comm 10 X), Z.div_add by lia.
      rewrite (Z.div_small (n mod 10)) by lia. lia. }
  replace ((n mod 10 + 10 * X) mod 10) with (n mod 10).
  2:{ rewrite (Z.mul_comm 10 X), Z.mod_add by lia. rewrite Z.mod_mod by lia.
      reflexivity. }
  subst X.
  rewrite IH. reflexivity.
Qed.

Lemma take_app (a b : string) : take (String.length a) (a ++ b) = a.
Proof. induction a as [|c a IH]; [destruct b; reflexivity|]. cbn. rewrite IH. reflexivity. Qed.

Lemma drop_app (a b : string) : drop (String.length a) (a ++ b) = b.
Proof. induction a as [|c a IH]; [destruct b; reflexivity|]. cbn. exact IH. Qed.

Lemma length_str (n : Z) : String.length (str n) = Z.to_nat (ndigits n).
Proof. unfold str. apply length_fixed. Qed.

Lemma ndigits_div (c k : Z) :
  0 <= k -> 10 ^ k <= c -> ndigits (c / 10 ^ k) = ndigits c - k.
Proof.
  intros Hk Hc. assert (Hpos : 0 < 10 ^ k) by (apply Z.pow_pos_nonneg; lia).
  destruct (ndigits_spec c ltac:(lia)) as (H1 & H2 & H3). specialize (H3 ltac:(lia)).
  set (L := ndigits c) in *.
  assert (HkL : k < L) by (apply ndigits_gt; assumption).
  assert (Hq : 1 <= c / 10 ^ k) by (apply Z.div_le_lower_bound; lia).
  assert (Hup : c / 10 ^ k < 10 ^ (L - k)).
  { apply Z.div_lt_upper_bound; [lia|]. rewrite <- Z.pow_add_r by lia.
    replace (k + (L - k)) with L by lia. exact H2. }
  assert (Hlow : 10 ^ (L - k - 1) <= c / 10 ^ k).
  { apply Z.div_le_lower_bound; [lia|]. rewrite <- Z.pow_add_r by lia.
    replace (k + (L - k - 1)) with (L - 1) by lia. exact H3. }
  pose proof (ndigits_le (c / 10 ^ k) (L - k) ltac:(lia) ltac:(lia) Hup).
  pose proof (ndigits_gt (c / 10 ^ k) (L - k - 1) ltac:(lia) Hlow).
  lia.
Qed.

Lemma str_split (c k : Z) :
  0 <= k -> 10 ^ k <= c -> str c = str (c / 10 ^ k) ++ fixed (Z.to_nat k) c.
Proof.
  intros Hk Hc. unfold str. rewrite (ndigits_div c k Hk Hc).
  assert (HkL : k < ndigits c) by (apply ndigits_gt; assumption).
  replace (Z.to_nat (ndigits c)) with (Z.to_nat (ndigits c - k) + Z.to_nat k)%nat by lia.
  rewrite fixed_split, Z2Nat.id by lia. reflexivity.
Qed.

Lemma exp_rescale (d : Decimal) (e : Z) : exp (rescale d e) = e.
Proof.
  unfold rescale. destruct (Z.abs (coef d) =? 0)%Z; [reflexivity|].
  destruct (e <=? exp d)%Z; reflexivity.
Qed.

Lemma fixed_nonempty (w : nat) (n : Z) : (0 < w)%nat -> fixed w n <> "".
Proof.
  intros Hw Heq. pose proof (length_fixed w n) as Hlen. rewrite Heq in Hlen. cbn in Hlen. lia.
Qed.

(** The two parts [format_f] cuts the digits into, at 18 places. *)
Lemma format_f_parts (d : Decimal) :
  let c := Z.abs (coef (rescale d (-18))) in
  format_f 18 d
  = format_number (coef d <? 0)%Z (str (c / 10 ^ 18)) (fixed 18 (c mod 10 ^ 18)).
Proof.
  intros c. unfold format_f. change (Z.opp 18) with (-18). rewrite exp_rescale. fold c.
  rewrite length_str.
  assert (Hc : 0 <= c) by (subst c; lia).
  destruct (ndigits_spec c Hc) as (H1 & H2 & H3).
  rewrite Z2Nat.id by lia. set (L := ndigits c) in *.
  change (10 ^ Z.of_nat 18) with (10 ^ 18) in *.
  destruct (Z.ltb_spec (-18 + L) 0) as [Hneg|Hnonneg].
  - cbn [fst snd].
    assert (Hsmall : c < 10 ^ 17).
    { eapply Z.lt_le_trans; [exact H2|]. apply Z.pow_le_mono_r; lia. }
    rewrite (Z.div_small c (10 ^ 18)) by lia. rewrite Z.mod_small by lia.
    assert (Heq : fixed 18 c = zeros (Z.to_nat (- (-18 + L))) ++ fixed (Z.to_nat L) c).
    { rewrite <- (fixed_small (Z.to_nat (- (-18 + L))) (Z.to_nat L) c).
      - f_equal. lia.
      - rewrite Z2Nat.id by lia. lia. }
    rewrite Heq. reflexivity.
  - destruct (Z.ltb_spec L (-18 + L)) as [Himp|_]; [lia|]. cbn [fst snd].
    destruct (Z.eq_dec L 18) as [HL|HL].
    + assert (Hsmall : c < 10 ^ 18) by (rewrite <- HL; exact H2).
      rewrite (Z.div_small c (10 ^ 18)) by lia. rewrite Z.mod_small by lia.
      replace (Z.to_nat (-18 + L)) with 0%nat by lia.
      assert (Hs : take 0 (str c) = "") by (destruct (str c); reflexivity).
      assert (Hd : drop 0 (str c) = str c) by (destruct (str c); reflexivity).
      rewrite Hs, Hd. change (str 0) with "0". unfold str. fold L. rewrite HL.
      reflexivity.
    + assert (Hbig : 10 ^ 18 <= c).
      { assert (0 < c).
        { destruct (Z.eq_dec c 0) as [Hz|]; [|lia]. subst L. rewrite Hz in *. cbn in *. lia. }
        eapply Z.le_trans; [|apply H3; assumption]. apply Z.pow_le_mono_r; lia. }
      rewrite (str_split c 18 ltac:(lia) Hbig).
      assert (Hlen : String.length (str (c / 10 ^ 18)) = Z.to_nat (-18 + L)).
      { rewrite length_str, (ndigits_div c 18 ltac:(lia) Hbig). fold L. lia. }
      rewrite <- Hlen, take_app, drop_app.
      change (Z.to_nat 18) with 18%nat.
      rewrite <- (fixed_mod 18 c). change (10 ^ Z.of_nat 18) with (10 ^ 18).
      destruct (str (c / 10 ^ 18)) eqn:Hstr; [|reflexivity].
      exfalso. change (String.length "") with 0%nat in Hlen. lia.
Qed.

(** *** The rounding of [rescale] *)

Lemma rescale_exact (d : Decimal) (e : Z) :
  e <= exp d -> coef (rescale d e) = coef d * 10 ^ (exp d - e).
Proof.
  intros He. unfold rescale. destruct (Z.eqb_spec (Z.abs (coef d)) 0) as [Hz|Hnz].
  - cbn [coef]. assert (coef d = 0) by lia. rewrite H. reflexivity.
  - destruct (Z.leb_spec e (exp d)); [reflexivity|lia].
Qed.

Lemma rescale_round (d : Decimal) (e : Z) :
  exp d < e ->
  let k := e - exp d in
  let m := Z.abs (coef (rescale d e)) in
  2 * Z.abs (m * 10 ^ k - Z.abs (coef d)) <= 10 ^ k
  /\ (2 * Z.abs (m * 10 ^ k - Z.abs (coef d)) = 10 ^ k -> Z.even m = true).
Proof.
  intros He k m. subst m. unfold rescale.
  assert (Hk : 1 <= k) by (subst k; lia).
  assert (Hpow : 10 ^ k = 10 * 10 ^ (k - 1)).
  { replace k with ((k - 1) + 1) at 1 by lia. apply pow10_succ. lia. }
  assert (Hpos : 0 < 10 ^ (k - 1)) by (apply Z.pow_pos_nonneg; lia).
  destruct (Z.eqb_spec (Z.abs (coef d)) 0) as [Hz|Hnz].
  { cbn [coef]. rewrite Hz. cbn [Z.abs Z.mul]. split; [cbn; lia|]. intros _. reflexivity. }
  destruct (Z.leb_spec e (exp d)) as [Hle|_]; [lia|].
  assert (Hsgn : forall x, 0 <= x -> Z.abs (Z.sgn (coef d) * x) = x).
  { intros x Hx. destruct (coef d) as [|p|p]; cbn [Z.sgn]; lia. }
  set (c := Z.abs (coef d)) in *.
  assert (Hc : 0 < c) by (subst c; lia).
  destruct (Z.ltb_spec (ndigits c + exp d - e) 0) as [Hfew|Hmany].
  - (* fewer digits than none: the coefficient 1 at e-1 rounds to 0 *)
    change (1 / 10 ^ 1) with 0. change (1 mod 10 ^ 1) with 1.
    change (5 * 10 ^ (1 - 1)) with 5.
    change ((5 <? 1)%Z || ((1 =? 5)%Z && Z.odd 0)) with false. cbn [coef].
    rewrite Z.mul_0_r. change (Z.abs 0) with 0. rewrite Z.mul_0_l.
    destruct (ndigits_spec c ltac:(lia)) as (H1 & H2 & _).
    assert (Hlt : c < 10 ^ (k - 1)).
    { eapply Z.lt_le_trans; [exact H2|]. apply Z.pow_le_mono_r; subst k; lia. }
    change (0 - c) with (- c). rewrite Z.abs_opp, (Z.abs_eq c) by lia.
    split; [lia|]. intros Htie. lia.
  - fold k.
    set (q := c / 10 ^ k). set (r := c mod 10 ^ k).
    assert (Hdm : c = 10 ^ k * q + r) by (apply Z.div_mod; lia).
    assert (Hr : 0 <= r < 10 ^ k) by (apply Z.mod_pos_bound; lia).
    assert (Hq : 0 <= q) by (apply Z.div_pos; lia).
    destruct (Z.ltb_spec (5 * 10 ^ (k - 1)) r) as [Hup|Hnup]; cbn [orb coef].
    + rewrite Hsgn by lia.
      replace ((q + 1) * 10 ^ k - c) with (10 ^ k - r) by lia.
      rewrite Z.abs_eq by lia. split; [lia|]. intros Htie. lia.
    + destruct (Z.eqb_spec r (5 * 10 ^ (k - 1))) as [Htie|Hntie]; cbn [andb].
      * destruct (Z.odd q) eqn:Hodd.
        -- rewrite Hsgn by lia.
           replace ((q + 1) * 10 ^ k - c) with (10 ^ k - r) by lia.
           rewrite Z.abs_eq by lia. split; [lia|]. intros _.
           rewrite Z.even_add, <- Z.negb_odd, Hodd. reflexivity.
        -- rewrite Hsgn by lia.
           replace (q * 10 ^ k - c) with (- r) by lia.
           rewrite Z.abs_opp, Z.abs_eq by lia. split; [lia|]. intros _.
           rewrite <- Z.negb_odd, Hodd. reflexivity.
      * rewrite Hsgn by lia.
        replace (q * 10 ^ k - c) with (- r) by lia.
        rewrite Z.abs_opp, Z.abs_eq by lia. split; [lia|]. intros Htie. lia.
Qed.

(** *** Reading the digits back *)

Lemma digit_char_spec (x : Z) :
  0 <= x <= 9 ->
  PyStr.isdigit (digit_char x) = true /\ PyStr.digit_value (digit_char x) = x
  /\ PyStr.isspace (digit_char x) = false
  /\ digit_char x <> ","%char.
Proof.
  intros Hx. destruct x as [|p|p]; [repeat split; discriminate| |lia].
  do 4 (try destruct p as [p|p|]); try lia; repeat split; discriminate.
Qed.

Lemma mod10_digit (n : Z) : 0 <= n mod 10 <= 9.
Proof. pose proof (Z.mod_pos_bound n 10 ltac:(lia)). lia. Qed.

Lemma digits_fixed (w : nat) :
  forall n acc prev rest,
  PyStr.digits acc prev (fixed w n ++ rest)
  = PyStr.digits (acc * 10 ^ Z.of_nat w + n mod 10 ^ Z.of_nat w)
                 (match w with O => prev | S _ => true end) rest.
Proof.
  induction w as [|w IH]; intros n acc prev rest.
  - cbn [fixed append Z.of_nat]. rewrite Z.pow_0_r, Z.mod_1_r. f_equal. lia.
  - cbn [fixed]. rewrite string_app_assoc. cbn [append]. rewrite IH.
    destruct (digit_char_spec (n mod 10) (mod10_digit n)) as (Hd & Hv & _).
    cbn [PyStr.digits]. rewrite Hd, Hv. f_equal.
    rewrite Nat2Z.inj_succ, Z.pow_succ_r by lia.
    assert (Hpos : 0 < 10 ^ Z.of_nat w) by (apply Z.pow_pos_nonneg; lia).
    rewrite (Z.rem_mul_r n 10 (10 ^ Z.of_nat w)) by lia. lia.
Qed.

Lemma chars_app (a b : string) :
  list_ascii_of_string (a ++ b) = (list_ascii_of_string a ++ list_ascii_of_string b)%list.
Proof. induction a as [|c a IH]; [reflexivity|]. cbn. rewrite IH. reflexivity. Qed.

Lemma fixed_chars (w : nat) :
  forall n c, In c (list_ascii_of_string (fixed w n)) ->
  exists x, 0 <= x <= 9 /\ c = digit_char x.
Proof.
  induction w as [|w IH]; intros n c; [intros []|].
  cbn [fixed]. rewrite chars_app, in_app_iff. cbn [list_ascii_of_string In].
  intros [H|[<-|[]]]; [exact (IH _ _ H)|].
  exists (n mod 10). split; [apply mod10_digit|reflexivity].
Qed.

Lemma rstrip_nospace (s : string) :
  (forall c, In c (list_ascii_of_string s) -> PyStr.isspace c = false) ->
  PyStr.rstrip s = s.
Proof.
  induction s as [|a s IH]; [reflexivity|]. intros Hall.
  cbn [PyStr.rstrip]. rewrite IH by (intros c Hc; apply Hall; right; exact Hc).
  destruct s as [|b s]; [|reflexivity].
  rewrite (Hall a (or_introl eq_refl)). reflexivity.
Qed.

Lemma to_int_digit_string (s : string) :
  s <> "" ->
  (forall c, In c (list_ascii_of_string s) -> exists x, 0 <= x <= 9 /\ c = digit_char x) ->
  PyStr.to_int s = PyStr.digits 0 false s.
Proof.
  intros Hne Hall.
  assert (Hspace : forall c, In c (list_ascii_of_string s) -> PyStr.isspace c = false).
  { intros c Hc. destruct (Hall c Hc) as (x & Hx & ->). apply digit_char_spec. exact Hx. }
  unfold PyStr.to_int, PyStr.strip.
  destruct s as [|a s]; [contradiction|].
  assert (Hl : PyStr.lstrip (String a s) = String a s).
  { cbn [PyStr.lstrip]. rewrite (Hspace a (or_introl eq_refl)). reflexivity. }
  rewrite Hl, (rstrip_nospace _ Hspace).
  destruct (Hall a (or_introl eq_refl)) as (x & Hx & ->).
  destruct x as [|p|p]; [reflexivity| |lia].
  do 4 (try destruct p as [p|p|]); try lia; reflexivity.
Qed.

Lemma str_nonempty (n : Z) : 0 <= n -> str n <> "".
Proof.
  intros Hn. unfold str. apply fixed_nonempty.
  destruct (ndigits_spec n Hn) as (H1 & _). lia.
Qed.

Lemma to_int_parts (c : Z) :
  0 <= c -> PyStr.to_int (str (c / 10 ^ 18) ++ fixed 18 (c mod 10 ^ 18)) = Some c.
Proof.
  intros Hc.
  assert (Hq : 0 <= c / 10 ^ 18) by (apply Z.div_pos; lia).
  rewrite to_int_digit_string.
  - unfold str. rewrite digits_fixed.
    rewrite <- (string_app_nil (fixed 18 (c mod 10 ^ 18))), digits_fixed.
    destruct (ndigits_spec (c / 10 ^ 18) Hq) as (H1 & H2 & _).
    rewrite Z2Nat.id by lia. rewrite (Z.mod_small (c / 10 ^ 18)) by lia.
    change (10 ^ Z.of_nat 18) with (10 ^ 18). rewrite Z.mod_mod by lia.
    destruct (Z.to_nat (ndigits (c / 10 ^ 18))); cbn [PyStr.digits]; f_equal;
      pose proof (Z.div_mod c (10 ^ 18) ltac:(lia)); lia.
  - intros Heq. apply (str_nonempty (c / 10 ^ 18) Hq).
    destruct (str (c / 10 ^ 18)); [reflexivity|discriminate].
  - intros a. rewrite chars_app, in_app_iff. unfold str.
    intros [H|H]; exact (fixed_chars _ _ _ H).
Qed.

(** *** The groups of three *)

Lemma take_drop (n : nat) : forall s, take n s ++ drop n s = s.
Proof.
  induction n as [|n IH]; intros s; [destruct s; reflexivity|].
  destruct s as [|c s]; [reflexivity|]. cbn. rewrite IH. reflexivity.
Qed.

Lemma length_take (n : nat) : forall s, String.length (take n s) = Nat.min n (String.length s).
Proof.
  induction n as [|n IH]; intros s; [destruct s; reflexivity|].
  destruct s as [|c s]; [reflexivity|]. cbn. rewrite IH. reflexivity.
Qed.

Lemma length_drop (n : nat) : forall s, String.length (drop n s) = (String.length s - n)%nat.
Proof.
  induction n as [|n IH]; intros s; [destruct s; reflexivity|].
  destruct s as [|c s]; [reflexivity|]. cbn. apply IH.
Qed.

Lemma concat_empty_cons (x : string) (xs : list string) :
  String.concat "" (x :: xs) = x ++ String.concat "" xs.
Proof. destruct xs; [cbn; rewrite string_app_nil; reflexivity|reflexivity]. Qed.

Lemma concat_empty_app (l1 l2 : list string) :
  String.concat "" (l1 ++ l2) = String.concat "" l1 ++ String.concat "" l2.
Proof.
  induction l1 as [|x l1 IH]; [reflexivity|].
  change ((x :: l1) ++ l2)%list with (x :: (l1 ++ l2))%list.
  rewrite !concat_empty_cons, IH, string_app_assoc. reflexivity.
Qed.

Lemma group_loop_spec (fuel : nat) :
  forall digits groups,
  digits <> "" -> (String.length digits < fuel)%nat ->
  exists first rest,
    group_loop fuel digits groups = (first :: rest ++ groups)%list
    /\ String.concat "" (first :: rest) = digits
    /\ (1 <= String.length first <= 3)%nat
    /\ Forall (fun g => String.length g = 3%nat) rest.
Proof.
  induction fuel as [|f IH]; intros digits groups Hne Hlen; [lia|].
  assert (Hpos : (1 <= String.length digits)%nat).
  { destruct digits; [contradiction|cbn; lia]. }
  cbn [group_loop]. set (len := String.length digits) in *.
  destruct (le_lt_dec len 3) as [Hshort|Hlong].
  - replace (Nat.min (Nat.max len 1) 3) with len by lia.
    replace (len - len)%nat with 0%nat by lia.
    assert (Ht : take 0 digits = "") by (destruct digits; reflexivity).
    assert (Hd : drop 0 digits = digits) by (destruct digits; reflexivity).
    rewrite Ht, Hd. cbn [zeros append].
    exists digits, []. split; [reflexivity|]. split; [reflexivity|].
    split; [fold len; lia|constructor].
  - replace (Nat.min (Nat.max len 1) 3) with 3%nat by lia.
    replace (3 - len)%nat with 0%nat by lia. cbn [zeros append].
    set (group := drop (len - 3) digits). set (digits' := take (len - 3) digits).
    assert (Hlen' : String.length digits' = (len - 3)%nat).
    { subst digits'. rewrite length_take. fold len. lia. }
    assert (Hgroup : String.length group = 3%nat).
    { subst group. rewrite length_drop. fold len. lia. }
    assert (Hne' : digits' <> "").
    { intros Heq. rewrite Heq in Hlen'. cbn in Hlen'. lia. }
    destruct (IH digits' (group :: groups) Hne' ltac:(lia))
      as (first & rest & Hrun & Hcat & Hfirst & Hrest).
    exists first, (rest ++ [group])%list. split.
    + destruct digits' as [|c0 d0]; [contradiction|]. rewrite Hrun.
      rewrite <- app_assoc. reflexivity.
    + split.
      * change (first :: rest ++ [group])%list with ((first :: rest) ++ [group])%list.
        rewrite concat_empty_app, Hcat. cbn [String.concat].
        subst digits' group. apply take_drop.
      * split; [exact Hfirst|]. apply Forall_app. split; [exact Hrest|].
        constructor; [exact Hgroup|constructor].
Qed.

Lemma split_concat (gs : list string) :
  gs <> [] ->
  (forall g, In g gs -> ~ In ","%char (list_ascii_of_string g)) ->
  PyStr.split "," (String.concat "," gs) = gs.
Proof.
  induction gs as [|x gs IH]; [contradiction|]. intros _ Hall.
  destruct gs as [|y gs].
  - cbn [String.concat]. apply split_without. apply Hall. left. reflexivity.
  - change (String.concat "," (x :: y :: gs))
      with (x ++ String "," (String.concat "," (y :: gs))).
    rewrite split_field.
    + rewrite IH; [reflexivity|discriminate|].
      intros g Hg. apply Hall. right. exact Hg.
    + apply split_without. apply Hall. left. reflexivity.
Qed.

Lemma concat_chars (gs : list string) (g : string) (c : ascii) :
  In g gs -> In c (list_ascii_of_string g) ->
  In c (list_ascii_of_string (String.concat "" gs)).
Proof.
  induction gs as [|x gs IH]; [intros []|].
  rewrite concat_empty_cons, chars_app, in_app_iff.
  intros [->|Hg] Hc; [left; exact Hc|right; apply IH; assumption].
Qed.

(** X22. The grouping of the integer part: cut at its commas, the text gives
    back the digits, in groups of three but for the first, of one to three
    digits. *)
Theorem insert_thousands_sep_groups (digits : string) :
  digits <> "" -> ~ In ","%char (list_ascii_of_string digits) ->
  exists first rest,
    PyStr.split "," (insert_thousands_sep digits) = first :: rest
    /\ String.concat "" (first :: rest) = digits
    /\ (1 <= String.length first <= 3)%nat
    /\ Forall (fun g => String.length g = 3%nat) rest.
Proof.
  intros Hne Hcomma. unfold insert_thousands_sep.
  destruct (group_loop_spec (S (String.length digits)) digits [] Hne ltac:(lia))
    as (first & rest & Hrun & Hcat & Hfirst & Hrest).
  rewrite app_nil_r in Hrun. rewrite Hrun. exists first, rest.
  split; [|auto]. apply split_concat; [discriminate|].
  intros g Hg Hc. apply Hcomma. rewrite <- Hcat.
  exact (concat_chars _ g _ Hg Hc).
Qed.

(** X20. What [locale_decimal] prints: a minus sign for a negative number, the
    integer part grouped by thousands, a point, and 18 digits. Read
    without the separators, the digits are the coefficient of the number
    at the exponent -18: for a number of at most 18 decimals that is the
    number itself, nothing is rounded. *)
Theorem locale_decimal_digits (d : Decimal) :
  exists intpart fracpart,
    locale_decimal d
    = (if (coef d <? 0)%Z then "-" else "")
      ++ insert_thousands_sep intpart ++ "." ++ fracpart
    /\ String.length fracpart = 18%nat
    /\ PyStr.to_int (intpart ++ fracpart) = Some (Z.abs (coef (rescale d (-18))))
    /\ (-18 <= exp d ->
        Z.abs (coef (rescale d (-18))) = Z.abs (coef d) * 10 ^ (exp d + 18)).
Proof.
  set (c := Z.abs (coef (rescale d (-18)))).
  exists (str (c / 10 ^ 18)), (fixed 18 (c mod 10 ^ 18)).
  split; [|split; [|split]].
  - unfold locale_decimal. rewrite format_f_parts. fold c. unfold format_number.
    destruct (fixed 18 (c mod 10 ^ 18)) eqn:Hf; [|reflexivity].
    exfalso. apply (fixed_nonempty 18 (c mod 10 ^ 18)); [lia|exact Hf].
  - apply length_fixed.
  - apply to_int_parts. subst c. lia.
  - intros Hexp. subst c. rewrite rescale_exact by lia.
    rewrite Z.abs_mul. replace (exp d - -18) with (exp d + 18) by lia.
    rewrite (Z.abs_eq (10 ^ (exp d + 18))) by (apply Z.pow_nonneg; lia). reflexivity.
Qed.

(** X21. With more than 18 decimals [locale_decimal] rounds at the 18th: the
    digits it prints are within half a unit of the last place of the
    number, and on a tie the last digit is even. *)
Theorem locale_decimal_rounds (d : Decimal) :
  exp d < -18 ->
  let k := -18 - exp d in
  exists intpart fracpart shown,
    locale_decimal d
    = (if (coef d <? 0)%Z then "-" else "")
      ++ insert_thousands_sep intpart ++ "." ++ fracpart
    /\ PyStr.to_int (intpart ++ fracpart) = Some shown
    /\ 2 * Z.abs (shown * 10 ^ k - Z.abs (coef d)) <= 10 ^ k
    /\ (2 * Z.abs (shown * 10 ^ k - Z.abs (coef d)) = 10 ^ k -> Z.even shown = true).
Proof.
  intros Hexp k.
  set (c := Z.abs (coef (rescale d (-18)))).
  exists (str (c / 10 ^ 18)), (fixed 18 (c mod 10 ^ 18)), c.
  split; [|split].
  - unfold locale_decimal. rewrite format_f_parts. fold c. unfold format_number.
    destruct (fixed 18 (c mod 10 ^ 18)) eqn:Hf; [|reflexivity].
    exfalso. apply (fixed_nonempty 18 (c mod 10 ^ 18)); [lia|exact Hf].
  - apply to_int_parts. subst c. lia.
  - exact (rescale_round d (-18) Hexp).
Qed.

End FormatFacts.

(** ** [init_all] *)

Section InitFacts.

Context {A : Api}.

Lemma init_loop_never (names : list string) :
  forall attrs,
  match snd (init_loop names attrs) with
  | Some ContractNotFound => False
  | _ => True
  end.
Proof.
  induction names as [|method rest IH]; intros attrs; [exact I|].
  cbn [init_loop]. destruct (is_init method); [|apply IH].
  destruct (call method attrs) as [attrs' [e|]]; [|apply IH].
  destruct e; try exact I. apply IH.
Qed.

(** X25. [init_all] never raises [ContractNotFound], whatever [__dir__] lists
    and whatever the constructors do: it returns, or raises another
    exception. *)
Theorem init_all_never_contract_not_found (attrs : Attrs) :
  match snd (init_all attrs) with
  | Some ContractNotFound => False
  | _ => True
  end.
Proof. apply init_loop_never. Qed.

Lemma lookup_is_init (name : string) (w : Wrapper) :
  lookup_method name init_methods = Some w -> is_init name = true.
Proof.
  unfold init_methods. cbn [lookup_method].
  repeat (match goal with
          | |- context [String.eqb ?n name] =>
              destruct (String.eqb_spec n name) as [<-|_]; [intros _; reflexivity|]
          end).
  discriminate.
Qed.

Lemma init_loop_available (names : list string) :
  (forall w, In w (wrappers_of names) ->
     build w = None \/ build w = Some ContractNotFound) ->
  (forall name, In name names -> is_init name = true ->
     lookup_method name init_methods = None ->
     inherited name = None \/ inherited name = Some ContractNotFound) ->
  forall attrs,
  init_loop names attrs
  = ((attrs ++ map (fun w => (attribute w, w)) (filter available (wrappers_of names)))%list,
     None).
Proof.
  induction names as [|method rest IH]; intros Hbuild Hother attrs.
  - cbn. rewrite app_nil_r. reflexivity.
  - assert (IHrest : forall attrs',
              init_loop rest attrs'
              = ((attrs' ++ map (fun w => (attribute w, w))
                                (filter available (wrappers_of rest)))%list, None)).
    { apply IH.
      - intros w Hw. apply Hbuild. unfold wrappers_of. cbn [flat_map].
        apply in_or_app. right. exact Hw.
      - intros name Hin. apply Hother. right. exact Hin. }
    cbn [init_loop]. unfold wrappers_of. cbn [flat_map]. fold (wrappers_of rest).
    unfold call. destruct (lookup_method method init_methods) as [w|] eqn:Hlook.
    + rewrite (lookup_is_init method w Hlook). unfold init.
      cbn [app filter]. unfold available at 1.
      destruct (Hbuild w) as [Hb|Hb].
      { unfold wrappers_of. cbn [flat_map]. rewrite Hlook. left. reflexivity. }
      * rewrite Hb. rewrite IHrest. cbn [map]. rewrite <- app_assoc. reflexivity.
      * rewrite Hb. apply IHrest.
    + cbn [app]. destruct (is_init method) eqn:Hinit; [|apply IHrest].
      destruct (Hother method (or_introl eq_refl) Hinit Hlook) as [Hi|Hi];
        rewrite Hi; apply IHrest.
Qed.

(** X26. When a missing platform is all that can go wrong, [init_all] returns,
    and it has assigned the wrappers whose constructor returns, in the
    order of [__dir__], each under its attribute: the platforms of another
    chain are passed over. *)
Theorem init_all_available (attrs : Attrs) :
  (forall w, In w (wrappers_of dir_) ->
     build w = None \/ build w = Some ContractNotFound) ->
  (forall name, In name dir_ -> is_init name = true ->
     lookup_method name init_methods = None ->
     inherited name = None \/ inherited name = Some ContractNotFound) ->
  init_all attrs
  = ((attrs ++ map (fun w => (attribute w, w)) (filter available (wrappers_of dir_)))%list,
     None).
Proof. intros Hbuild Hother. apply init_loop_available; assumption. Qed.

(** X27. An exception other than [ContractNotFound] ends [init_all] at the
    wrapper that raised it: the wrappers before it are assigned as above,
    the ones after it are not built. *)
Theorem init_all_aborts (before after : list string) (method : string) (w : Wrapper)
  (e : exn) (attrs : Attrs) :
  dir_ = (before ++ method :: after)%list ->
  (forall v, In v (wrappers_of before) ->
     build v = None \/ build v = Some ContractNotFound) ->
  (forall name, In name before -> is_init name = true ->
     lookup_method name init_methods = None ->
     inherited name = None \/ inherited name = Some ContractNotFound) ->
  lookup_method method init_methods = Some w ->
  build w = Some e -> e <> ContractNotFound ->
  init_all attrs
  = ((attrs ++ map (fun v => (attribute v, v)) (filter available (wrappers_of before)))%list,
     Some e).
Proof.
  intros Hdir Hbuild Hother Hlook Hraise Hne. unfold init_all. rewrite Hdir. clear Hdir.
  revert attrs. induction before as [|name before IH]; intros attrs.
  - cbn [app init_loop wrappers_of flat_map filter map]. rewrite app_nil_r.
    rewrite (lookup_is_init method w Hlook). unfold call. rewrite Hlook. unfold init.
    rewrite Hraise. destruct e; try reflexivity. contradiction.
  - assert (IHrest : forall attrs',
              init_loop (before ++ method :: after) attrs'
              = ((attrs' ++ map (fun v => (attribute v, v))
                                (filter available (wrappers_of before)))%list, Some e)).
    { apply IH.
      - intros v Hv. apply Hbuild. unfold wrappers_of. cbn [flat_map].
        apply in_or_app. right. exact Hv.
      - intros n Hin. apply Hother. right. exact Hin. }
    cbn [app init_loop]. unfold wrappers_of. cbn [flat_map]. fold (wrappers_of before).
    unfold call. destruct (lookup_method name init_methods) as [v|] eqn:Hv.
    + rewrite (lookup_is_init name v Hv). unfold init.
      cbn [app filter]. unfold available at 1.
      destruct (Hbuild v) as [Hb|Hb].
      { unfold wrappers_of. cbn [flat_map]. rewrite Hv. left. reflexivity. }
      * rewrite Hb. rewrite IHrest. cbn [map]. rewrite <- app_assoc. reflexivity.
      * rewrite Hb. apply IHrest.
    + cbn [app]. destruct (is_init name) eqn:Hinit; [|apply IHrest].
      destruct (Hother name (or_introl eq_refl) Hinit Hv) as [Hi|Hi];
        rewrite Hi; apply IHrest.
Qed.

End InitFacts.

(** ** The properties on the concrete safe *)

Example split_version : PyStr.split "." "1.3.0" = ["1"; "3"; "0"].
Proof. reflexivity. Qed.

Example split_keeps_empty : PyStr.split "." "1..0" = ["1"; ""; "0"].
Proof. reflexivity. Qed.

Example to_int_underscore : PyStr.to_int " 35_000 " = Some 35000%Z.
Proof. reflexivity. Qed.

Example to_int_suffix : PyStr.to_int "0+L2" = None.
Proof. reflexivity. Qed.

Lemma take_snapshot_distinct_witness :
  forallb (@resolvable Demo.legacy) Demo.tokens = true
  /\ exists snap,
       @take_snapshot Demo.legacy Demo.tokens Demo.w_before
       = Ok tt (@snapped Demo.legacy Demo.w_before snap)
       /\ snapshot (@snapped Demo.legacy Demo.w_before snap) = AttrFrame snap
       /\ hd_error (address snap) = Some (@ETH_ADDRESS Demo.legacy)
       /\ hd_error (mantissa_before snap) = Some (account_balance (chain Demo.w_before))
       /\ NoDup (address snap).
Proof.
  split; [reflexivity|].
  apply (@take_snapshot_distinct Demo.legacy Demo.tokens Demo.w_before). reflexivity.
Defined.

Example take_snapshot_demo :
  @take_snapshot Demo.legacy Demo.tokens Demo.w_before
  = Ok tt (@snapped Demo.legacy Demo.w_before Demo.frame).
Proof. reflexivity. Qed.

Lemma print_snapshot_delta_witness :
  @take_snapshot Demo.legacy Demo.tokens Demo.w_before
  = Ok tt (@snapped Demo.legacy Demo.w_before Demo.frame)
  /\ exists deltas df,
       @print_snapshot Demo.legacy None Demo.w_after
       = Ok tt (@print_effect Demo.legacy None Demo.w_after)
       /\ balance_delta_column Demo.frame
            (map (@read_balance Demo.legacy (chain Demo.w_after)) (address Demo.frame))
          = Some deltas
       /\ @printed_frame Demo.legacy Demo.w_after = Some df
       /\ balance_delta df = filter PyDecimal.nonzero deltas
       /\ Forall2
            (fun a delta =>
               let diff := @read_balance Demo.legacy (chain Demo.w_after) a
                           - @read_balance Demo.legacy (chain Demo.w_before) a in
               let scale := (inject_Z 10 ^ @read_decimals Demo.legacy (chain Demo.w_before) a)%Q in
               (PyDecimal.value delta
                == PyDecimal.value (PyDecimal.fix_ (PyDecimal.of_int diff)) / scale)%Q
               /\ (Z.abs diff < 10 ^ PyDecimal.prec ->
                   (PyDecimal.value delta == inject_Z diff / scale)%Q))
            (address Demo.frame) deltas.
Proof.
  split; [reflexivity|].
  apply (@print_snapshot_delta Demo.legacy Demo.tokens Demo.w_before
           (@snapped Demo.legacy Demo.w_before Demo.frame) Demo.w_after None Demo.frame);
    reflexivity.
Defined.

(** C4 fails as stated: the token BIG went from 0 to [10^28 + 1] units
    with 18 decimals; the delta printed is [1.000000000E+10], which is not
    [(10^28 + 1) / 10^18]. *)
Lemma print_snapshot_delta_inexact :
  @print_snapshot Demo.legacy None Demo.w_after
  = Ok tt (@print_effect Demo.legacy None Demo.w_after)
  /\ @printed_frame Demo.legacy Demo.w_after = Some Demo.printed
  /\ nth_error (index Demo.printed) 1 = Some "BIG"
  /\ nth_error (balance_delta Demo.printed) 1 = Some (PyDecimal.mk 1000000000 1)
  /\ call_balanceOf Demo.chain_before "0xBIG" = 0
  /\ call_balanceOf Demo.chain_after "0xBIG" = 10 ^ 28 + 1
  /\ call_decimals Demo.chain_before "0xBIG" = 18
  /\ Qeq_bool (PyDecimal.value (PyDecimal.mk 1000000000 1))
              (inject_Z (10 ^ 28 + 1 - 0) / inject_Z 10 ^ 18) = false.
Proof.
  split; [vm_compute; reflexivity|]. split; [vm_compute; reflexivity|].
  split; [reflexivity|]. split; [reflexivity|]. split; [reflexivity|].
  split; [reflexivity|]. split; [reflexivity|]. vm_compute. reflexivity.
Qed.

Lemma print_snapshot_csv_witness :
  exists deltas df w',
    @print_snapshot Demo.legacy (Some "out.csv") Demo.w_after = Ok tt w'
    /\ balance_delta_column Demo.frame
         (map (@read_balance Demo.legacy (chain Demo.w_after)) (address Demo.frame))
       = Some deltas
    /\ List.length (combine (symbol Demo.frame) deltas) = List.length (address Demo.frame)
    /\ files w' = (files Demo.w_after
                   ++ [("out.csv", CsvFile ["token"; "claimable_amount"]
                          (filter (fun row => PyDecimal.nonzero (snd row))
                                  (combine (symbol Demo.frame) deltas)))])%list
    /\ stdout w' = (stdout Demo.w_after
                    ++ [OText ("snapshot result for " ++ @self_address Demo.legacy ++ ":");
                        OTable df])%list
    /\ combine (index df) (balance_delta df)
       = filter (fun row => PyDecimal.nonzero (snd row)) (combine (symbol Demo.frame) deltas).
Proof.
  apply (@print_snapshot_csv Demo.legacy "out.csv" Demo.w_after Demo.frame).
  - discriminate.
  - reflexivity.
  - repeat split.
  - reflexivity.
Defined.

Example print_snapshot_csv_demo :
  @print_snapshot Demo.legacy (Some "out.csv") Demo.w_after
  = Ok tt (@print_effect Demo.legacy (Some "out.csv") Demo.w_after)
  /\ files (@print_effect Demo.legacy (Some "out.csv") Demo.w_after)
     = [("out.csv",
         CsvFile ["token"; "claimable_amount"]
                 [("auraBAL", PyDecimal.mk 25 (-16));
                  ("BIG", PyDecimal.mk 1000000000 1)])].
Proof. split; vm_compute; reflexivity. Qed.

Example legacy_gas_demo : legacy_gas 100000 = 103000.
Proof. reflexivity. Qed.

Example gas_estimate_demo : PyNum.int_mul PyNum.one_and_a_half 103000 = inr 154500.
Proof. vm_compute. reflexivity. Qed.

Example legacy_version_demo :
  legacy_version "1.2.0" = inr true /\ legacy_version "1.3.0" = inr false
  /\ legacy_version "1.4.1" = inr false /\ legacy_version "0.1.0" = inr true
  /\ legacy_version "0.3.0" = inr false /\ legacy_version "2" = inr false
  /\ legacy_version "1" = inl IndexError /\ legacy_version "1.x" = inl ValueError.
Proof. repeat split. Qed.

Lemma set_safe_tx_gas_signatures_witness :
  @_set_safe_tx_gas Demo.legacy Demo.batched true false true None PyNum.one_and_a_half
                    Demo.w_after
  = Ok Demo.gassed Demo.w_after
  /\ exists legacy,
       legacy_version (_safe_version Demo.batched) = inr legacy
       /\ (if legacy : bool then
             signatures Demo.gassed = []
             /\ exists scaled,
                  PyNum.int_mul PyNum.one_and_a_half
                    (legacy_gas (gas_used (fst (@preview Demo.legacy Demo.batched true false true
                                                         (chain Demo.w_after)))))
                  = inr scaled
                  /\ safe_tx_gas Demo.gassed = 35000 + scaled
           else
             signatures Demo.gassed = signatures Demo.batched
             /\ safe_tx_gas Demo.gassed = 0)
       /\ to Demo.gassed = to Demo.batched /\ value Demo.gassed = value Demo.batched
       /\ data Demo.gassed = data Demo.batched
       /\ operation Demo.gassed = operation Demo.batched
       /\ _safe_nonce Demo.gassed = _safe_nonce Demo.batched
       /\ _safe_version Demo.gassed = _safe_version Demo.batched.
Proof.
  split; [vm_compute; reflexivity|].
  apply (@set_safe_tx_gas_signatures Demo.legacy Demo.batched Demo.gassed true false true
           None PyNum.one_and_a_half Demo.w_after Demo.w_after).
  vm_compute. reflexivity.
Defined.

Lemma post_safe_tx_submits_witness :
  @estimated Demo.legacy false true false true PyNum.one_and_a_half Demo.w_after
  = inr Demo.gassed
  /\ exists w',
       @post_safe_tx Demo.legacy false true false true false true None None None
                     PyNum.one_and_a_half Demo.w_after
       = Ok (nonce_step None Demo.gassed) w'
       /\ posted w' = (posted Demo.w_after ++ [nonce_step None Demo.gassed])%list.
Proof.
  split; [vm_compute; reflexivity|].
  apply (@post_safe_tx_submits Demo.legacy false true false true false true None None None
           PyNum.one_and_a_half Demo.w_after Demo.gassed).
  - vm_compute. reflexivity.
  - reflexivity.
Defined.

Lemma post_safe_tx_log_witness :
  exists w',
    @post_safe_tx Demo.legacy false true false true false true None (Some "claim") None
                  PyNum.one_and_a_half Demo.w_after
    = Ok (nonce_step None Demo.gassed) w'
    /\ log_files w'
       = (log_files Demo.w_after
          ++ [(log_path (clock Demo.w_after) "claim",
               LogFile ([OInfo (fst (@preview Demo.legacy
                                       (@multisend_from_receipts Demo.legacy (history Demo.w_after))
                                       true false true (chain Demo.w_after)));
                         OCallTrace (fst (@preview Demo.legacy
                                            (@multisend_from_receipts Demo.legacy
                                               (history Demo.w_after))
                                            true false true (chain Demo.w_after)));
                         OPprint Demo.gassed]
                        ++ @snapshot_lines Demo.legacy
                             (with_chain Demo.w_after
                                (snd (@preview Demo.legacy
                                        (@multisend_from_receipts Demo.legacy
                                           (history Demo.w_after))
                                        true false true (chain Demo.w_after))))))])%list.
Proof.
  apply (@post_safe_tx_log Demo.legacy false true false true false true None (Some "claim")
           None PyNum.one_and_a_half Demo.w_after Demo.gassed).
  - vm_compute. reflexivity.
  - reflexivity.
Defined.

(** C6 fails as stated: with [skip_preview=True] a [log_name] is given
    and no file is written. *)
Lemma post_safe_tx_log_skipped :
  @post_safe_tx Demo.legacy true true false true false true None (Some "claim") None
                PyNum.one_and_a_half Demo.w_before
  = Ok Demo.batched
       (with_posted (with_stdout Demo.w_before [OPprint Demo.batched]) [Demo.batched])
  /\ files (with_posted (with_stdout Demo.w_before [OPprint Demo.batched]) [Demo.batched])
     = [].
Proof. split; [vm_compute; reflexivity|reflexivity]. Qed.

Lemma post_safe_tx_single_batch_witness :
  exists result w',
    @post_safe_tx Demo.legacy false true false true false true None None None
                  PyNum.one_and_a_half Demo.w_after
    = Ok result w'
    /\ to result = to (@multisend_from_receipts Demo.legacy (history Demo.w_after))
    /\ value result = value (@multisend_from_receipts Demo.legacy (history Demo.w_after))
    /\ data result = data (@multisend_from_receipts Demo.legacy (history Demo.w_after))
    /\ operation result
       = operation (@multisend_from_receipts Demo.legacy (history Demo.w_after))
    /\ (posted w' = posted Demo.w_after
        \/ posted w' = (posted Demo.w_after ++ [result])%list).
Proof.
  apply (@post_safe_tx_single_batch Demo.legacy false true false true false true None None
           None PyNum.one_and_a_half Demo.w_after Demo.gassed).
  - vm_compute. reflexivity.
  - reflexivity.
Defined.

(** C3 fails as stated: asked for the pending transaction of nonce 0,
    which is there, the method signs the first one, of nonce 5. *)
Lemma sign_with_frame_hardware_wallet_zero :
  find_by_nonce (pending_transactions Demo.w_pending) 0 = Some (Demo.tx_nonce 0)
  /\ @sign_with_frame_hardware_wallet Demo.legacy (Some 0) Demo.w_pending
     = Ok tt (@signed_world Demo.legacy (Demo.tx_nonce 5) Demo.w_pending)
  /\ posted_signatures (@signed_world Demo.legacy (Demo.tx_nonce 5) Demo.w_pending)
     = [(set_signatures (Demo.tx_nonce 5) [x1b], [x1b])]
  /\ safe_nonce (Demo.tx_nonce 5) = 5.
Proof. repeat split. Qed.

Lemma sign_with_frame_hardware_wallet_selects_witness :
  @sign_with_frame_hardware_wallet Demo.legacy (Some 7) Demo.w_pending
  = Raise RuntimeError Demo.w_pending
  /\ @sign_with_frame_hardware_wallet Demo.legacy (Some 9) Demo.w_pending
     = Ok tt (@signed_world Demo.legacy (Demo.tx_nonce 9) Demo.w_pending)
  /\ @sign_with_frame_hardware_wallet Demo.legacy None Demo.w_pending
     = Ok tt (@signed_world Demo.legacy (Demo.tx_nonce 5) Demo.w_pending).
Proof.
  destruct (@sign_with_frame_hardware_wallet_selects Demo.legacy Demo.w_pending)
    as (Hnone & Hfirst & Hdefault & _).
  split; [|split].
  - apply Hnone; [lia|]. intros t [<-|[<-|[<-|[]]]]; cbn; lia.
  - apply (Hfirst 9 [Demo.tx_nonce 5; Demo.tx_nonce 0] (Demo.tx_nonce 9) []);
      [lia|reflexivity|reflexivity|].
    intros t [<-|[<-|[]]]; cbn; lia.
  - apply (Hdefault (Demo.tx_nonce 5) [Demo.tx_nonce 0; Demo.tx_nonce 9]). reflexivity.
Defined.

Lemma zero_nonce_is_no_nonce_witness :
  @sign_with_frame_hardware_wallet Demo.legacy (Some 0) Demo.w_pending
  = Ok tt (@signed_world Demo.legacy (Demo.tx_nonce 5) Demo.w_pending)
  /\ execute_with_frame_hardware_wallet (Some 0) Demo.w_pending
     = Ok tt (executed_world (Demo.tx_nonce 5) Demo.w_pending).
Proof.
  destruct (@zero_nonce_is_no_nonce Demo.legacy false true false true false true None None
              PyNum.one_and_a_half Demo.w_pending) as (_ & _ & _ & Hfirst).
  apply (Hfirst (Demo.tx_nonce 5) [Demo.tx_nonce 0; Demo.tx_nonce 9]). reflexivity.
Defined.

(** ** The further properties on the concrete safe *)




Lemma remove_ansi_escapes_plain_witness :
  plain "gas used: 100000" = true
  /\ remove_ansi_escapes "gas used: 100000" = "gas used: 100000".
Proof.
  split; [reflexivity|]. apply (remove_ansi_escapes_plain "gas used: 100000"). reflexivity.
Defined.

Lemma remove_ansi_escapes_sequence_witness :
  remove_ansi_escapes ("gas " ++ String ESC "[" ++ "1;31" ++ "" ++ String "m" "used")
  = "gas " ++ remove_ansi_escapes "used".
Proof.
  apply (remove_ansi_escapes_sequence "gas " (String ESC "[") "1;31" "" "m" "used");
    reflexivity.
Defined.

Example remove_ansi_escapes_colour :
  remove_ansi_escapes (String ESC "[1;31mgas used" ++ String ESC "[0m: 100000")
  = "gas used: 100000".
Proof. reflexivity. Qed.

Example remove_ansi_escapes_unfinished :
  remove_ansi_escapes (String ESC "[12;") = String ESC "[12;".
Proof. reflexivity. Qed.

Example remove_ansi_escapes_checks :
  remove_ansi_escapes (String ESC (String ESC "[m[m")) = String ESC "[m"
  /\ remove_ansi_escapes (String CSI "31mX") = "X"
  /\ remove_ansi_escapes ("a" ++ String ESC "[ !pb") = "ab"
  /\ remove_ansi_escapes (String ESC "[0 pz") = "z"
  /\ remove_ansi_escapes (String ESC "[;/0m") = String ESC "[;/0m".
Proof. repeat split. Qed.

Example fromhex_checks :
  PyBytes.fromhex "ab cd" = Some [xab; xcd] /\ PyBytes.fromhex "a bcd" = None
  /\ PyBytes.fromhex "abc" = None /\ PyBytes.fromhex "AbCd" = Some [xab; xcd]
  /\ PyBytes.hex [x00; xff; x10] = "00ff10".
Proof. repeat split. Qed.

Lemma paste_signatures_edges_witness :
  paste_signatures (Demo.tx_nonce 5) "  " = inr (set_signatures (Demo.tx_nonce 5) [])
  /\ paste_signatures (Demo.tx_nonce 5) ("0x" ++ "1b") = inl ValueError.
Proof.
  destruct (paste_signatures_edges (Demo.tx_nonce 5)) as (Hblank & Hprefix).
  split; [apply Hblank; reflexivity|apply Hprefix].
Defined.

Example locale_decimal_checks :
  locale_decimal (PyDecimal.mk 0 0) = "0.000000000000000000"
  /\ locale_decimal (PyDecimal.mk 1 (-18)) = "0.000000000000000001"
  /\ locale_decimal (PyDecimal.mk (-1) (-19)) = "-0.000000000000000000"
  /\ locale_decimal (PyDecimal.mk 5 (-19)) = "0.000000000000000000"
  /\ locale_decimal (PyDecimal.mk 15 (-19)) = "0.000000000000000002"
  /\ locale_decimal (PyDecimal.mk 25 (-19)) = "0.000000000000000002"
  /\ locale_decimal (PyDecimal.mk 1234567 (-3)) = "1,234.567000000000000000"
  /\ locale_decimal (PyDecimal.mk 1 3) = "1,000.000000000000000000"
  /\ locale_decimal (PyDecimal.mk 123456789012345678901234567890 0)
     = "123,456,789,012,345,678,901,234,567,890.000000000000000000"
  /\ locale_decimal (PyDecimal.mk (-25) (-16)) = "-0.000000000000002500"
  /\ locale_decimal (PyDecimal.mk 999 0) = "999.000000000000000000"
  /\ locale_decimal (PyDecimal.mk 1000000000000000000000000000 (-17))
     = "10,000,000,000.000000000000000000".
Proof. vm_compute. repeat split. Qed.

Lemma locale_decimal_digits_witness :
  exists intpart fracpart,
    locale_decimal (PyDecimal.mk 25 (-16))
    = (if (25 <? 0)%Z then "-" else "")
      ++ PyFormat.insert_thousands_sep intpart ++ "." ++ fracpart
    /\ String.length fracpart = 18%nat
    /\ PyStr.to_int (intpart ++ fracpart)
       = Some (Z.abs (PyDecimal.coef (PyFormat.rescale (PyDecimal.mk 25 (-16)) (-18))))
    /\ (-18 <= -16 ->
        Z.abs (PyDecimal.coef (PyFormat.rescale (PyDecimal.mk 25 (-16)) (-18)))
        = Z.abs 25 * 10 ^ (-16 + 18)).
Proof. apply (locale_decimal_digits (PyDecimal.mk 25 (-16))). Defined.

Lemma locale_decimal_rounds_witness :
  exists intpart fracpart shown,
    locale_decimal (PyDecimal.mk 25 (-19))
    = (if (25 <? 0)%Z then "-" else "")
      ++ PyFormat.insert_thousands_sep intpart ++ "." ++ fracpart
    /\ PyStr.to_int (intpart ++ fracpart) = Some shown
    /\ 2 * Z.abs (shown * 10 ^ 1 - 25) <= 10 ^ 1
    /\ (2 * Z.abs (shown * 10 ^ 1 - 25) = 10 ^ 1 -> Z.even shown = true).
Proof. apply (locale_decimal_rounds (PyDecimal.mk 25 (-19))). cbn. lia. Defined.

Lemma insert_thousands_sep_groups_witness :
  exists first rest,
    PyStr.split "," (PyFormat.insert_thousands_sep "1234567") = first :: rest
    /\ String.concat "" (first :: rest) = "1234567"
    /\ (1 <= String.length first <= 3)%nat
    /\ Forall (fun g => String.length g = 3%nat) rest.
Proof.
  apply (insert_thousands_sep_groups "1234567"); [discriminate|].
  cbn. intros H. repeat (destruct H as [H|H]; [discriminate H|]). exact H.
Defined.

Lemma init_all_available_witness :
  @init_all DemoApi.fantom [] = ([("cow", Cow false); ("sushi", Sushi)], None).
Proof.
  apply (@init_all_available DemoApi.fantom []).
  - intros w Hw. cbn in Hw.
    destruct Hw as [<-|[<-|[<-|[<-|[]]]]]; cbn; auto.
  - intros name Hin Hinit Hlook. left. reflexivity.
Defined.

Lemma init_all_aborts_witness :
  @init_all DemoApi.broken [] = ([("cow", Cow false)], Some ValueError).
Proof.
  apply (@init_all_aborts DemoApi.broken ["init_aave"; "init_all"; "init_cow"]
           ["init_uni_v2"] "init_sushi" Sushi ValueError []).
  - reflexivity.
  - intros v Hv. cbn in Hv. destruct Hv as [<-|[<-|[]]]; cbn; auto.
  - intros name Hin Hinit Hlook. left. reflexivity.
  - reflexivity.
  - reflexivity.
  - discriminate.
Defined.

Lemma set_safe_tx_gas_default_coef_witness :
  exists safe_tx' w',
    @_set_safe_tx_gas Demo.legacy Demo.batched true false true None PyNum.one_and_a_half
                      Demo.w_after
    = Ok safe_tx' w'
    /\ safe_tx_gas safe_tx'
       = 35000 + 3 * legacy_gas (gas_used (fst (@preview Demo.legacy Demo.batched true false
                                                          true (chain Demo.w_after)))) / 2
    /\ signatures safe_tx' = [].
Proof.
  apply (@set_safe_tx_gas_default_coef Demo.legacy Demo.batched true false true None
           Demo.w_after).
  - reflexivity.
  - cbn. lia.
  - reflexivity.
Defined.


Lemma post_safe_tx_without_snapshot_witness :
  exists w',
    @post_safe_tx Demo.legacy false true false true false true None (Some "claim")
                  (Some "out.csv") PyNum.one_and_a_half Demo.w_before
    = Ok (nonce_step None Demo.gassed) w'
    /\ stdout w'
       = (stdout Demo.w_before
          ++ (if false then [] else [OPprint (nonce_step None Demo.gassed)]))%list
    /\ files w'
       = (files Demo.w_before
          ++ match Some "claim" with
             | Some name =>
                 if negb false && truthy_str (Some "claim")
                 then [(log_path (clock Demo.w_before) name,
                        LogFile [OInfo (fst (@preview Demo.legacy
                                               (@multisend_from_receipts Demo.legacy
                                                  (history Demo.w_before))
                                               true false true (chain Demo.w_before)));
                                 OCallTrace (fst (@preview Demo.legacy
                                                    (@multisend_from_receipts Demo.legacy
                                                       (history Demo.w_before))
                                                    true false true (chain Demo.w_before)));
                                 OPprint Demo.gassed])]
                 else []
             | None => []
             end)%list.
Proof.
  apply (@post_safe_tx_without_snapshot Demo.legacy false true false true false true None
           (Some "claim") (Some "out.csv") PyNum.one_and_a_half Demo.w_before Demo.gassed).
  - vm_compute. reflexivity.
  - reflexivity.
Defined.

Lemma take_snapshot_covers_witness :
  exists snap,
    @take_snapshot Demo.legacy Demo.tokens Demo.w_before
    = Ok tt (@snapped Demo.legacy Demo.w_before snap)
    /\ @snapshot_of Demo.legacy (chain Demo.w_before) snap
    /\ forall a, In a (address snap)
                 <-> a = @ETH_ADDRESS Demo.legacy
                     \/ exists token c, In token Demo.tokens
                                        /\ @to_contract Demo.legacy token Demo.w_before
                                           = Ok c Demo.w_before
                                        /\ c_address c = a.
Proof.
  apply (@take_snapshot_covers Demo.legacy Demo.tokens Demo.w_before). reflexivity.
Defined.

Lemma take_snapshot_unresolvable_witness :
  exists e w',
    @take_snapshot Demo.legacy [TokOther "0xGRAVI"; TokOther "0xNOPE"] Demo.w_after
    = Raise e w'
    /\ snapshot w' = snapshot Demo.w_after
    /\ stdout w'
       = (stdout Demo.w_after
          ++ [OText ("snapshotting " ++ @self_address Demo.legacy ++ "...")])%list.
Proof.
  apply (@take_snapshot_unresolvable Demo.legacy [TokOther "0xGRAVI"; TokOther "0xNOPE"]
           Demo.w_after).
  reflexivity.
Defined.

Lemma print_snapshot_rows_witness :
  exists df w',
    @print_snapshot Demo.legacy None Demo.w_after = Ok tt w'
    /\ stdout w'
       = (stdout Demo.w_after
          ++ [OText ("snapshot result for " ++ @self_address Demo.legacy ++ ":");
              OTable df])%list
    /\ index df
       = map (@read_symbol Demo.legacy (chain Demo.w_before))
             (filter (fun a => negb (@read_balance Demo.legacy (chain Demo.w_after) a
                                     =? @read_balance Demo.legacy (chain Demo.w_before) a)%Z)
                     (address Demo.frame)).
Proof.
  apply (@print_snapshot_rows Demo.legacy Demo.tokens Demo.w_before
           (@snapped Demo.legacy Demo.w_before Demo.frame) Demo.w_after None Demo.frame);
    reflexivity.
Defined.

Lemma print_snapshot_unchanged_witness :
  exists w',
    @print_snapshot Demo.legacy (Some "out.csv")
                    (@snapped Demo.legacy Demo.w_before Demo.frame)
    = Ok tt w'
    /\ stdout w'
       = (stdout (@snapped Demo.legacy Demo.w_before Demo.frame)
          ++ [OText ("snapshot result for " ++ @self_address Demo.legacy ++ ":");
              OTable (mkDelta [] [] [] [])])%list
    /\ files w'
       = (files (@snapped Demo.legacy Demo.w_before Demo.frame)
          ++ (if truthy_str (Some "out.csv")
              then [(match Some "out.csv" with Some p => p | None => "" end,
                     CsvFile ["token"; "claimable_amount"] [])]
              else []))%list.
Proof.
  apply (@print_snapshot_unchanged Demo.legacy Demo.tokens Demo.w_before
           (@snapped Demo.legacy Demo.w_before Demo.frame) (Some "out.csv") Demo.frame);
    reflexivity.
Defined.

Lemma print_snapshot_balances_witness :
  exists before after deltas df,
    @printed_frame Demo.legacy Demo.w_after = Some df
    /\ balance_delta_column Demo.frame
         (map (@read_balance Demo.legacy (chain Demo.w_after)) (address Demo.frame))
       = Some deltas
    /\ balance_before df = select (map PyDecimal.nonzero deltas) before
    /\ balance_after df = select (map PyDecimal.nonzero deltas) after
    /\ Forall2
         (fun a b =>
            Z.abs (@read_balance Demo.legacy (chain Demo.w_before) a) < 10 ^ PyDecimal.prec ->
            (PyDecimal.value b
             == inject_Z (@read_balance Demo.legacy (chain Demo.w_before) a)
                / inject_Z 10 ^ @read_decimals Demo.legacy (chain Demo.w_before) a)%Q)
         (address Demo.frame) before
    /\ Forall2
         (fun a b =>
            Z.abs (@read_balance Demo.legacy (chain Demo.w_after) a) < 10 ^ PyDecimal.prec ->
            (PyDecimal.value b
             == inject_Z (@read_balance Demo.legacy (chain Demo.w_after) a)
                / inject_Z 10 ^ @read_decimals Demo.legacy (chain Demo.w_before) a)%Q)
         (address Demo.frame) after.
Proof.
  apply (@print_snapshot_balances Demo.legacy Demo.tokens Demo.w_before
           (@snapped Demo.legacy Demo.w_before Demo.frame) Demo.w_after Demo.frame);
    reflexivity.
Defined.

Lemma execute_with_frame_hardware_wallet_selects_witness :
  execute_with_frame_hardware_wallet (Some 7) Demo.w_pending
  = Raise RuntimeError Demo.w_pending
  /\ execute_with_frame_hardware_wallet (Some 9) Demo.w_pending
     = Ok tt (executed_world (Demo.tx_nonce 9) Demo.w_pending)
  /\ execute_with_frame_hardware_wallet None Demo.w_pending
     = Ok tt (executed_world (Demo.tx_nonce 5) Demo.w_pending).
Proof.
  destruct (execute_with_frame_hardware_wallet_selects Demo.w_pending)
    as (Hnone & Hfirst & Hdefault & _).
  split; [|split].
  - apply Hnone; [lia|]. intros t [<-|[<-|[<-|[]]]]; cbn; lia.
  - apply (Hfirst 9 [Demo.tx_nonce 5; Demo.tx_nonce 0] (Demo.tx_nonce 9) []);
      [lia|reflexivity|reflexivity|].
    intros t [<-|[<-|[]]]; cbn; lia.
  - apply (Hdefault (Demo.tx_nonce 5) [Demo.tx_nonce 0; Demo.tx_nonce 9]). reflexivity.
Defined.
